(** * nuscenes2bag: sensor classification, box interpolation and the drain loop

    A shallow embedding of the conversion engine of nuscenes2bag:
    - [getSampleType] and [extractSampleSetDescriptorInDirectory]
      (sensor classification by name),
    - [getColor], [makeBox], [getBoxes], [makeMarkerMsg],
      [makeMarkerArrayMsg] and [convertAnnotations] of SceneConverter.cpp,
    - the queue set-up and the drain loop of
      [NuScenes2Rosbag::processSampleSets].

    C++ [double] values are IEEE 754 binary64 data ([spec_float] with
    precision 53 and maximal exponent 1024, rounding to nearest even);
    [uint64_t] values are integers modulo 2^64; [std::string] is [string];
    [std::map] is a finite map; [std::cout] is a list of printed lines. *)

From Stdlib Require Import ZArith Lia List Ascii String QArith SpecFloat.
From stdpp Require Import base option list strings gmap.

Local Open Scope Z_scope.

(* ===================================================================== *)
(** * Console output *)
(* ===================================================================== *)

(** A computation that may print lines on [std::cout]: its value and the
    lines printed, oldest first. *)
Definition Cout (A : Type) : Type := (A * list string)%type.

Definition ret {A : Type} (a : A) : Cout A := (a, []).

Definition bind {A B : Type} (m : Cout A) (f : A -> Cout B) : Cout B :=
  let '(a, l1) := m in
  let '(b, l2) := f a in
  (b, l1 ++ l2).

Definition cout (line : string) : Cout unit := (tt, [line]).

Notation "x <- m ;; k" := (bind m (fun x => k))
  (at level 100, m at level 99, right associativity).
Notation "m ;;; k" := (bind m (fun _ => k))
  (at level 100, right associativity).

(* ===================================================================== *)
(** * Strings: [std::string::find] and case folding *)
(* ===================================================================== *)

(** [starts_with sub s]: the characters of [s] from its first position on
    are those of [sub]. *)
Fixpoint starts_with (sub s : string) : bool :=
  match sub, s with
  | EmptyString, _ => true
  | String c sub', String d s' =>
      if Ascii.eqb c d then starts_with sub' s' else false
  | String _ _, EmptyString => false
  end.

(** [std::string::find]: the first position at which [sub] occurs in [s],
    [None] standing for [npos]. *)
Fixpoint string_find (s sub : string) : option nat :=
  if starts_with sub s then Some 0%nat
  else match s with
       | EmptyString => None
       | String _ s' =>
           match string_find s' sub with
           | Some pos => Some (S pos)
           | None => None
           end
       end.

(** [stringContains] of SceneConverter.cpp: [str.find(substr) != npos]. *)
Definition stringContains (str substr : string) : bool :=
  match string_find str substr with
  | Some _ => true
  | None => false
  end.

(** [::toupper] on one character of the C locale. *)
Definition toUpperChar (c : ascii) : ascii :=
  let n := nat_of_ascii c in
  if (Nat.leb 97 n && Nat.leb n 122)%bool then ascii_of_nat (n - 32) else c.

Fixpoint toUpper (s : string) : string :=
  match s with
  | EmptyString => EmptyString
  | String c s' => String (toUpperChar c) (toUpper s')
  end.

(** Modelled from the spec: [string_icontains] of utils.hpp, which is not
    among the sources; the specification describes it as a case-insensitive
    substring match. Both strings are folded to upper case and searched
    with [std::string::find]. *)
Definition string_icontains (str substr : string) : bool :=
  stringContains (toUpper str) (toUpper substr).

(* ===================================================================== *)
(** * Sensor classification *)
(* ===================================================================== *)

Inductive SampleType : Type := CAMERA | RADAR | LIDAR.

Global Instance SampleType_eq_dec : EqDecision SampleType.
Proof. solve_decision. Defined.

(** The marker table shared by both classifiers, in source order. *)
Definition pairs : list (string * SampleType) :=
  [("CAM"%string, CAMERA); ("RADAR"%string, RADAR); ("LIDAR"%string, LIDAR)].

(** The range-for over the marker table: the first entry whose marker
    satisfies [test] decides. *)
Fixpoint firstMarker (test : string -> bool)
    (table : list (string * SampleType)) : option SampleType :=
  match table with
  | [] => None
  | (str, ty) :: rest => if test str then Some ty else firstMarker test rest
  end.

(** [getSampleType] of SceneConverter.cpp (the C++17 variant; the other
    variant returns the enumerator [NONE] where this one returns
    [nullopt]). *)
Definition getSampleType (filename : string) : Cout (option SampleType) :=
  match firstMarker (fun str => stringContains filename str) pairs with
  | Some ty => ret (Some ty)
  | None => cout ("Unknown file " ++ filename) ;;; ret None
  end.

Definition slash : ascii := "/"%char.

(** [path::filename]: what follows the last slash. *)
Fixpoint path_filename (path : string) : string :=
  match path with
  | EmptyString => EmptyString
  | String c rest =>
      if stringContains rest "/" then path_filename rest
      else if Ascii.eqb c slash then rest else path
  end.

(** The double quote and the backslash, by their codes. *)
Definition double_quote : ascii := ascii_of_nat 34.
Definition backslash : ascii := ascii_of_nat 92.

(** [std::quoted]: every double quote and every backslash of the string
    gets a backslash in front, and the whole is put between double
    quotes. *)
Fixpoint escaped (s : string) : string :=
  match s with
  | EmptyString => EmptyString
  | String c rest =>
      if (Ascii.eqb c double_quote || Ascii.eqb c backslash)%bool
      then String backslash (String c (escaped rest))
      else String c (escaped rest)
  end.

Definition quoted (s : string) : string :=
  String double_quote (String.append (escaped s) (String double_quote EmptyString)).

(** [NuScenes2Rosbag::extractSampleSetDescriptorInDirectory]: the
    sample-set type of the descriptor it returns. The markers are looked
    for in [dirName], the last component of the path; the line printed
    when none is found shows the whole path, which [operator<<] of
    [std::filesystem::path] writes with [std::quoted]. *)
Definition extractSampleSetDescriptorInDirectory (inDirectoryPath : string)
    : Cout (option SampleType) :=
  let dirName := path_filename inDirectoryPath in
  match firstMarker (fun name => string_icontains dirName name) pairs with
  | Some ty => ret (Some ty)
  | None => cout ("Skipping " ++ quoted inDirectoryPath) ;;; ret None
  end.

(* ===================================================================== *)
(** * Colours *)
(* ===================================================================== *)

(** [std_msgs::ColorRGBA]; each channel holds the decimal literal that the
    source assigns to it. *)
Record ColorRGBA : Type := mkColor { r : Q; g : Q; b : Q; a : Q }.

Definition red : ColorRGBA := mkColor 1 (239 # 1000) (388 # 1000) 1.
Definition orange : ColorRGBA := mkColor 1 (619 # 1000) 0 1.
Definition blue : ColorRGBA := mkColor 0 0 (901 # 1000) 1.
Definition black : ColorRGBA := mkColor 0 0 0 1.
Definition magenta : ColorRGBA := mkColor 1 0 1 1.

(** [getColor] of SceneConverter.cpp, branch for branch. *)
Definition getColor (categoryName : string) : ColorRGBA :=
  if stringContains categoryName "bicycle" then red
  else if stringContains categoryName "motorcycle" then red
  else if stringContains categoryName "vehicle" then orange
  else if stringContains categoryName "bus" then orange
  else if stringContains categoryName "car" then orange
  else if stringContains categoryName "construction_vehicle" then orange
  else if stringContains categoryName "trailer" then orange
  else if stringContains categoryName "truck" then orange
  else if stringContains categoryName "pedestrian" then blue
  else if stringContains categoryName "cone" then black
  else if stringContains categoryName "barrier" then black
  else magenta.

(* ===================================================================== *)
(** * Numbers *)
(* ===================================================================== *)

(** Binary64. *)
Definition prec : Z := 53.
Definition emax : Z := 1024.

Definition double : Type := spec_float.

Definition dadd : double -> double -> double := SFadd prec emax.
Definition dsub : double -> double -> double := SFsub prec emax.
Definition dmul : double -> double -> double := SFmul prec emax.
Definition ddiv : double -> double -> double := SFdiv prec emax.
Definition dneg : double -> double := SFopp.

(** Conversion of an integer to [double], rounding to nearest even; this
    is [static_cast<double>] on a [uint64_t] and the value of an integral
    literal such as [2.0]. *)
Definition int_to_double (n : Z) : double := binary_normalize prec emax n 0 false.

Definition d_zero : double := int_to_double 0.
Definition d_one : double := int_to_double 1.
Definition d_two : double := int_to_double 2.

(** The [double] nearest to the decimal literal [num / den]. *)
Definition dlit (num den : Z) : double :=
  ddiv (int_to_double num) (int_to_double den).

(** A C++ [float]. It is represented by the binary64 datum of the same
    value: every [float] is exactly a [double], so the widening
    conversion [static_cast<double>] keeps the datum. *)
Definition float : Type := spec_float.

Definition static_cast_double (x : float) : double := x.

(** [uint64_t]: the integers modulo 2^64. *)
Definition u64_modulus : Z := 2 ^ 64.

Definition u64_sub (x y : Z) : Z := (x - y) mod u64_modulus.

(** [TimeStamp] is an unsigned 64-bit count of microseconds. *)
Definition TimeStamp : Type := Z.

Definition is_u64 (x : Z) : Prop := 0 <= x < u64_modulus.

(* ===================================================================== *)
(** * Data model *)
(* ===================================================================== *)

Abbreviation Token := string.

Module SampleInfo.
Record t : Type := mk {
  token : Token;
  timeStamp : TimeStamp;
  prev : Token
}.
End SampleInfo.

Module SampleDataInfo.
Record t : Type := mk {
  token : Token;
  sampleToken : Token;
  timeStamp : TimeStamp;
  fileName : string;
  isKeyFrame : bool;
  calibratedSensorToken : Token
}.
End SampleDataInfo.

(** A C array of three, respectively four, [float]s. *)
Record float3 : Type := mkFloat3 { f3_0 : float; f3_1 : float; f3_2 : float }.
Record float4 : Type :=
  mkFloat4 { f4_0 : float; f4_1 : float; f4_2 : float; f4_3 : float }.

Module SampleAnnotationInfo.
Record t : Type := mk {
  token : Token;
  instanceToken : Token;
  translation : float3;
  size : float3;
  rotation : float4;
  categoryName : string
}.
End SampleAnnotationInfo.

(** [Eigen::Vector3d], [geometry_msgs::Point] and [geometry_msgs::Vector3]. *)
Record Vector3d : Type := mkVector3d { vx : double; vy : double; vz : double }.

(** [Eigen::Quaterniond] and [geometry_msgs::Quaternion]; the Eigen
    constructor takes its arguments in the order w, x, y, z. *)
Record Quaterniond : Type :=
  mkQuaterniond { qw : double; qx : double; qy : double; qz : double }.

Module Box.
Record t : Type := mk {
  center : Vector3d;
  size : Vector3d;
  orientation : Quaterniond;
  token : Token;
  category_name : string;
  color : ColorRGBA
}.
End Box.

(** The scene-local state of a [SceneConverter] after [submit]. *)
Record SceneConverter : Type := mkSceneConverter {
  sceneSamples : gmap string SampleInfo.t;
  sceneAnnotations : gmap string (list SampleAnnotationInfo.t);
  sampleDatas : list SampleDataInfo.t
}.

(* ===================================================================== *)
(** * Boxes *)
(* ===================================================================== *)

Definition makeQuaterniond (rotation : float4) : Quaterniond :=
  mkQuaterniond (static_cast_double (f4_0 rotation))
                (static_cast_double (f4_1 rotation))
                (static_cast_double (f4_2 rotation))
                (static_cast_double (f4_3 rotation)).

(** [lerp]: [t*p0 + (1.0 - t)*p1], coefficient-wise on the vectors. *)
Definition lerp (t : double) (p0 p1 : Vector3d) : Vector3d :=
  mkVector3d (dadd (dmul t (vx p0)) (dmul (dsub d_one t) (vx p1)))
             (dadd (dmul t (vy p0)) (dmul (dsub d_one t) (vy p1)))
             (dadd (dmul t (vz p0)) (dmul (dsub d_one t) (vz p1))).

(** [makeBox(annotation)]. *)
Definition makeBox (annotation : SampleAnnotationInfo.t) : Box.t :=
  Box.mk
    (mkVector3d
       (static_cast_double (f3_0 (SampleAnnotationInfo.translation annotation)))
       (static_cast_double (f3_1 (SampleAnnotationInfo.translation annotation)))
       (static_cast_double (f3_2 (SampleAnnotationInfo.translation annotation))))
    (mkVector3d
       (static_cast_double (f3_0 (SampleAnnotationInfo.size annotation)))
       (static_cast_double (f3_1 (SampleAnnotationInfo.size annotation)))
       (static_cast_double (f3_2 (SampleAnnotationInfo.size annotation))))
    (mkQuaterniond
       (static_cast_double (f4_0 (SampleAnnotationInfo.rotation annotation)))
       (static_cast_double (f4_1 (SampleAnnotationInfo.rotation annotation)))
       (static_cast_double (f4_2 (SampleAnnotationInfo.rotation annotation)))
       (static_cast_double (f4_3 (SampleAnnotationInfo.rotation annotation))))
    (SampleAnnotationInfo.token annotation)
    (SampleAnnotationInfo.categoryName annotation)
    (getColor (SampleAnnotationInfo.categoryName annotation)).

(** [makeBox(annotation, center, rotation)], the three-argument overload. *)
Definition makeBox3 (annotation : SampleAnnotationInfo.t)
    (center : Vector3d) (rotation : Quaterniond) : Box.t :=
  Box.mk
    (mkVector3d (vx center) (vy center) (vz center))
    (mkVector3d
       (static_cast_double (f3_0 (SampleAnnotationInfo.size annotation)))
       (static_cast_double (f3_1 (SampleAnnotationInfo.size annotation)))
       (static_cast_double (f3_2 (SampleAnnotationInfo.size annotation))))
    (mkQuaterniond (qw rotation) (qx rotation) (qy rotation) (qz rotation))
    (SampleAnnotationInfo.token annotation)
    (SampleAnnotationInfo.categoryName annotation)
    (getColor (SampleAnnotationInfo.categoryName annotation)).

(** [std::map::insert]: the entry is added only when the key is new. *)
Definition map_insert {V : Type} (k : string) (v : V) (m : gmap string V)
    : gmap string V :=
  match m !! k with
  | Some _ => m
  | None => <[k := v]> m
  end.

(** The loop that fills [prevInstanceMap]. *)
Definition makePrevInstanceMap (prevAnnotations : list SampleAnnotationInfo.t)
    : gmap string SampleAnnotationInfo.t :=
  fold_left
    (fun m annotation =>
       map_insert (SampleAnnotationInfo.instanceToken annotation) annotation m)
    prevAnnotations ∅.

(** The timestamp of the sample data brought into the range of the two
    samples: [std::max(t0, std::min(t1, t))]. *)
Definition clampStamp (t0 t1 t : TimeStamp) : TimeStamp := Z.max t0 (Z.min t1 t).

(** The interpolation fraction computed in the loop body of [getBoxes]:
    [numerator] and [denominator] are [uint64_t], [amount] their quotient
    as [double]s. *)
Definition interpolationAmount (t0 t1 t : TimeStamp) : double :=
  let numerator := u64_sub t t0 in
  let denominator := u64_sub t1 t0 in
  ddiv (int_to_double numerator) (int_to_double denominator).

Section Boxes.

(** [Eigen::Quaterniond::slerp], a function of the Eigen library:
    [slerp amount q0 q1] is [q0.slerp(amount, q1)]. *)
Variable slerp : double -> Quaterniond -> Quaterniond -> Quaterniond.

(** The body of the loop over [currAnnotations]: the box pushed for one
    annotation of the current sample. [t] is the clamped timestamp. *)
Definition interpolatedBox
    (prevInstanceMap : gmap string SampleAnnotationInfo.t)
    (t0 t1 t : TimeStamp) (annotation : SampleAnnotationInfo.t) : Box.t :=
  match prevInstanceMap !! SampleAnnotationInfo.instanceToken annotation with
  | None => makeBox annotation
  | Some prevAnnotation =>
      let amount := interpolationAmount t0 t1 t in
      let c0 :=
        mkVector3d
          (static_cast_double (f3_0 (SampleAnnotationInfo.translation prevAnnotation)))
          (static_cast_double (f3_1 (SampleAnnotationInfo.translation prevAnnotation)))
          (static_cast_double (f3_2 (SampleAnnotationInfo.translation prevAnnotation))) in
      let c1 :=
        mkVector3d
          (static_cast_double (f3_0 (SampleAnnotationInfo.translation annotation)))
          (static_cast_double (f3_1 (SampleAnnotationInfo.translation annotation)))
          (static_cast_double (f3_2 (SampleAnnotationInfo.translation annotation))) in
      let center := lerp amount c1 c0 in
      let q0 := makeQuaterniond (SampleAnnotationInfo.rotation prevAnnotation) in
      let q1 := makeQuaterniond (SampleAnnotationInfo.rotation annotation) in
      let rotation := slerp amount q0 q1 in
      makeBox3 annotation center rotation
  end.

(** [SceneConverter::getBoxes]. The vector [boxes] is passed by reference
    in the source; here it is taken and returned. *)
Definition getBoxes (sc : SceneConverter) (sampleData : SampleDataInfo.t)
    (boxes : list Box.t) : Cout (list Box.t) :=
  let currSampleToken := SampleDataInfo.sampleToken sampleData in
  match sceneSamples sc !! currSampleToken with
  | None =>
      cout "can't find current sample token in sceneSamples" ;;; ret boxes
  | Some currSample =>
      if (SampleDataInfo.isKeyFrame sampleData
          || bool_decide (SampleInfo.prev currSample = ""%string))%bool
      then
        match sceneAnnotations sc !! currSampleToken with
        | None =>
            cout "can't find current sample token in sceneAnnotations" ;;;
            ret boxes
        | Some annotations =>
            ret (fold_left (fun bs annotation => bs ++ [makeBox annotation])
                   annotations boxes)
        end
      else
        match sceneSamples sc !! SampleInfo.prev currSample with
        | None =>
            cout "can't find prev sample token in sceneSamples" ;;; ret boxes
        | Some prevSample =>
            match sceneAnnotations sc !! currSampleToken with
            | None =>
                cout "can't find current sample token in sceneAnnotations" ;;;
                ret boxes
            | Some currAnnotations =>
                match sceneAnnotations sc !! SampleInfo.token prevSample with
                | None =>
                    cout "can't find previous sample token in sceneAnnotations" ;;;
                    ret boxes
                | Some prevAnnotations =>
                    let prevInstanceMap := makePrevInstanceMap prevAnnotations in
                    let t0 := SampleInfo.timeStamp prevSample in
                    let t1 := SampleInfo.timeStamp currSample in
                    let t := clampStamp t0 t1 (SampleDataInfo.timeStamp sampleData) in
                    ret (fold_left
                           (fun bs annotation =>
                              bs ++ [interpolatedBox prevInstanceMap t0 t1 t annotation])
                           currAnnotations boxes)
                end
            end
        end
  end.

End Boxes.

(* ===================================================================== *)
(** * Markers and the annotation messages *)
(* ===================================================================== *)

(** [unsigned int] to [int32_t]. *)
Definition u32_to_int32 (n : Z) : Z :=
  if n <? 2 ^ 31 then n else n - 2 ^ 32.

(** [id++] on an [unsigned int]. *)
Definition u32_succ (n : Z) : Z := (n + 1) mod 2 ^ 32.

Inductive MarkerType : Type := LINE_LIST.
Inductive MarkerAction : Type := ADD.

(** [ros::Duration], kept as the number of seconds it is built from. *)
Definition Duration : Type := double.

Section Messages.

(** [ros::Time] and [stampUs2RosTime] of utils.hpp. *)
Variable RosTime : Type.
Variable stampUs2RosTime : TimeStamp -> RosTime.

(** The product of an [Eigen::Affine3d], given by its translation and its
    rotation, with a point. *)
Variable affineApply : Vector3d -> Quaterniond -> Vector3d -> Vector3d.

Variable slerp : double -> Quaterniond -> Quaterniond -> Quaterniond.

(** [MetaDataProvider::getCalibratedSensorInfo] followed by
    [getSensorName] and [toLower]: the lower-cased name of the sensor of a
    calibrated-sensor token. *)
Variable sensorNameOf : Token -> string.

Record Header : Type := mkHeader { stamp : RosTime; frame_id : string }.

Record Marker : Type := mkMarker {
  marker_type : MarkerType;
  marker_action : MarkerAction;
  marker_header : Header;
  marker_ns : string;
  marker_id : Z;
  marker_lifetime : Duration;
  marker_position : Vector3d;
  marker_orientation : Quaterniond;
  marker_scale : Vector3d;
  marker_color : ColorRGBA;
  marker_points : list Vector3d;
  marker_colors : list ColorRGBA
}.

Record Boxes : Type := mkBoxes { boxes_header : Header; boxes_boxes : list Box.t }.

Definition makePointMsg (point : Vector3d) : Vector3d :=
  mkVector3d (vx point) (vy point) (vz point).

(** [makeMarkerMsg]. *)
Definition makeMarkerMsg (box : Box.t) (id : Z) (timestamp : RosTime)
    (lifetime : Duration) : Marker :=
  let lineWidth := dlit 1 10 in
  let pose :=
    affineApply
      (mkVector3d (vx (Box.center box)) (vy (Box.center box)) (vz (Box.center box)))
      (mkQuaterniond (qw (Box.orientation box)) (qx (Box.orientation box))
                     (qy (Box.orientation box)) (qz (Box.orientation box))) in
  let width := vx (Box.size box) in
  let depth := vy (Box.size box) in
  let height := vz (Box.size box) in
  let minPoint :=
    mkVector3d (ddiv (dneg depth) d_two) (ddiv (dneg width) d_two)
               (ddiv (dneg height) d_two) in
  let maxPoint :=
    mkVector3d (ddiv depth d_two) (ddiv width d_two) (ddiv height d_two) in
  let p1 := pose (mkVector3d (vx minPoint) (vy minPoint) (vz minPoint)) in
  let p2 := pose (mkVector3d (vx minPoint) (vy minPoint) (vz maxPoint)) in
  let p3 := pose (mkVector3d (vx maxPoint) (vy minPoint) (vz maxPoint)) in
  let p4 := pose (mkVector3d (vx maxPoint) (vy minPoint) (vz minPoint)) in
  let p5 := pose (mkVector3d (vx minPoint) (vy maxPoint) (vz minPoint)) in
  let p6 := pose (mkVector3d (vx minPoint) (vy maxPoint) (vz maxPoint)) in
  let p7 := pose (mkVector3d (vx maxPoint) (vy maxPoint) (vz maxPoint)) in
  let p8 := pose (mkVector3d (vx maxPoint) (vy maxPoint) (vz minPoint)) in
  let color := Box.color box in
  mkMarker LINE_LIST ADD (mkHeader timestamp "map") "annotations" id lifetime
    (mkVector3d d_zero d_zero d_zero)
    (mkQuaterniond d_one d_zero d_zero d_zero)
    (mkVector3d lineWidth d_zero d_zero)
    color
    (map makePointMsg
       [p1; p2; p1; p4; p1; p5; p5; p6; p5; p8; p2; p6;
        p6; p7; p7; p8; p2; p3; p4; p8; p3; p4; p3; p7])
    [color; color; color; color; color; color; color; color;
     color; color; color; color; color; color; color; color;
     color; color; color; color; color; color; color; color].

(** [makeMarkerArrayMsg]: the markers and the running identifier. *)
Definition makeMarkerArrayMsg (boxes : list Box.t) (timestamp : RosTime)
    (lifetime : Duration) : list Marker :=
  fst (fold_left
         (fun '(markers, id) box =>
            (markers ++ [makeMarkerMsg box (u32_to_int32 id) timestamp lifetime],
             u32_succ id))
         boxes ([], 0)).

(** What [rosbag::Bag::write] receives. *)
Inductive Message : Type :=
  | BoxesMessage (msg : Boxes)
  | MarkerArrayMessage (markers : list Marker).

Record BagEntry : Type :=
  mkBagEntry { entry_topic : string; entry_time : RosTime; entry_msg : Message }.

(** [outBag.write(topic, time, msg)]. *)
Definition write (outBag : list BagEntry) (topic : string) (time : RosTime)
    (msg : Message) : list BagEntry :=
  outBag ++ [mkBagEntry topic time msg].

(** The body of the loop of [convertAnnotations]. *)
Definition convertAnnotation (sc : SceneConverter)
    (sampleData : SampleDataInfo.t) (outBag : list BagEntry)
    : Cout (list BagEntry) :=
  sampleTypeOpt <- getSampleType (SampleDataInfo.fileName sampleData) ;;
  match sampleTypeOpt with
  | None => ret outBag
  | Some sampleType =>
      let sensorName :=
        sensorNameOf (SampleDataInfo.calibratedSensorToken sampleData) in
      if decide (sampleType = LIDAR) then
        boxes <- getBoxes slerp sc sampleData [] ;;
        let timestamp := stampUs2RosTime (SampleDataInfo.timeStamp sampleData) in
        let boxesMsg := mkBoxes (mkHeader timestamp "map") boxes in
        let outBag := write outBag "boxes" timestamp (BoxesMessage boxesMsg) in
        let lifetime := ddiv d_one (int_to_double 25) in
        let boxesVizMsg := makeMarkerArrayMsg boxes timestamp lifetime in
        ret (write outBag "boxes_viz" timestamp (MarkerArrayMessage boxesVizMsg))
      else ret outBag
  end.

(** A range-for whose body may print. *)
Fixpoint forEach {A S : Type} (l : list A) (body : A -> S -> Cout S) (s : S)
    : Cout S :=
  match l with
  | [] => ret s
  | x :: l' => s' <- body x s ;; forEach l' body s'
  end.

(** [SceneConverter::convertAnnotations]. *)
Definition convertAnnotations (sc : SceneConverter) (outBag : list BagEntry)
    : Cout (list BagEntry) :=
  forEach (sampleDatas sc) (convertAnnotation sc) outBag.

(** The line segments of a [LINE_LIST] marker: its points taken two by
    two. *)
Fixpoint segments (points : list Vector3d) : list (Vector3d * Vector3d) :=
  match points with
  | p :: q :: rest => (p, q) :: segments rest
  | _ => []
  end.

End Messages.

(* ===================================================================== *)
(** * The decode pipeline of [NuScenes2Rosbag::processSampleSets] *)
(* ===================================================================== *)

Record FileSystemSampleSet : Type := mkSampleSet {
  directoryName : string;
  setType : SampleType;
  directoryPath : string
}.

Abbreviation TopicInfo := string.

(** How a piece of C++ ends: it returns, it throws, or it runs into
    undefined behaviour. *)
Inductive Outcome (A : Type) : Type :=
  | Returned (a : A)
  | Thrown (what : string)
  | UndefinedBehaviour.
Arguments Returned {A} a.
Arguments Thrown {A} what.
Arguments UndefinedBehaviour {A}.

(** A [MsgDirectoryConverter]: the producer end of the queue it fills,
    named by the rank of the queue in creation order, and its directory. *)
Record Converter : Type := mkConverter {
  converter_queue : nat;
  converter_directory : string
}.

(** The two vectors built by the first loop of [processSampleSets]; a
    queue is named by its rank in creation order. *)
Record Setup : Type := mkSetup {
  typeErasedQueueList : list (TopicInfo * nat);
  sampleSetConverters : list Converter
}.

Section Pipeline.

(** [topicNameForSampleSetType] of utils.hpp. *)
Variable topicNameForSampleSetType : string -> SampleType -> string.

(** One turn of the loop over [sampleSets]. *)
Definition addSampleSet (st : Setup) (sampleSet : FileSystemSampleSet)
    : Outcome Setup :=
  let queue := length (typeErasedQueueList st) in
  let queues :=
    typeErasedQueueList st ++
    [(topicNameForSampleSetType (directoryName sampleSet) (setType sampleSet),
      queue)] in
  if decide (setType sampleSet = CAMERA) then
    Returned (mkSetup queues
                (sampleSetConverters st ++
                 [mkConverter queue (directoryPath sampleSet)]))
  else Thrown "Not supported SampleSetType".

Fixpoint addSampleSets (sampleSets : list FileSystemSampleSet) (st : Setup)
    : Outcome Setup :=
  match sampleSets with
  | [] => Returned st
  | sampleSet :: rest =>
      match addSampleSet st sampleSet with
      | Returned st' => addSampleSets rest st'
      | Thrown what => Thrown what
      | UndefinedBehaviour => UndefinedBehaviour
      end
  end.

(** The set-up part of [processSampleSets]: the first loop, then the one
    call of [boost::asio::post] that follows it. The result holds the two
    vectors and the tasks handed to the pool. [back()] of an empty vector
    is undefined. *)
Definition submitTasks (sampleSets : list FileSystemSampleSet)
    : Outcome (Setup * list Converter) :=
  match addSampleSets sampleSets (mkSetup [] []) with
  | Returned st =>
      match last (sampleSetConverters st) with
      | Some converter => Returned (st, [converter])
      | None => UndefinedBehaviour
      end
  | Thrown what => Thrown what
  | UndefinedBehaviour => UndefinedBehaviour
  end.

End Pipeline.

Section Drain.

(** The payload type of the queues. *)
Variable Msg : Type.

(** What the producer of one queue does, as seen by the drain loop: the
    messages it pushes, in order; how many of them are in by each instant
    of the drain loop's clock; and whether the queue has been closed by
    that instant. *)
Record History : Type := mkHistory {
  produced : list Msg;
  pushedBy : nat -> nat;
  closedBy : nat -> bool
}.

(** The history of every queue, by rank. *)
Variable env : nat -> History.

(** The state of the drain loop: its clock, which advances at every access
    to a queue; the number of messages already popped from each queue; and
    what [MyProcessor] has been handed, oldest first. *)
Record DrainState : Type := mkDrainState {
  clock : nat;
  consumed : gmap nat nat;
  written : list (TopicInfo * Msg);
  printed : list string
}.

Definition consumedOf (st : DrainState) (queue : nat) : nat :=
  default 0%nat (consumed st !! queue).

Definition tick (st : DrainState) : DrainState :=
  mkDrainState (S (clock st)) (consumed st) (written st) (printed st).

(** Modelled from the spec: [TypeErasedQueue::isClosed] of SampleQueue.hpp,
    which is not among the sources. A queue is marked closed once its
    producer has finished. *)
Definition isClosed (queue : nat) (st : DrainState) : bool :=
  closedBy (env queue) (clock st).

(** Modelled from the spec: [TypeErasedQueue::size] of SampleQueue.hpp, the
    number of messages pushed and not yet popped. *)
Definition queue_size (queue : nat) (st : DrainState) : nat :=
  (pushedBy (env queue) (clock st) - consumedOf st queue)%nat.

(** Modelled from the spec: [TypeErasedQueue::process] of SampleQueue.hpp:
    pop as many ready items as available and forward each to the output
    writer tagged with its topic. *)
Definition process (topicInfo : TopicInfo) (queue : nat) (st : DrainState)
    : DrainState :=
  let avail := pushedBy (env queue) (clock st) in
  let ready := drop (consumedOf st queue) (take avail (produced (env queue))) in
  mkDrainState (S (clock st))
    (<[queue := Nat.max (consumedOf st queue) avail]> (consumed st))
    (written st ++ map (pair topicInfo) ready)
    (printed st).

(** The body of the range-for of the drain loop, for one queue: the test
    [!queue.isClosed() || (queue.size() > 0)], evaluated left to right,
    and the branch it guards. *)
Definition visit (acc : bool * DrainState) (entry : TopicInfo * nat)
    : bool * DrainState :=
  let '(atLeastOneQueueIsStillOpen, st) := acc in
  let '(topicInfo, queue) := entry in
  if negb (isClosed queue st) then (true, process topicInfo queue (tick st))
  else if (0 <? queue_size queue (tick st))%nat
       then (true, process topicInfo queue (tick (tick st)))
       else (atLeastOneQueueIsStillOpen, tick (tick st)).

(** The [while (true)] loop; [None] when [fuel] turns of it do not reach
    the [break]. *)
Fixpoint drainLoop (fuel : nat) (queues : list (TopicInfo * nat))
    (st : DrainState) : option DrainState :=
  match fuel with
  | O => None
  | S fuel' =>
      let '(atLeastOneQueueIsStillOpen, st') :=
        fold_left visit queues (false, st) in
      if negb atLeastOneQueueIsStillOpen
      then Some (mkDrainState (clock st') (consumed st') (written st')
                   (printed st' ++ ["completed all queue"%string]))
      else drainLoop fuel' queues st'
  end.

Definition drainStart : DrainState := mkDrainState 0 ∅ [] [].

(** The producers behave: pushes and closing are never undone, no more is
    pushed than is produced, and a closed queue has received everything. *)
Record wellFormed (h : History) : Prop := mkWellFormed {
  pushed_mono : forall n m, (n <= m)%nat -> (pushedBy h n <= pushedBy h m)%nat;
  pushed_bound : forall n, (pushedBy h n <= length (produced h))%nat;
  closed_mono : forall n m, (n <= m)%nat -> closedBy h n = true -> closedBy h m = true;
  closed_full : forall n, closedBy h n = true -> pushedBy h n = length (produced h)
}.

(** What has been popped so far, queue by queue in the order of the list,
    tagged with the topic of its queue. *)
Definition takenBy (count : nat -> nat) (queues : list (TopicInfo * nat))
    : list (TopicInfo * Msg) :=
  concat (map (fun entry : TopicInfo * nat =>
                 map (pair (fst entry))
                     (take (count (snd entry)) (produced (env (snd entry)))))
            queues).

(** The invariant of the drain loop: nothing is popped before it is
    pushed, and the writer has received exactly what has been popped. *)
Definition drainInvariant (queues : list (TopicInfo * nat)) (st : DrainState)
    : Prop :=
  (forall queue, (consumedOf st queue <= pushedBy (env queue) (clock st))%nat) /\
  written st ≡ₚ takenBy (consumedOf st) queues.

(** Everything the producers push, tagged with the topic of its queue. *)
Definition allProduced (queues : list (TopicInfo * nat)) : list (TopicInfo * Msg) :=
  concat (map (fun entry : TopicInfo * nat =>
                 map (pair (fst entry)) (produced (env (snd entry))))
            queues).

End Drain.

Arguments produced {Msg} _.
Arguments pushedBy {Msg} _ _.
Arguments closedBy {Msg} _ _.
Arguments clock {Msg} _.
Arguments consumed {Msg} _.
Arguments written {Msg} _.
Arguments printed {Msg} _.
Arguments consumedOf {Msg} st queue.
Arguments tick {Msg} st.
Arguments isClosed {Msg} env queue st.
Arguments queue_size {Msg} env queue st.
Arguments process {Msg} env topicInfo queue st.
Arguments visit {Msg} env acc entry.
Arguments drainLoop {Msg} env fuel queues st.
Arguments drainStart {Msg}.
Arguments wellFormed {Msg} h.
Arguments pushed_mono {Msg h} _ n m _.
Arguments pushed_bound {Msg h} _ n.
Arguments closed_mono {Msg h} _ n m _ _.
Arguments closed_full {Msg h} _ n _.
Arguments takenBy {Msg} env count queues.
Arguments drainInvariant {Msg} env queues st.
Arguments allProduced {Msg} env queues.

(* ===================================================================== *)
(** * What the specification says, in its own words *)
(* ===================================================================== *)

(** [sub] occurs in [s] as a substring. *)
Definition occurs (sub s : string) : Prop :=
  exists pre post : string, s = String.append pre (String.append sub post).

(** [sub] occurs in [s] when the case of letters is disregarded. *)
Definition occursAnyCase (sub s : string) : Prop :=
  occurs (toUpper sub) (toUpper s).

(** The colour rules as the specification lists them: groups of keywords,
    in order, with the colour of each group. *)
Definition colorRules : list (list string * ColorRGBA) :=
  [ (["bicycle"; "motorcycle"]%string, red);
    (["vehicle"; "bus"; "car"; "construction_vehicle"; "trailer"; "truck"]%string,
     orange);
    (["pedestrian"]%string, blue);
    (["cone"; "barrier"]%string, black) ].

(** The colour of the first rule one of whose keywords occurs in the
    category name, magenta when there is none. *)
Fixpoint firstRule (categoryName : string)
    (rules : list (list string * ColorRGBA)) : ColorRGBA :=
  match rules with
  | [] => magenta
  | (keywords, colour) :: rest =>
      if existsb (stringContains categoryName) keywords then colour
      else firstRule categoryName rest
  end.

(** The translation of an annotation as an [Eigen::Vector3d]. *)
Definition translationVector (annotation : SampleAnnotationInfo.t) : Vector3d :=
  mkVector3d
    (static_cast_double (f3_0 (SampleAnnotationInfo.translation annotation)))
    (static_cast_double (f3_1 (SampleAnnotationInfo.translation annotation)))
    (static_cast_double (f3_2 (SampleAnnotationInfo.translation annotation))).

(** The box the specification asks for, for a given interpolation
    fraction: the current annotation's own box when its instance is not in
    the previous map, otherwise the current annotation's box with the
    centre and the orientation interpolated from the previous annotation
    to the current one. *)
Definition boxAtAmount
    (slerp : double -> Quaterniond -> Quaterniond -> Quaterniond)
    (prevInstanceMap : gmap string SampleAnnotationInfo.t)
    (amount : double) (annotation : SampleAnnotationInfo.t) : Box.t :=
  match prevInstanceMap !! SampleAnnotationInfo.instanceToken annotation with
  | None => makeBox annotation
  | Some prevAnnotation =>
      makeBox3 annotation
        (lerp amount (translationVector annotation)
           (translationVector prevAnnotation))
        (slerp amount
           (makeQuaterniond (SampleAnnotationInfo.rotation prevAnnotation))
           (makeQuaterniond (SampleAnnotationInfo.rotation annotation)))
  end.

(** One of the look-ups that [getBoxes] performs for this sample data
    fails: the sample of the sample data, its annotation list, or, for a
    sample data that is not a key frame and whose sample has a previous
    sample, that previous sample or its annotation list. *)
Definition lookupFails (sc : SceneConverter) (sampleData : SampleDataInfo.t)
    : Prop :=
  match sceneSamples sc !! SampleDataInfo.sampleToken sampleData with
  | None => True
  | Some currSample =>
      sceneAnnotations sc !! SampleDataInfo.sampleToken sampleData = None \/
      (SampleDataInfo.isKeyFrame sampleData = false /\
       SampleInfo.prev currSample <> ""%string /\
       match sceneSamples sc !! SampleInfo.prev currSample with
       | None => True
       | Some prevSample =>
           sceneAnnotations sc !! SampleInfo.token prevSample = None
       end)
  end.

(** The lines that [getBoxes] may print. *)
Definition diagnostics : list string :=
  [ "can't find current sample token in sceneSamples";
    "can't find current sample token in sceneAnnotations";
    "can't find prev sample token in sceneSamples";
    "can't find previous sample token in sceneAnnotations" ]%string.

Section Statements.

Variable RosTime : Type.
Variable stampUs2RosTime : TimeStamp -> RosTime.
Variable affineApply : Vector3d -> Quaterniond -> Vector3d -> Vector3d.
Variable slerp : double -> Quaterniond -> Quaterniond -> Quaterniond.

(** What one sample data contributes to the bag according to the amended
    C5: the box list and the marker list when its file name classifies as
    LIDAR, nothing otherwise. *)
Definition annotationEntries (sc : SceneConverter)
    (sampleData : SampleDataInfo.t) : list (BagEntry RosTime) :=
  match fst (getSampleType (SampleDataInfo.fileName sampleData)) with
  | Some LIDAR =>
      let boxes := fst (getBoxes slerp sc sampleData []) in
      let timestamp := stampUs2RosTime (SampleDataInfo.timeStamp sampleData) in
      [ mkBagEntry RosTime "boxes" timestamp
          (BoxesMessage RosTime (mkBoxes RosTime (mkHeader RosTime timestamp "map") boxes));
        mkBagEntry RosTime "boxes_viz" timestamp
          (MarkerArrayMessage RosTime
             (makeMarkerArrayMsg RosTime affineApply boxes timestamp
                (ddiv d_one (int_to_double 25)))) ]
  | _ => []
  end.

End Statements.

(* ===================================================================== *)
(** * A small scene, used to exercise the theorems *)
(* ===================================================================== *)

Definition f3 (x y z : Z) : float3 :=
  mkFloat3 (int_to_double x) (int_to_double y) (int_to_double z).

Definition unitRotation : float4 :=
  mkFloat4 (int_to_double 1) (int_to_double 0) (int_to_double 0)
           (int_to_double 0).

Definition carBefore : SampleAnnotationInfo.t :=
  SampleAnnotationInfo.mk "a0" "car1" (f3 10 20 0) (f3 2 4 1) unitRotation
    "vehicle.car".

Definition carNow : SampleAnnotationInfo.t :=
  SampleAnnotationInfo.mk "a1" "car1" (f3 12 24 0) (f3 2 4 1) unitRotation
    "vehicle.car".

Definition walkerNow : SampleAnnotationInfo.t :=
  SampleAnnotationInfo.mk "a2" "walker1" (f3 5 5 0) (f3 1 1 2) unitRotation
    "human.pedestrian.adult".

Definition sampleBefore : SampleInfo.t := SampleInfo.mk "s0" 100 "".
Definition sampleNow : SampleInfo.t := SampleInfo.mk "s1" 200 "s0".

Definition smallScene : SceneConverter :=
  mkSceneConverter
    (<["s0"%string := sampleBefore]> (<["s1"%string := sampleNow]> ∅))
    (<["s0"%string := [carBefore]]> (<["s1"%string := [carNow; walkerNow]]> ∅))
    [].

Definition keyFrameData : SampleDataInfo.t :=
  SampleDataInfo.mk "d1" "s1" 200 "samples/LIDAR_TOP/k.pcd.bin" true "cs1".

Definition sweepData : SampleDataInfo.t :=
  SampleDataInfo.mk "d2" "s1" 150 "sweeps/LIDAR_TOP/w.pcd.bin" false "cs1".

Definition earlySweepData : SampleDataInfo.t :=
  SampleDataInfo.mk "d3" "s1" 50 "sweeps/LIDAR_TOP/e.pcd.bin" false "cs1".

Definition cameraData : SampleDataInfo.t :=
  SampleDataInfo.mk "d4" "s1" 200 "samples/CAM_FRONT/c.jpg" true "cs2".

Definition firstSweepData : SampleDataInfo.t :=
  SampleDataInfo.mk "d6" "s0" 120 "sweeps/LIDAR_TOP/f.pcd.bin" false "cs1".

Definition orphanData : SampleDataInfo.t :=
  SampleDataInfo.mk "d5" "s9" 200 "samples/LIDAR_TOP/o.pcd.bin" true "cs1".

(** A scene whose current sample names a previous sample that is not in
    the sample map. *)
Definition danglingScene : SceneConverter :=
  mkSceneConverter
    (<["s1"%string := sampleNow]> ∅)
    (<["s1"%string := [carNow]]> ∅)
    [cameraData].

(** A scene whose previous sample is in the sample map but has no
    annotation list in the annotation map. *)
Definition unannotatedScene : SceneConverter :=
  mkSceneConverter
    (<["s0"%string := sampleBefore]> (<["s1"%string := sampleNow]> ∅))
    (<["s1"%string := [carNow; walkerNow]]> ∅)
    [].

(** An interpolation of orientations to instantiate the Eigen function
    with where a concrete scene is evaluated: it keeps the first
    orientation. *)
Definition keepFirst (amount : double) (q0 q1 : Quaterniond) : Quaterniond := q0.

(** Stand-ins for the functions of ROS and Eigen, to evaluate a concrete
    scene with: time stamps are kept as they are and a pose leaves a point
    where it is. *)
Definition keepStamp (timeStamp : TimeStamp) : Z := timeStamp.
Definition keepPoint (translation : Vector3d) (rotation : Quaterniond)
    (point : Vector3d) : Vector3d := point.
Definition noName (calibratedSensorToken : Token) : string := ""%string.

Definition frontCameraSet : FileSystemSampleSet :=
  mkSampleSet "CAM_FRONT" CAMERA "/data/samples/CAM_FRONT".
Definition backCameraSet : FileSystemSampleSet :=
  mkSampleSet "CAM_BACK" CAMERA "/data/samples/CAM_BACK".

(** Two producers: the first pushes two messages, one per instant, and
    closes its queue at instant 3; the second pushes one message and closes
    at instant 2. Every other queue is closed from the start. *)
Definition frontHistory : History nat :=
  mkHistory nat [10; 11]%nat (fun n => Nat.min n 2) (fun n => Nat.leb 3 n).
Definition backHistory : History nat :=
  mkHistory nat [20]%nat (fun n => Nat.min n 1) (fun n => Nat.leb 2 n).
Definition idleHistory : History nat :=
  mkHistory nat [] (fun _ => 0%nat) (fun _ => true).

Definition twoProducers (queue : nat) : History nat :=
  match queue with
  | O => frontHistory
  | S O => backHistory
  | _ => idleHistory
  end.

Definition twoQueues : list (TopicInfo * nat) :=
  [("cam_front/raw"%string, 0%nat); ("cam_back/raw"%string, 1%nat)].

(* ===================================================================== *)
(** * Ego poses and transforms *)
(* ===================================================================== *)

(** A C array of three, respectively four, [double]s. *)
Record double3 : Type := mkDouble3 { d3_0 : double; d3_1 : double; d3_2 : double }.
Record double4 : Type :=
  mkDouble4 { d4_0 : double; d4_1 : double; d4_2 : double; d4_3 : double }.

Module CalibratedSensorInfo.
Record t : Type := mk {
  token : Token;
  sensorToken : Token;
  translation : double3;
  rotation : double4
}.
End CalibratedSensorInfo.

(** [CalibratedSensorInfoAndName]; [name] stands for [name.name]. *)
Module CalibratedSensorInfoAndName.
Record t : Type := mk {
  info : CalibratedSensorInfo.t;
  name : string
}.
End CalibratedSensorInfoAndName.

Section EgoPoses.

Variable RosTime : Type.

(** [ros::Time(0)], the default stamp of [makeTransform]. *)
Variable timeZero : RosTime.

(** [assignArray2Vector3] and [assignArray2Quaternion] of utils.hpp, as
    functions of the array they read. *)
Variable assignArray2Vector3 : double3 -> Vector3d.
Variable assignArray2Quaternion : double4 -> Quaterniond.

(** [toLower] of utils.hpp. *)
Variable toLower : string -> string.

(** [EgoPoseInfo], [nav_msgs::Odometry] and the two conversions of
    EgoPoseConverter.hpp; [odometryStamp] reads [header.stamp]. *)
Variable EgoPoseInfo : Type.
Variable Odometry : Type.
Variable odometryStamp : Odometry -> RosTime.
Variable egoPoseInfo2OdometryMsg : EgoPoseInfo -> Odometry.

Record TransformStamped : Type := mkTransformStamped {
  transform_header : Header RosTime;
  child_frame_id : string;
  transform_translation : Vector3d;
  transform_rotation : Quaterniond
}.

Variable egoPoseInfo2TransformStamped : EgoPoseInfo -> TransformStamped.

(** [makeTransform]. *)
Definition makeTransform (frame_id child_frame_id : string)
    (translation : double3) (rotation : double4) (stamp : RosTime)
    : TransformStamped :=
  mkTransformStamped (mkHeader RosTime stamp frame_id) child_frame_id
    (assignArray2Vector3 translation) (assignArray2Quaternion rotation).

(** [makeIdentityTransform]: only [rotation.w] is assigned, the other
    numbers keep the zero of a fresh message. *)
Definition makeIdentityTransform (frame_id child_frame_id : string)
    (stamp : RosTime) : TransformStamped :=
  mkTransformStamped (mkHeader RosTime stamp frame_id) child_frame_id
    (mkVector3d d_zero d_zero d_zero)
    (mkQuaterniond d_one d_zero d_zero d_zero).

(** [constantTransformWithNewStamp]: a copy with another stamp. *)
Definition withStamp (transform : TransformStamped) (stamp : RosTime)
    : TransformStamped :=
  mkTransformStamped
    (mkHeader RosTime stamp (frame_id RosTime (transform_header transform)))
    (child_frame_id transform)
    (transform_translation transform)
    (transform_rotation transform).

Inductive EgoMessage : Type :=
  | OdometryMessage (msg : Odometry)
  | TfMessage (transforms : list TransformStamped).

Record EgoEntry : Type :=
  mkEgoEntry { ego_topic : string; ego_time : RosTime; ego_msg : EgoMessage }.

(** The first loop of [convertEgoPoseInfos] and the [push_back] that
    follows it. *)
Definition makeConstantTransforms
    (calibratedSensorInfos : list CalibratedSensorInfoAndName.t)
    : list TransformStamped :=
  fold_left
    (fun constantTransforms calibratedSensorInfo =>
       constantTransforms ++
       [makeTransform "base_link"
          (toLower (CalibratedSensorInfoAndName.name calibratedSensorInfo))
          (CalibratedSensorInfo.translation
             (CalibratedSensorInfoAndName.info calibratedSensorInfo))
          (CalibratedSensorInfo.rotation
             (CalibratedSensorInfoAndName.info calibratedSensorInfo))
          timeZero])
    calibratedSensorInfos []
  ++ [makeIdentityTransform "map" "odom" timeZero].

(** The body of the loop over the ego poses. *)
Definition convertEgoPose (constantTransforms : list TransformStamped)
    (outBag : list EgoEntry) (egoPose : EgoPoseInfo) : list EgoEntry :=
  let odomMsg := egoPoseInfo2OdometryMsg egoPose in
  let outBag :=
    outBag ++ [mkEgoEntry "/odom" (odometryStamp odomMsg) (OdometryMessage odomMsg)] in
  let tfOdom2Base := egoPoseInfo2TransformStamped egoPose in
  let transforms :=
    fold_left
      (fun transforms constantTransform =>
         transforms ++ [withStamp constantTransform (odometryStamp odomMsg)])
      constantTransforms [tfOdom2Base] in
  outBag ++ [mkEgoEntry "/tf" (odometryStamp odomMsg) (TfMessage transforms)].

(** [SceneConverter::convertEgoPoseInfos]; the member [egoPoseInfos] is
    passed as an argument. *)
Definition convertEgoPoseInfos (outBag : list EgoEntry)
    (calibratedSensorInfos : list CalibratedSensorInfoAndName.t)
    (egoPoseInfos : list EgoPoseInfo) : list EgoEntry :=
  fold_left (convertEgoPose (makeConstantTransforms calibratedSensorInfos))
    egoPoseInfos outBag.

End EgoPoses.

(* ===================================================================== *)
(** * Sample data files *)
(* ===================================================================== *)

(** [path::is_absolute] on a POSIX path: it starts with a slash. *)
Definition is_absolute (path : string) : bool := starts_with "/" path.

Fixpoint ends_with_slash (path : string) : bool :=
  match path with
  | EmptyString => false
  | String c EmptyString => Ascii.eqb c slash
  | String _ rest => ends_with_slash rest
  end.

(** [operator/] of [std::filesystem::path] on POSIX paths: an absolute
    right-hand side replaces the path; otherwise it is appended, after a
    separator when the left-hand side ends in a file name. *)
Definition pathAppend (path other : string) : string :=
  if is_absolute other then other
  else match path with
       | EmptyString => other
       | _ => if ends_with_slash path then String.append path other
              else String.append path (String slash other)
       end.

Section SampleDatas.

Variable RosTime : Type.
Variable stampUs2RosTime : TimeStamp -> RosTime.
Variable sensorNameOf : Token -> string.

(** The bodies of the three message types, and the three readers of the
    directory converters. *)
Variable Image : Type.
Variable PointCloud2 : Type.
Variable RadarObjects : Type.

(** A ROS message with a header. *)
Record Stamped (Body : Type) : Type := mkStamped {
  msg_header : Header RosTime;
  msg_body : Body
}.

Variable readImageFile : string -> option (Stamped Image).
Variable readLidarFile : string -> option (Stamped PointCloud2).
Variable readRadarFile : string -> option (Stamped RadarObjects).

Inductive SensorMessage : Type :=
  | ImageMessage (msg : Stamped Image)
  | LidarMessage (msg : Stamped PointCloud2)
  | RadarMessage (msg : Stamped RadarObjects).

Record SensorEntry : Type := mkSensorEntry {
  sensor_topic : string;
  sensor_time : RosTime;
  sensor_msg : SensorMessage
}.

(** [writeMsg]: an absent message writes nothing; a present one gets the
    frame and the stamp, then is written at that stamp. [wrap] stands for
    the message type the template is instantiated at. *)
Definition writeMsg {Body : Type} (wrap : Stamped Body -> SensorMessage)
    (topicName frameID : string) (timeStamp : TimeStamp)
    (outBag : list SensorEntry) (msgOpt : option (Stamped Body))
    : list SensorEntry :=
  match msgOpt with
  | Some msg =>
      let msg :=
        mkStamped Body (mkHeader RosTime (stampUs2RosTime timeStamp) frameID)
          (msg_body Body msg) in
      outBag ++
      [mkSensorEntry topicName (stamp RosTime (msg_header Body msg)) (wrap msg)]
  | None => outBag
  end.

(** The body of the loop of [convertSampleDatas] (C++17 variant). The
    state is the bag and the number of files reported to [FileProgress]
    by [addToProcessed]. *)
Definition convertSampleData (inPath : string)
    (sampleData : SampleDataInfo.t) (state : list SensorEntry * nat)
    : Cout (list SensorEntry * nat) :=
  let '(outBag, processed) := state in
  let sampleFilePath := pathAppend inPath (SampleDataInfo.fileName sampleData) in
  sampleTypeOpt <- getSampleType sampleFilePath ;;
  match sampleTypeOpt with
  | None => ret (outBag, processed)
  | Some sampleType =>
      let sensorName :=
        sensorNameOf (SampleDataInfo.calibratedSensorToken sampleData) in
      let outBag :=
        match sampleType with
        | CAMERA =>
            let topicName := String.append sensorName "/raw" in
            let msg := readImageFile sampleFilePath in
            writeMsg ImageMessage topicName sensorName
              (SampleDataInfo.timeStamp sampleData) outBag msg
        | LIDAR =>
            let topicName := sensorName in
            let msg := readLidarFile sampleFilePath in
            writeMsg LidarMessage topicName sensorName
              (SampleDataInfo.timeStamp sampleData) outBag msg
        | RADAR =>
            let topicName := sensorName in
            let msg := readRadarFile sampleFilePath in
            writeMsg RadarMessage topicName sensorName
              (SampleDataInfo.timeStamp sampleData) outBag msg
        end in
      ret (outBag, (processed + 1)%nat)
  end.

(** [SceneConverter::convertSampleDatas]. *)
Definition convertSampleDatas (sc : SceneConverter) (inPath : string)
    (state : list SensorEntry * nat) : Cout (list SensorEntry * nat) :=
  forEach (sampleDatas sc) (convertSampleData inPath) state.

(** The header of the message of an entry. *)
Definition entryHeader (entry : SensorEntry) : Header RosTime :=
  match sensor_msg entry with
  | ImageMessage msg => msg_header Image msg
  | LidarMessage msg => msg_header PointCloud2 msg
  | RadarMessage msg => msg_header RadarObjects msg
  end.

(** What an entry written for a sample data looks like: its time and the
    stamp of its message are the timestamp of the sample data, its frame
    is the sensor name, and its topic is the sensor name, followed by
    "/raw" for an image. *)
Definition writtenFor (sampleData : SampleDataInfo.t) (entry : SensorEntry)
    : Prop :=
  let sensorName :=
    sensorNameOf (SampleDataInfo.calibratedSensorToken sampleData) in
  let time := stampUs2RosTime (SampleDataInfo.timeStamp sampleData) in
  sensor_time entry = time /\
  entryHeader entry = mkHeader RosTime time sensorName /\
  match sensor_msg entry with
  | ImageMessage _ => sensor_topic entry = String.append sensorName "/raw"
  | _ => sensor_topic entry = sensorName
  end.

End SampleDatas.

(* ===================================================================== *)
(** * Sample-set directories *)
(* ===================================================================== *)

(** An entry of a [directory_iterator]: its path and whether it is a
    directory. *)
Record DirectoryEntry : Type := mkDirectoryEntry {
  entry_path : string;
  entry_is_directory : bool
}.

(** The body of the loop of [getSampleSetsInDirectory]. *)
Definition addDirectory (dir : DirectoryEntry) (sets : list FileSystemSampleSet)
    : Cout (list FileSystemSampleSet) :=
  if entry_is_directory dir then
    let dirName := path_filename (entry_path dir) in
    sampleSetOpt <- extractSampleSetDescriptorInDirectory (entry_path dir) ;;
    match sampleSetOpt with
    | Some sampleType => ret (sets ++ [mkSampleSet dirName sampleType (entry_path dir)])
    | None => ret sets
    end
  else ret sets.

(** [NuScenes2Rosbag::getSampleSetsInDirectory], on the entries that the
    directory iterator yields. *)
Definition getSampleSetsInDirectory (entries : list DirectoryEntry)
    : Cout (list FileSystemSampleSet) :=
  forEach entries addDirectory [].

(** [NuScenes2Rosbag::filterChosenSampleSets]: [std::copy_if] with the
    test for a camera. *)
Definition filterChosenSampleSets (sampleSets : list FileSystemSampleSet)
    : list FileSystemSampleSet :=
  fold_left
    (fun filteredSets fileSystemSampleSet =>
       if decide (setType fileSystemSampleSet = CAMERA)
       then filteredSets ++ [fileSystemSampleSet]
       else filteredSets)
    sampleSets [].

(* ===================================================================== *)
(** * Notions used in the statements of the further properties *)
(* ===================================================================== *)

(** A [double] that is a number, zero included. *)
Definition is_finite (x : double) : bool :=
  match x with
  | S754_zero _ | S754_finite _ _ _ => true
  | _ => false
  end.

(** A well-formed finite [double] other than the negative zero. *)
Definition regular (x : double) : Prop :=
  valid_binary prec emax x = true /\ is_finite x = true /\ x <> S754_zero true.

Definition regularVector (v : Vector3d) : Prop :=
  regular (vx v) /\ regular (vy v) /\ regular (vz v).

(** A corner of a box in the frame of the box, by the side it lies on
    along each axis ([true]: the positive side): the half extents are
    half of [size.y] along x, of [size.x] along y and of [size.z] along
    z. *)
Definition boxCorner (box : Box.t) (corner : bool * bool * bool) : Vector3d :=
  let '(px, py, pz) := corner in
  let half (positive : bool) (extent : double) : double :=
    if positive then ddiv extent d_two else ddiv (dneg extent) d_two in
  mkVector3d (half px (vy (Box.size box)))
             (half py (vx (Box.size box)))
             (half pz (vz (Box.size box))).

(** The number of axes along which two corners lie on different sides. *)
Definition cornerDistance (c1 c2 : bool * bool * bool) : nat :=
  let '(x1, y1, z1) := c1 in
  let '(x2, y2, z2) := c2 in
  ((if Bool.eqb x1 x2 then 0 else 1) + (if Bool.eqb y1 y2 then 0 else 1) +
   (if Bool.eqb z1 z2 then 0 else 1))%nat.

(** An edge irrespective of its direction: the lower corner first, in the
    order of the binary numbers. *)
Definition cornerRank (c : bool * bool * bool) : nat :=
  let '(x, y, z) := c in
  ((if x then 4 else 0) + (if y then 2 else 0) + (if z then 1 else 0))%nat.

Definition undirected (edge : (bool * bool * bool) * (bool * bool * bool))
    : nat * nat :=
  let '(c1, c2) := edge in
  (Nat.min (cornerRank c1) (cornerRank c2), Nat.max (cornerRank c1) (cornerRank c2)).

(** The first annotation of a list that carries an instance token. *)
Fixpoint firstWithInstance (instance : string)
    (annotations : list SampleAnnotationInfo.t)
    : option SampleAnnotationInfo.t :=
  match annotations with
  | [] => None
  | annotation :: rest =>
      if decide (SampleAnnotationInfo.instanceToken annotation = instance)
      then Some annotation
      else firstWithInstance instance rest
  end.

(** The messages that the writer got on one topic, in the order in which
    it got them. *)
Definition writtenOn {Msg : Type} (topicInfo : TopicInfo)
    (entries : list (TopicInfo * Msg)) : list Msg :=
  map snd (List.filter (fun entry => bool_decide (fst entry = topicInfo)) entries).

(** On every topic the writer has got what has been popped from the queue
    of that topic, in the order of the queue. *)
Definition inQueueOrder {Msg : Type} (env : nat -> History Msg)
    (queues : list (TopicInfo * nat)) (st : DrainState Msg) : Prop :=
  forall topicInfo queue,
    In (topicInfo, queue) queues ->
    writtenOn topicInfo (written st) =
    take (consumedOf st queue) (produced (env queue)).

(** A producer that is never run: it pushes nothing and never closes its
    queue. With it in the place of the first producer, only the last of
    the two queues is served. *)
Definition neverRun : History nat :=
  mkHistory nat [] (fun _ => 0%nat) (fun _ => false).

Definition lastProducerOnly (queue : nat) : History nat :=
  match queue with
  | S O => backHistory
  | _ => neverRun
  end.

(* ===================================================================== *)
(** * Substring search *)
(* ===================================================================== *)

Lemma starts_with_occurs (sub s : string) :
  starts_with sub s = true <-> exists post, s = String.append sub post.
Proof.
  revert s. induction sub as [|c sub IH]; intros s; simpl.
  - split; [intros _; exists s; reflexivity | reflexivity].
  - destruct s as [|d s].
    + split; [discriminate | intros [post H]; discriminate].
    + destruct (Ascii.eqb c d) eqn:E.
      * apply Ascii.eqb_eq in E. subst d. rewrite IH.
        split; intros [post H]; exists post.
        -- rewrite H. reflexivity.
        -- injection H. auto.
      * apply Ascii.eqb_neq in E.
        split; [discriminate | intros [post H]; injection H; congruence].
Qed.

Lemma string_find_occurs (s sub : string) :
  is_Some (string_find s sub) <-> occurs sub s.
Proof.
  unfold occurs. split.
  - induction s as [|c s IH]; simpl.
    + destruct (starts_with sub "") eqn:E.
      * intros _. apply starts_with_occurs in E as [post E].
        exists EmptyString, post. exact E.
      * intros [x H]. discriminate.
    + destruct (starts_with sub (String c s)) eqn:E.
      * intros _. apply starts_with_occurs in E as [post E].
        exists EmptyString, post. exact E.
      * destruct (string_find s sub) as [pos|]; [|intros [x H]; discriminate].
        intros _. destruct IH as (pre & post & H); [eauto|].
        exists (String c pre), post. rewrite H. reflexivity.
  - intros (pre & post & H). subst s.
    induction pre as [|c pre IH].
    + change (String.append "" (String.append sub post))
        with (String.append sub post).
      assert (E : starts_with sub (String.append sub post) = true)
        by (apply starts_with_occurs; eauto).
      destruct (String.append sub post); simpl; rewrite E; eauto.
    + change (String.append (String c pre) (String.append sub post))
        with (String c (String.append pre (String.append sub post))).
      simpl. destruct (starts_with sub _); [eauto|].
      destruct IH as [pos ->]. eauto.
Qed.

Lemma stringContains_occurs (s sub : string) :
  stringContains s sub = true <-> occurs sub s.
Proof.
  rewrite <- string_find_occurs. unfold stringContains.
  destruct (string_find s sub); split; intros H;
    eauto; try discriminate; destruct H; discriminate.
Qed.

Lemma stringContains_absent (s sub : string) :
  stringContains s sub = false <-> ~ occurs sub s.
Proof.
  rewrite <- stringContains_occurs. destruct (stringContains s sub); split;
    congruence.
Qed.

Lemma string_icontains_occurs (s sub : string) :
  string_icontains s sub = true <-> occursAnyCase sub s.
Proof. apply stringContains_occurs. Qed.

Lemma string_icontains_absent (s sub : string) :
  string_icontains s sub = false <-> ~ occursAnyCase sub s.
Proof. apply stringContains_absent. Qed.

(* ===================================================================== *)
(** * Sensor classification: theorems *)
(* ===================================================================== *)

(** The loop over a marker table returns the type of an entry exactly when
    that entry passes the test and no entry before it does. *)
Lemma firstMarker_Some test table ty :
  firstMarker test table = Some ty <->
  exists before str after,
    table = before ++ (str, ty) :: after /\ test str = true /\
    Forall (fun entry => test (fst entry) = false) before.
Proof.
  induction table as [|[str0 ty0] table IH]; simpl.
  - split; [discriminate|]. intros (before & str & after & H & _).
    destruct before; discriminate.
  - destruct (test str0) eqn:E.
    + split.
      * intros [= <-]. exists [], str0, table. auto.
      * intros ([|[s1 t1] before] & str & after & H & Hstr & Hbefore).
        -- simpl in H. congruence.
        -- simpl in H. injection H as -> -> _.
           apply Forall_cons in Hbefore as [Hb _]. simpl in Hb. congruence.
    + rewrite IH. split.
      * intros (before & str & after & -> & Hstr & Hbefore).
        exists ((str0, ty0) :: before), str, after. auto.
      * intros ([|[s1 t1] before] & str & after & H & Hstr & Hbefore).
        -- simpl in H. congruence.
        -- simpl in H. injection H as -> -> ->.
           apply Forall_cons in Hbefore as [_ Hb]. eauto 6.
Qed.

Lemma firstMarker_None test table :
  firstMarker test table = None <->
  Forall (fun entry => test (fst entry) = false) table.
Proof.
  induction table as [|[str0 ty0] table IH]; simpl.
  - split; auto.
  - rewrite Forall_cons. simpl. destruct (test str0).
    + split; [discriminate | intros [? _]; discriminate].
    + rewrite IH. tauto.
Qed.

(** The value returned by each classifier is the outcome of the loop. *)
Lemma getSampleType_value filename :
  fst (getSampleType filename) =
  firstMarker (fun str => stringContains filename str) pairs.
Proof.
  unfold getSampleType.
  destruct (firstMarker _ pairs); reflexivity.
Qed.

Lemma extractSampleSetDescriptorInDirectory_value inDirectoryPath :
  fst (extractSampleSetDescriptorInDirectory inDirectoryPath) =
  firstMarker
    (fun name => string_icontains (path_filename inDirectoryPath) name) pairs.
Proof.
  unfold extractSampleSetDescriptorInDirectory. cbv zeta.
  destruct (firstMarker _ pairs); reflexivity.
Qed.

(** The three markers, in order, for any test. *)
Lemma firstMarker_pairs (test : string -> bool) (present : string -> Prop) :
  (forall str, test str = true <-> present str) ->
  let result := firstMarker test pairs in
  (result = Some CAMERA <-> present "CAM") /\
  (result = Some RADAR <-> ~ present "CAM" /\ present "RADAR") /\
  (result = Some LIDAR <->
     ~ present "CAM" /\ ~ present "RADAR" /\ present "LIDAR") /\
  (result = None <->
     ~ present "CAM" /\ ~ present "RADAR" /\ ~ present "LIDAR").
Proof.
  intros Htest. simpl.
  pose proof (Htest "CAM"%string) as Hc.
  pose proof (Htest "RADAR"%string) as Hr.
  pose proof (Htest "LIDAR"%string) as Hl.
  destruct (test "CAM") eqn:Ec; destruct (test "RADAR") eqn:Er;
    destruct (test "LIDAR") eqn:El;
    repeat split; intros; try discriminate; try tauto;
    try (exfalso; intuition congruence); intuition congruence.
Qed.

(** C8 (as amended). Both classifiers run through the ordered marker list
    CAM, RADAR, LIDAR and the first marker found decides; none found gives
    absent. For a directory the markers are looked for in its name, the
    last component of its path, and the search disregards case; for a
    file name ([getSampleType]) it is the exact, case-sensitive
    [std::string::find]. "CAM_FRONT" is CAMERA, "LIDAR_TOP" is LIDAR and
    "MISC_SENSOR" is absent under both. *)
Theorem classification_first_marker (inDirectoryPath name : string) :
  let dirName := path_filename inDirectoryPath in
  let byDirectory :=
    fst (extractSampleSetDescriptorInDirectory inDirectoryPath) in
  let byFile := fst (getSampleType name) in
  ((byDirectory = Some CAMERA <-> occursAnyCase "CAM" dirName) /\
   (byDirectory = Some RADAR <->
      ~ occursAnyCase "CAM" dirName /\ occursAnyCase "RADAR" dirName) /\
   (byDirectory = Some LIDAR <->
      ~ occursAnyCase "CAM" dirName /\ ~ occursAnyCase "RADAR" dirName /\
      occursAnyCase "LIDAR" dirName) /\
   (byDirectory = None <->
      ~ occursAnyCase "CAM" dirName /\ ~ occursAnyCase "RADAR" dirName /\
      ~ occursAnyCase "LIDAR" dirName)) /\
  ((byFile = Some CAMERA <-> occurs "CAM" name) /\
   (byFile = Some RADAR <-> ~ occurs "CAM" name /\ occurs "RADAR" name) /\
   (byFile = Some LIDAR <->
      ~ occurs "CAM" name /\ ~ occurs "RADAR" name /\ occurs "LIDAR" name) /\
   (byFile = None <->
      ~ occurs "CAM" name /\ ~ occurs "RADAR" name /\ ~ occurs "LIDAR" name)) /\
  (fst (extractSampleSetDescriptorInDirectory "CAM_FRONT") = Some CAMERA /\
   fst (extractSampleSetDescriptorInDirectory "LIDAR_TOP") = Some LIDAR /\
   fst (extractSampleSetDescriptorInDirectory "MISC_SENSOR") = None) /\
  (fst (getSampleType "CAM_FRONT") = Some CAMERA /\
   fst (getSampleType "LIDAR_TOP") = Some LIDAR /\
   fst (getSampleType "MISC_SENSOR") = None).
Proof.
  cbv zeta.
  rewrite extractSampleSetDescriptorInDirectory_value, getSampleType_value.
  split; [|split; [|split]].
  - apply (firstMarker_pairs
             (fun marker =>
                string_icontains (path_filename inDirectoryPath) marker)
             (fun marker => occursAnyCase marker (path_filename inDirectoryPath))).
    intros str. apply string_icontains_occurs.
  - apply (firstMarker_pairs (fun marker => stringContains name marker)
             (fun marker => occurs marker name)).
    intros str. apply stringContains_occurs.
  - repeat split; vm_compute; reflexivity.
  - repeat split; vm_compute; reflexivity.
Qed.

(** C8, as stated, fails for file names: "cam_front" contains the marker
    CAM when case is disregarded, and the directory classifier says
    CAMERA, yet [getSampleType] returns absent. *)
Lemma file_classification_is_case_sensitive :
  occursAnyCase "CAM" "cam_front" /\
  fst (extractSampleSetDescriptorInDirectory "cam_front") = Some CAMERA /\
  fst (getSampleType "cam_front") = None.
Proof.
  split; [|split].
  - apply string_icontains_occurs. vm_compute. reflexivity.
  - vm_compute. reflexivity.
  - vm_compute. reflexivity.
Qed.

(* ===================================================================== *)
(** * Colours: theorems *)
(* ===================================================================== *)

Lemma firstRule_magenta categoryName rules :
  Forall (fun keyword => ~ occurs keyword categoryName)
         (concat (map fst rules)) ->
  firstRule categoryName rules = magenta.
Proof.
  induction rules as [|[keywords colour] rules IH]; simpl; [reflexivity|].
  rewrite Forall_app. intros [Hk Hrest].
  replace (existsb (stringContains categoryName) keywords) with false;
    [auto|].
  symmetry. induction Hk as [|k ks Hk _ IHk]; simpl; [reflexivity|].
  apply stringContains_absent in Hk. rewrite Hk. exact IHk.
Qed.

(** C9. [getColor] applies the keyword rules in the order bicycle or
    motorcycle: red; vehicle, bus, car, construction_vehicle, trailer or
    truck: orange; pedestrian: blue; cone or barrier: black; none:
    magenta, the first rule with a keyword in the category name deciding.
    "vehicle.car" is orange {1.0, 0.619, 0.0, 1.0},
    "human.pedestrian.adult" is blue {0.0, 0.0, 0.901, 1.0}, and a name
    with no keyword is magenta {1.0, 0.0, 1.0, 1.0}. *)
Theorem getColor_first_rule (categoryName : string) :
  getColor categoryName = firstRule categoryName colorRules /\
  getColor "vehicle.car" = mkColor 1 (619 # 1000) 0 1 /\
  getColor "human.pedestrian.adult" = mkColor 0 0 (901 # 1000) 1 /\
  getColor "animal" = mkColor 1 0 1 1 /\
  (Forall (fun keyword => ~ occurs keyword categoryName)
          (concat (map fst colorRules)) ->
   getColor categoryName = mkColor 1 0 1 1).
Proof.
  assert (Hrules : getColor categoryName = firstRule categoryName colorRules).
  { unfold getColor, colorRules, firstRule, existsb.
    repeat (match goal with
            | |- context [stringContains categoryName ?k] =>
                destruct (stringContains categoryName k)
            end; simpl; try reflexivity). }
  split; [exact Hrules|].
  split; [vm_compute; reflexivity|].
  split; [vm_compute; reflexivity|].
  split; [vm_compute; reflexivity|].
  intros Hnone. rewrite Hrules. apply firstRule_magenta. exact Hnone.
Qed.

(* ===================================================================== *)
(** * Binary64: conversion of integers and division *)
(* ===================================================================== *)

Lemma digits2_pos_bounds (p : positive) :
  2 ^ (Zpos (digits2_pos p) - 1) <= Zpos p < 2 ^ Zpos (digits2_pos p).
Proof.
  induction p as [p IH|p IH|]; simpl digits2_pos.
  - rewrite Pos2Z.inj_succ. change (Zpos p~1) with (2 * Zpos p + 1).
    replace (Z.succ (Zpos (digits2_pos p)) - 1) with (Z.succ (Zpos (digits2_pos p) - 1)) by lia.
    rewrite !Z.pow_succ_r by lia.
    set (A := 2 ^ (Zpos (digits2_pos p) - 1)) in *.
    set (B := 2 ^ Zpos (digits2_pos p)) in *. clearbody A B. lia.
  - rewrite Pos2Z.inj_succ. change (Zpos p~0) with (2 * Zpos p).
    replace (Z.succ (Zpos (digits2_pos p)) - 1) with (Z.succ (Zpos (digits2_pos p) - 1)) by lia.
    rewrite !Z.pow_succ_r by lia.
    set (A := 2 ^ (Zpos (digits2_pos p) - 1)) in *.
    set (B := 2 ^ Zpos (digits2_pos p)) in *. clearbody A B. lia.
  - simpl. lia.
Qed.

Lemma shr_1_m (mrs : shr_record) :
  0 <= shr_m mrs -> shr_m (shr_1 mrs) = shr_m mrs / 2.
Proof.
  destruct mrs as [m r s]. simpl. intros Hm.
  rewrite <- Z.div2_div.
  destruct m as [|[p|p|]|p]; try reflexivity. lia.
Qed.

Lemma iter_pos_shr_1_m (n : positive) (mrs : shr_record) :
  0 <= shr_m mrs ->
  shr_m (SpecFloat.iter_pos shr_1 n mrs) = shr_m mrs / 2 ^ Zpos n.
Proof.
  revert mrs. induction n as [n IH|n IH|]; intros mrs Hm; simpl SpecFloat.iter_pos.
  - assert (H1 : 0 <= shr_m (shr_1 mrs))
      by (rewrite shr_1_m by exact Hm; apply Z.div_pos; lia).
    assert (H2 : 0 <= shr_m (SpecFloat.iter_pos shr_1 n (shr_1 mrs)))
      by (rewrite IH by exact H1; apply Z.div_pos; lia).
    rewrite IH by exact H2. rewrite IH by exact H1. rewrite shr_1_m by exact Hm.
    rewrite !Z.div_div by lia.
    f_equal. change (Zpos n~1) with (2 * Zpos n + 1).
    replace (2 * Zpos n + 1) with (1 + Zpos n + Zpos n) by lia.
    rewrite !Z.pow_add_r by lia. lia.
  - assert (H1 : 0 <= shr_m (SpecFloat.iter_pos shr_1 n mrs))
      by (rewrite IH by exact Hm; apply Z.div_pos; lia).
    rewrite IH by exact H1. rewrite IH by exact Hm.
    rewrite Z.div_div by lia.
    f_equal. change (Zpos n~0) with (2 * Zpos n).
    replace (2 * Zpos n) with (Zpos n + Zpos n) by lia.
    rewrite Z.pow_add_r by lia. lia.
  - rewrite shr_1_m by exact Hm. reflexivity.
Qed.

Lemma shr_m_e (mrs : shr_record) (e n : Z) :
  0 <= shr_m mrs ->
  shr_m (fst (shr mrs e n)) = shr_m mrs / 2 ^ Z.max n 0 /\
  snd (shr mrs e n) = e + Z.max n 0.
Proof.
  intros Hm. destruct n as [|n|n]; simpl.
  - rewrite Z.div_1_r. lia.
  - rewrite iter_pos_shr_1_m by exact Hm. split; [reflexivity | lia].
  - rewrite Z.div_1_r. lia.
Qed.

Lemma round_nearest_even_bounds (m : Z) (l : location) :
  m <= round_nearest_even m l <= m + 1.
Proof.
  destruct l as [|[| |]]; simpl; try lia. destruct (Z.even m); lia.
Qed.

Lemma div_pow2_pos (m k dg : Z) :
  2 ^ (dg - 1) <= m -> 0 <= k <= dg - 1 -> 1 <= m / 2 ^ k.
Proof.
  intros Hm Hk.
  assert (0 < 2 ^ k) by (apply Z.pow_pos_nonneg; lia).
  assert (2 ^ k <= 2 ^ (dg - 1)) by (apply Z.pow_le_mono_r; lia).
  apply Z.div_le_lower_bound; lia.
Qed.

Lemma digits_le (p : positive) (n : Z) :
  0 <= n -> Zpos p < 2 ^ n -> Zpos (digits2_pos p) <= n.
Proof.
  intros Hn Hp. pose proof (digits2_pos_bounds p) as [Hlo _].
  destruct (Z_le_gt_dec (Zpos (digits2_pos p)) n) as [|Hgt]; [assumption|].
  assert (2 ^ n <= 2 ^ (Zpos (digits2_pos p) - 1))
    by (apply Z.pow_le_mono_r; lia).
  lia.
Qed.

Lemma binary_round_aux_finite (sx : bool) (mz : positive) (ez : Z) :
  Zpos mz < 2 ^ 64 -> -1074 <= ez <= 0 ->
  exists m e, binary_round_aux prec emax sx (Zpos mz) ez loc_Exact = S754_finite sx m e.
Proof.
  intros Hmz Hez. unfold binary_round_aux, shr_fexp.
  cbn [Zdigits2 shr_record_of_loc].
  pose proof (digits2_pos_bounds mz) as Hdg.
  pose proof (digits_le mz 64 ltac:(lia) Hmz) as Hdg64.
  set (dg := Zpos (digits2_pos mz)) in *.
  assert (Hdg1 : 1 <= dg) by (unfold dg; lia).
  set (n1 := fexp prec emax (dg + ez) - ez).
  assert (Hn1 : Z.max n1 0 <= 11 /\ Z.max n1 0 <= dg - 1)
    by (unfold n1, fexp, emin, prec, emax; lia).
  pose proof (shr_m_e {| shr_m := Zpos mz; shr_r := false; shr_s := false |} ez n1
                ltac:(simpl; lia)) as [Hm1 He1].
  destruct (shr _ ez n1) as [mrs1 e1]. simpl in Hm1, He1.
  assert (Hm1pos : 1 <= shr_m mrs1)
    by (rewrite Hm1; apply (div_pow2_pos _ _ dg); lia).
  assert (Hm1le : shr_m mrs1 <= Zpos mz).
  { rewrite Hm1. apply Z.div_le_upper_bound.
    - apply Z.pow_pos_nonneg; lia.
    - assert (0 < 2 ^ Z.max n1 0) by (apply Z.pow_pos_nonneg; lia). nia. }
  pose proof (round_nearest_even_bounds (shr_m mrs1) (loc_of_shr_record mrs1)) as Hr.
  destruct (round_nearest_even (shr_m mrs1) (loc_of_shr_record mrs1)) as [|m2|m2];
    try lia.
  cbn [Zdigits2].
  pose proof (digits2_pos_bounds m2) as Hdg2.
  assert (Hm2 : Zpos m2 < 2 ^ 65)
    by (change (2 ^ 65) with (2 * 2 ^ 64); lia).
  pose proof (digits_le m2 65 ltac:(lia) Hm2) as Hdg65.
  set (dg2 := Zpos (digits2_pos m2)) in *.
  assert (Hdg21 : 1 <= dg2) by (unfold dg2; lia).
  set (n2 := fexp prec emax (dg2 + e1) - e1).
  assert (Hn2 : Z.max n2 0 <= 12 /\ Z.max n2 0 <= dg2 - 1)
    by (unfold n2, fexp, emin, prec, emax; lia).
  pose proof (shr_m_e {| shr_m := Zpos m2; shr_r := false; shr_s := false |} e1 n2
                ltac:(simpl; lia)) as [Hm3 He3].
  destruct (shr _ e1 n2) as [mrs2 e2]. simpl in Hm3, He3.
  assert (Hm3pos : 1 <= shr_m mrs2)
    by (rewrite Hm3; apply (div_pow2_pos _ _ dg2); lia).
  destruct (shr_m mrs2) as [|m3|m3]; try lia.
  replace (e2 <=? emax - prec) with true
    by (symmetry; apply Z.leb_le; unfold emax, prec; lia).
  eauto.
Qed.

Lemma iter_xO_value (p k : positive) :
  Zpos (Pos.iter xO p k) = Zpos p * 2 ^ Zpos k.
Proof.
  induction k as [|k IH] using Pos.peano_ind.
  - simpl. lia.
  - rewrite Pos.iter_succ, Pos2Z.inj_succ, Z.pow_succ_r by lia.
    change (Zpos (Pos.iter xO p k)~0) with (2 * Zpos (Pos.iter xO p k)).
    rewrite IH. lia.
Qed.

Lemma int_to_double_finite (d : Z) :
  0 < d < 2 ^ 64 -> exists m e, int_to_double d = S754_finite false m e.
Proof.
  intros Hd. destruct d as [|p|p]; try lia.
  unfold int_to_double, binary_normalize, binary_round.
  pose proof (digits2_pos_bounds p) as Hdg.
  pose proof (digits_le p 64 ltac:(lia) ltac:(lia)) as Hdg64.
  unfold shl_align.
  destruct (fexp prec emax (Zpos (digits2_pos p) + 0) - 0) as [|k|k] eqn:Ek.
  - apply binary_round_aux_finite; lia.
  - apply binary_round_aux_finite; lia.
  - assert (Hk : Zpos k = 53 - Zpos (digits2_pos p))
      by (unfold fexp, emin, prec, emax in Ek; lia).
    apply binary_round_aux_finite.
    + rewrite iter_xO_value.
      assert (Hp : Zpos p * 2 ^ Zpos k < 2 ^ Zpos (digits2_pos p) * 2 ^ Zpos k)
        by (apply Z.mul_lt_mono_pos_r; [apply Z.pow_pos_nonneg|]; lia).
      rewrite <- Z.pow_add_r in Hp by lia.
      replace (Zpos (digits2_pos p) + Zpos k) with 53 in Hp by lia.
      assert (2 ^ 53 < 2 ^ 64) by (apply Z.pow_lt_mono_r; lia). lia.
    + unfold fexp, emin, prec, emax in *. lia.
Qed.

Lemma ddiv_same (m : positive) (e : Z) :
  ddiv (S754_finite false m e) (S754_finite false m e) = d_one.
Proof.
  unfold ddiv, SFdiv, SFdiv_core_binary. cbv zeta. cbn [Zdigits2 xorb].
  rewrite !Z.sub_diag.
  change (Z.min (fexp prec emax 0) 0) with (-53).
  change (0 - -53) with 53. cbv iota beta.
  assert (Hdiv : Z.div_eucl (Z.shiftl (Zpos m) 53) (Zpos m) = (2 ^ 53, 0)).
  { rewrite Z.shiftl_mul_pow2 by lia.
    pose proof (Z.div_eucl_eq (Zpos m * 2 ^ 53) (Zpos m) ltac:(lia)) as Heq.
    pose proof (Z.mod_pos_bound (Zpos m * 2 ^ 53) (Zpos m) ltac:(lia)) as Hmod.
    unfold Z.modulo in Hmod.
    destruct (Z.div_eucl (Zpos m * 2 ^ 53) (Zpos m)) as [q r].
    assert (q = 2 ^ 53) by nia. subst q.
    f_equal. lia. }
  rewrite Hdiv.
  replace (new_location (Zpos m) 0) with loc_Exact
    by (unfold new_location; destruct (Z.even (Zpos m)); reflexivity).
  vm_compute. reflexivity.
Qed.

Lemma ddiv_zero (m : positive) (e : Z) :
  ddiv d_zero (S754_finite false m e) = d_zero.
Proof. reflexivity. Qed.

(** The interpolation fraction when the clamped timestamp sits on an end
    of the interval. *)
Lemma interpolationAmount_lower (t0 t1 : TimeStamp) :
  is_u64 t0 -> is_u64 t1 -> t0 < t1 -> interpolationAmount t0 t1 t0 = d_zero.
Proof.
  unfold is_u64, u64_modulus. intros H0 H1 Hlt.
  unfold interpolationAmount, u64_sub, u64_modulus.
  rewrite Z.sub_diag, Z.mod_0_l by lia.
  rewrite (Z.mod_small (t1 - t0)) by lia.
  destruct (int_to_double_finite (t1 - t0)) as (m & e & ->); [lia|].
  apply ddiv_zero.
Qed.

Lemma interpolationAmount_upper (t0 t1 : TimeStamp) :
  is_u64 t0 -> is_u64 t1 -> t0 < t1 -> interpolationAmount t0 t1 t1 = d_one.
Proof.
  unfold is_u64, u64_modulus. intros H0 H1 Hlt.
  unfold interpolationAmount, u64_sub, u64_modulus.
  rewrite (Z.mod_small (t1 - t0)) by lia.
  destruct (int_to_double_finite (t1 - t0)) as (m & e & ->); [lia|].
  apply ddiv_same.
Qed.

(* ===================================================================== *)
(** * [getBoxes]: theorems *)
(* ===================================================================== *)

(** A loop of [push_back]s appends the image of the list. *)
Lemma push_back_loop {A B : Type} (f : A -> B) (l : list A) (acc : list B) :
  fold_left (fun bs x => bs ++ [f x]) l acc = acc ++ map f l.
Proof.
  revert acc. induction l as [|x l IH]; intros acc; simpl.
  - rewrite app_nil_r. reflexivity.
  - rewrite IH, <- app_assoc. reflexivity.
Qed.

Lemma map_insert_lookup {V : Type} (k k' : string) (v : V) (m : gmap string V) :
  map_insert k v m !! k' =
  match m !! k' with
  | Some v' => Some v'
  | None => if decide (k = k') then Some v else None
  end.
Proof.
  unfold map_insert. destruct (m !! k) as [v0|] eqn:Ek.
  - destruct (m !! k') eqn:Ek'; [reflexivity|].
    destruct (decide (k = k')); [congruence | reflexivity].
  - destruct (decide (k = k')) as [->|Hne].
    + rewrite lookup_insert_eq, Ek. reflexivity.
    + rewrite lookup_insert_ne by exact Hne. destruct (m !! k'); reflexivity.
Qed.

(** An instance token is missing from [prevInstanceMap] exactly when no
    previous annotation carries it. *)
Lemma makePrevInstanceMap_None (prevAnnotations : list SampleAnnotationInfo.t)
    (instance : string) :
  makePrevInstanceMap prevAnnotations !! instance = None <->
  Forall (fun prevAnnotation =>
            SampleAnnotationInfo.instanceToken prevAnnotation <> instance)
         prevAnnotations.
Proof.
  unfold makePrevInstanceMap.
  assert (Hgen : forall m : gmap string SampleAnnotationInfo.t,
    fold_left
      (fun m annotation =>
         map_insert (SampleAnnotationInfo.instanceToken annotation) annotation m)
      prevAnnotations m !! instance = None <->
    m !! instance = None /\
    Forall (fun prevAnnotation =>
              SampleAnnotationInfo.instanceToken prevAnnotation <> instance)
           prevAnnotations).
  { induction prevAnnotations as [|p l IH]; intros m; simpl.
    - split; [intros H; split; [exact H | constructor] | intros [H _]; exact H].
    - rewrite IH, map_insert_lookup, Forall_cons.
      destruct (m !! instance);
        [split; intros [H _]; discriminate H|].
      case_decide.
      + split; [intros [E _]; discriminate E | intros [_ [E _]]; contradiction].
      + tauto. }
  rewrite Hgen, lookup_empty. tauto.
Qed.

(** The loop body of the interpolation branch is the box of the
    specification at the fraction computed from the three timestamps. *)
Lemma interpolatedBox_boxAtAmount slerp prevInstanceMap t0 t1 t annotation :
  interpolatedBox slerp prevInstanceMap t0 t1 t annotation =
  boxAtAmount slerp prevInstanceMap (interpolationAmount t0 t1 t) annotation.
Proof.
  unfold interpolatedBox, boxAtAmount.
  destruct (prevInstanceMap !! _); reflexivity.
Qed.

(** The key-frame branch. *)
Lemma getBoxes_keyframe slerp sc sampleData boxes currSample :
  sceneSamples sc !! SampleDataInfo.sampleToken sampleData = Some currSample ->
  SampleDataInfo.isKeyFrame sampleData = true \/
  SampleInfo.prev currSample = ""%string ->
  getBoxes slerp sc sampleData boxes =
  match sceneAnnotations sc !! SampleDataInfo.sampleToken sampleData with
  | None =>
      (boxes, ["can't find current sample token in sceneAnnotations"%string])
  | Some annotations => (boxes ++ map makeBox annotations, [])
  end.
Proof.
  intros Hsample Hkey. unfold getBoxes. rewrite Hsample.
  replace (SampleDataInfo.isKeyFrame sampleData
           || bool_decide (SampleInfo.prev currSample = ""%string))%bool
    with true.
  - destruct (sceneAnnotations sc !! _); [|reflexivity].
    rewrite push_back_loop. reflexivity.
  - symmetry. destruct Hkey as [-> | ->]; [reflexivity|].
    apply orb_true_r.
Qed.

(** The interpolation branch, when every look-up succeeds. *)
Lemma getBoxes_intermediate slerp sc sampleData boxes
    currSample prevSample currAnnotations prevAnnotations :
  sceneSamples sc !! SampleDataInfo.sampleToken sampleData = Some currSample ->
  SampleDataInfo.isKeyFrame sampleData = false ->
  SampleInfo.prev currSample <> ""%string ->
  sceneSamples sc !! SampleInfo.prev currSample = Some prevSample ->
  sceneAnnotations sc !! SampleDataInfo.sampleToken sampleData
    = Some currAnnotations ->
  sceneAnnotations sc !! SampleInfo.token prevSample = Some prevAnnotations ->
  getBoxes slerp sc sampleData boxes =
  (boxes ++
   map (interpolatedBox slerp (makePrevInstanceMap prevAnnotations)
          (SampleInfo.timeStamp prevSample) (SampleInfo.timeStamp currSample)
          (clampStamp (SampleInfo.timeStamp prevSample)
             (SampleInfo.timeStamp currSample)
             (SampleDataInfo.timeStamp sampleData)))
       currAnnotations,
   []).
Proof.
  intros Hsample Hkey Hprev HprevSample Hcurr HprevAnn. unfold getBoxes.
  rewrite Hsample, Hkey.
  rewrite bool_decide_eq_false_2 by exact Hprev. simpl.
  rewrite HprevSample, Hcurr, HprevAnn.
  rewrite push_back_loop. reflexivity.
Qed.

(** C1. For a sample data that is a key frame, or whose sample has an
    empty previous-sample token, [getBoxes] appends exactly one box per
    annotation attached to the sample, in order, and each box carries the
    translation, size, rotation, token and category of its annotation
    unchanged. *)
Theorem getBoxes_keyframe_identity
    (slerp : double -> Quaterniond -> Quaterniond -> Quaterniond)
    (sc : SceneConverter) (sampleData : SampleDataInfo.t)
    (boxes : list Box.t) (currSample : SampleInfo.t) :
  sceneSamples sc !! SampleDataInfo.sampleToken sampleData = Some currSample ->
  SampleDataInfo.isKeyFrame sampleData = true \/
  SampleInfo.prev currSample = ""%string ->
  let annotations :=
    default [] (sceneAnnotations sc !! SampleDataInfo.sampleToken sampleData) in
  let result := fst (getBoxes slerp sc sampleData boxes) in
  result = boxes ++ map makeBox annotations /\
  length result = (length boxes + length annotations)%nat /\
  forall (i : nat) (annotation : SampleAnnotationInfo.t),
    annotations !! i = Some annotation ->
    exists box : Box.t,
      result !! (length boxes + i)%nat = Some box /\
      Box.center box =
        mkVector3d (f3_0 (SampleAnnotationInfo.translation annotation))
                   (f3_1 (SampleAnnotationInfo.translation annotation))
                   (f3_2 (SampleAnnotationInfo.translation annotation)) /\
      Box.size box =
        mkVector3d (f3_0 (SampleAnnotationInfo.size annotation))
                   (f3_1 (SampleAnnotationInfo.size annotation))
                   (f3_2 (SampleAnnotationInfo.size annotation)) /\
      Box.orientation box =
        mkQuaterniond (f4_0 (SampleAnnotationInfo.rotation annotation))
                      (f4_1 (SampleAnnotationInfo.rotation annotation))
                      (f4_2 (SampleAnnotationInfo.rotation annotation))
                      (f4_3 (SampleAnnotationInfo.rotation annotation)) /\
      Box.token box = SampleAnnotationInfo.token annotation /\
      Box.category_name box = SampleAnnotationInfo.categoryName annotation.
Proof.
  intros Hsample Hkey annotations result.
  assert (Hresult : result = boxes ++ map makeBox annotations).
  { unfold result, annotations.
    rewrite (getBoxes_keyframe slerp sc sampleData boxes currSample Hsample Hkey).
    destruct (sceneAnnotations sc !! _); simpl; [reflexivity|].
    rewrite app_nil_r. reflexivity. }
  split; [exact Hresult|]. split.
  - rewrite Hresult, length_app, length_map. reflexivity.
  - intros i annotation Hi. exists (makeBox annotation). split.
    + rewrite Hresult, lookup_app_r by lia.
      replace (length boxes + i - length boxes)%nat with i by lia.
      rewrite list_lookup_fmap, Hi. reflexivity.
    + repeat split.
Qed.

Lemma getBoxes_keyframe_identity_witness :
  sceneSamples smallScene !! SampleDataInfo.sampleToken keyFrameData
    = Some sampleNow /\
  (SampleDataInfo.isKeyFrame keyFrameData = true \/
   SampleInfo.prev sampleNow = ""%string) /\
  fst (getBoxes keepFirst smallScene keyFrameData []) =
    [] ++ map makeBox
            (default [] (sceneAnnotations smallScene
                           !! SampleDataInfo.sampleToken keyFrameData)).
Proof.
  split; [reflexivity|]. split; [left; reflexivity|].
  apply (getBoxes_keyframe_identity keepFirst smallScene keyFrameData []
           sampleNow); [reflexivity | left; reflexivity].
Defined.

(** C2. For an intermediate sample data (not a key frame, previous sample
    present) all of whose look-ups succeed, with t0 < t1 the timestamps of
    the previous and the current sample: every box is built with the
    fraction computed from the clamped timestamp, and that fraction is
    exactly 0 when t < t0 and exactly 1 when t1 < t. With t0 = 100 and
    t1 = 200, t = 50 gives 0 and t = 250 gives 1. *)
Theorem getBoxes_clamped_fraction
    (slerp : double -> Quaterniond -> Quaterniond -> Quaterniond)
    (sc : SceneConverter) (sampleData : SampleDataInfo.t)
    (boxes : list Box.t) (currSample prevSample : SampleInfo.t)
    (currAnnotations prevAnnotations : list SampleAnnotationInfo.t) :
  sceneSamples sc !! SampleDataInfo.sampleToken sampleData = Some currSample ->
  SampleDataInfo.isKeyFrame sampleData = false ->
  SampleInfo.prev currSample <> ""%string ->
  sceneSamples sc !! SampleInfo.prev currSample = Some prevSample ->
  sceneAnnotations sc !! SampleDataInfo.sampleToken sampleData
    = Some currAnnotations ->
  sceneAnnotations sc !! SampleInfo.token prevSample = Some prevAnnotations ->
  is_u64 (SampleInfo.timeStamp prevSample) ->
  is_u64 (SampleInfo.timeStamp currSample) ->
  is_u64 (SampleDataInfo.timeStamp sampleData) ->
  SampleInfo.timeStamp prevSample < SampleInfo.timeStamp currSample ->
  let t0 := SampleInfo.timeStamp prevSample in
  let t1 := SampleInfo.timeStamp currSample in
  let t := SampleDataInfo.timeStamp sampleData in
  let amount := interpolationAmount t0 t1 (clampStamp t0 t1 t) in
  fst (getBoxes slerp sc sampleData boxes) =
    boxes ++ map (boxAtAmount slerp (makePrevInstanceMap prevAnnotations) amount)
               currAnnotations /\
  (t < t0 -> amount = d_zero) /\
  (t1 < t -> amount = d_one) /\
  interpolationAmount 100 200 (clampStamp 100 200 50) = d_zero /\
  interpolationAmount 100 200 (clampStamp 100 200 250) = d_one.
Proof.
  intros Hsample Hkey Hprev HprevSample Hcurr HprevAnn H0 H1 Ht Hlt t0 t1 t amount.
  split; [|split; [|split; [|split]]].
  - rewrite (getBoxes_intermediate slerp sc sampleData boxes currSample
               prevSample currAnnotations prevAnnotations) by assumption.
    simpl. f_equal.
  - intros Hout. unfold amount, clampStamp.
    replace (Z.max t0 (Z.min t1 t)) with t0 by lia.
    apply interpolationAmount_lower; assumption.
  - intros Hout. unfold amount, clampStamp.
    replace (Z.max t0 (Z.min t1 t)) with t1 by lia.
    apply interpolationAmount_upper; assumption.
  - vm_compute. reflexivity.
  - vm_compute. reflexivity.
Qed.

Lemma getBoxes_clamped_fraction_witness :
  SampleDataInfo.timeStamp earlySweepData < SampleInfo.timeStamp sampleBefore /\
  fst (getBoxes keepFirst smallScene earlySweepData []) =
    [] ++ map (boxAtAmount keepFirst (makePrevInstanceMap [carBefore])
                 (interpolationAmount 100 200 (clampStamp 100 200 50)))
            [carNow; walkerNow] /\
  interpolationAmount 100 200 (clampStamp 100 200 50) = d_zero.
Proof.
  split; [reflexivity|].
  pose proof (getBoxes_clamped_fraction keepFirst smallScene earlySweepData []
                sampleNow sampleBefore [carNow; walkerNow] [carBefore]
                eq_refl eq_refl ltac:(discriminate) eq_refl eq_refl eq_refl
                ltac:(unfold is_u64, u64_modulus; simpl; lia)
                ltac:(unfold is_u64, u64_modulus; simpl; lia)
                ltac:(unfold is_u64, u64_modulus; simpl; lia)
                ltac:(simpl; lia)) as (Hboxes & Hlow & _).
  split; [exact Hboxes|]. apply Hlow. reflexivity.
Defined.

(** C4 (as amended). For an intermediate sample data - not a key frame,
    with a previous sample that is found - whose previous sample has an
    annotation list in the annotation map, an annotation of the current
    sample whose instance token is carried by no annotation of the
    previous sample yields the box built from that annotation alone: the
    translation, the size, the rotation, the token and the category are
    those of the annotation, nothing is interpolated. When the previous
    sample has no annotation list in the map, [getBoxes] prints a
    diagnostic and appends no box at all. *)
Theorem getBoxes_new_instance_unchanged
    (slerp : double -> Quaterniond -> Quaterniond -> Quaterniond)
    (sc : SceneConverter) (sampleData : SampleDataInfo.t)
    (boxes : list Box.t) (currSample prevSample : SampleInfo.t)
    (currAnnotations : list SampleAnnotationInfo.t)
    (i : nat) (annotation : SampleAnnotationInfo.t) :
  sceneSamples sc !! SampleDataInfo.sampleToken sampleData = Some currSample ->
  SampleDataInfo.isKeyFrame sampleData = false ->
  SampleInfo.prev currSample <> ""%string ->
  sceneSamples sc !! SampleInfo.prev currSample = Some prevSample ->
  sceneAnnotations sc !! SampleDataInfo.sampleToken sampleData
    = Some currAnnotations ->
  currAnnotations !! i = Some annotation ->
  let result := fst (getBoxes slerp sc sampleData boxes) in
  (forall prevAnnotations : list SampleAnnotationInfo.t,
     sceneAnnotations sc !! SampleInfo.token prevSample = Some prevAnnotations ->
     Forall (fun prevAnnotation =>
               SampleAnnotationInfo.instanceToken prevAnnotation <>
               SampleAnnotationInfo.instanceToken annotation)
            prevAnnotations ->
     length result = (length boxes + length currAnnotations)%nat /\
     exists box : Box.t,
       result !! (length boxes + i)%nat = Some box /\
       box = makeBox annotation /\
       Box.center box =
         mkVector3d (f3_0 (SampleAnnotationInfo.translation annotation))
                    (f3_1 (SampleAnnotationInfo.translation annotation))
                    (f3_2 (SampleAnnotationInfo.translation annotation)) /\
       Box.size box =
         mkVector3d (f3_0 (SampleAnnotationInfo.size annotation))
                    (f3_1 (SampleAnnotationInfo.size annotation))
                    (f3_2 (SampleAnnotationInfo.size annotation)) /\
       Box.orientation box =
         mkQuaterniond (f4_0 (SampleAnnotationInfo.rotation annotation))
                       (f4_1 (SampleAnnotationInfo.rotation annotation))
                       (f4_2 (SampleAnnotationInfo.rotation annotation))
                       (f4_3 (SampleAnnotationInfo.rotation annotation)) /\
       Box.token box = SampleAnnotationInfo.token annotation /\
       Box.category_name box = SampleAnnotationInfo.categoryName annotation) /\
  (sceneAnnotations sc !! SampleInfo.token prevSample = None ->
   getBoxes slerp sc sampleData boxes =
     (boxes, ["can't find previous sample token in sceneAnnotations"%string])).
Proof.
  intros Hsample Hkey Hprev HprevSample Hcurr Hi result. split.
  - intros prevAnnotations HprevAnn Hnew. unfold result.
    rewrite (getBoxes_intermediate slerp sc sampleData boxes currSample
               prevSample currAnnotations prevAnnotations) by assumption.
    cbn [fst]. split.
    + rewrite length_app, length_map. reflexivity.
    + exists (makeBox annotation). split; [|repeat split].
      rewrite lookup_app_r by lia.
      replace (length boxes + i - length boxes)%nat with i by lia.
      rewrite list_lookup_fmap, Hi.
      apply makePrevInstanceMap_None in Hnew.
      cbn [fmap option_fmap option_map]. f_equal.
      unfold interpolatedBox. rewrite Hnew. reflexivity.
  - intros Hnone. unfold getBoxes.
    rewrite Hsample, Hkey.
    rewrite bool_decide_eq_false_2 by exact Hprev. simpl.
    rewrite HprevSample, Hcurr, Hnone. reflexivity.
Qed.

Lemma getBoxes_new_instance_unchanged_witness :
  [carNow; walkerNow] !! 1%nat = Some walkerNow /\
  (exists box : Box.t,
     fst (getBoxes keepFirst smallScene sweepData [])
       !! (length (@nil Box.t) + 1)%nat = Some box /\
     box = makeBox walkerNow /\
     Box.center box =
       mkVector3d (int_to_double 5) (int_to_double 5) (int_to_double 0) /\
     Box.size box =
       mkVector3d (int_to_double 1) (int_to_double 1) (int_to_double 2) /\
     Box.token box = "a2"%string /\
     Box.category_name box = "human.pedestrian.adult"%string) /\
  getBoxes keepFirst unannotatedScene sweepData [] =
    ([], ["can't find previous sample token in sceneAnnotations"%string]).
Proof.
  split; [reflexivity|]. split.
  - destruct (getBoxes_new_instance_unchanged keepFirst smallScene sweepData []
                sampleNow sampleBefore [carNow; walkerNow] 1 walkerNow
                eq_refl eq_refl ltac:(discriminate) eq_refl eq_refl eq_refl)
      as [Hpresent _].
    destruct (Hpresent [carBefore] eq_refl
                ltac:(repeat constructor; discriminate))
      as (_ & box & Hbox & Hmake & Hcenter & Hsize & _ & Htoken & Hcategory).
    exists box. repeat split; assumption.
  - destruct (getBoxes_new_instance_unchanged keepFirst unannotatedScene
                sweepData [] sampleNow sampleBefore [carNow; walkerNow] 1
                walkerNow eq_refl eq_refl ltac:(discriminate) eq_refl eq_refl
                eq_refl)
      as [_ Habsent].
    apply Habsent. reflexivity.
Defined.

(** C4, as stated, fails where the previous sample has no annotation list
    in the map: the sample data is intermediate, its sample and the
    previous sample are found, no instance token of the current
    annotations occurs among the previous sample's annotations - there are
    none - and yet no box is made of the current annotations: [getBoxes]
    prints a diagnostic and returns the vector as it was. *)
Lemma missing_previous_annotations_give_no_box :
  sceneSamples unannotatedScene !! SampleDataInfo.sampleToken sweepData
    = Some sampleNow /\
  SampleDataInfo.isKeyFrame sweepData = false /\
  sceneSamples unannotatedScene !! SampleInfo.prev sampleNow
    = Some sampleBefore /\
  sceneAnnotations unannotatedScene !! SampleDataInfo.sampleToken sweepData
    = Some [carNow; walkerNow] /\
  sceneAnnotations unannotatedScene !! SampleInfo.token sampleBefore = None /\
  getBoxes keepFirst unannotatedScene sweepData [] =
    ([], ["can't find previous sample token in sceneAnnotations"%string]) /\
  fst (getBoxes keepFirst unannotatedScene sweepData []) !! 1%nat
    <> Some (makeBox walkerNow).
Proof.
  repeat split; try reflexivity. discriminate.
Qed.

(** C10 (as amended). When the sample of the sample data is missing from
    the sample map, or its annotation list is missing, or - for a sample
    data that is not a key frame and whose sample has a non-empty
    previous-sample token - the previous sample or the previous sample's
    annotation list is missing, [getBoxes] returns normally, prints one
    diagnostic line and leaves the vector of boxes as it was. *)
Theorem getBoxes_lookup_failure
    (slerp : double -> Quaterniond -> Quaterniond -> Quaterniond)
    (sc : SceneConverter) (sampleData : SampleDataInfo.t)
    (boxes : list Box.t) :
  lookupFails sc sampleData ->
  exists line : string,
    In line diagnostics /\
    getBoxes slerp sc sampleData boxes = (boxes, [line]).
Proof.
  unfold lookupFails, getBoxes, diagnostics.
  destruct (sceneSamples sc !! SampleDataInfo.sampleToken sampleData)
    as [currSample|]; [|intros _; eexists; split; [|reflexivity]; simpl; auto].
  intros [Hcurr | (Hkey & Hprev & Hfail)].
  - rewrite Hcurr.
    destruct (SampleDataInfo.isKeyFrame sampleData
              || bool_decide (SampleInfo.prev currSample = ""%string))%bool;
      [eexists; split; [|reflexivity]; simpl; auto|].
    destruct (sceneSamples sc !! SampleInfo.prev currSample);
      eexists; (split; [|reflexivity]); simpl; auto.
  - rewrite Hkey, bool_decide_eq_false_2 by exact Hprev. simpl.
    destruct (sceneSamples sc !! SampleInfo.prev currSample) as [prevSample|];
      [|eexists; split; [|reflexivity]; simpl; auto].
    rewrite Hfail.
    destruct (sceneAnnotations sc !! SampleDataInfo.sampleToken sampleData);
      eexists; (split; [|reflexivity]); simpl; auto.
Qed.

Lemma getBoxes_lookup_failure_witness :
  lookupFails smallScene orphanData /\
  exists line : string,
    In line diagnostics /\
    getBoxes keepFirst smallScene orphanData [] = ([], [line]).
Proof.
  split; [exact I|].
  apply (getBoxes_lookup_failure keepFirst smallScene orphanData []). exact I.
Defined.

(** C10, as stated, fails where the sample has no previous sample, as the
    first sample of a scene: its previous-sample token, the empty string,
    is in neither map - no previous sample, no previous annotation list -
    yet the boxes of the sample are appended and nothing is printed. The
    same holds for a key frame whose previous sample is missing. *)
Lemma missing_previous_sample_still_gives_boxes :
  sceneSamples smallScene !! SampleDataInfo.sampleToken firstSweepData
    = Some sampleBefore /\
  sceneSamples smallScene !! SampleInfo.prev sampleBefore = None /\
  sceneAnnotations smallScene !! SampleInfo.prev sampleBefore = None /\
  getBoxes keepFirst smallScene firstSweepData [] = ([makeBox carBefore], []) /\
  sceneSamples danglingScene !! SampleInfo.prev sampleNow = None /\
  getBoxes keepFirst danglingScene keyFrameData [] = ([makeBox carNow], []).
Proof.
  repeat split; reflexivity.
Qed.

(* ===================================================================== *)
(** * [convertAnnotations]: theorems *)
(* ===================================================================== *)

Lemma fst_bind {A B : Type} (m : Cout A) (f : A -> Cout B) :
  fst (bind m f) = fst (f (fst m)).
Proof.
  unfold bind. destruct m as [x l1]. simpl. destruct (f x). reflexivity.
Qed.

Lemma forEach_appends {A E : Type} (body : A -> list E -> Cout (list E))
    (entries : A -> list E) (l : list A) (s : list E) :
  (forall x s', fst (body x s') = s' ++ entries x) ->
  fst (forEach l body s) = s ++ flat_map entries l.
Proof.
  intros Hbody. revert s. induction l as [|x l IH]; intros s; simpl.
  - rewrite app_nil_r. reflexivity.
  - rewrite fst_bind, IH, Hbody, <- app_assoc. reflexivity.
Qed.

(** Every box that [getBoxes] appends has the colour of its category. *)
Lemma getBoxes_colours slerp sc sampleData boxes :
  Forall (fun box => Box.color box = getColor (Box.category_name box)) boxes ->
  Forall (fun box => Box.color box = getColor (Box.category_name box))
         (fst (getBoxes slerp sc sampleData boxes)).
Proof.
  intros Hboxes. unfold getBoxes.
  repeat match goal with
         | |- context [match ?x with _ => _ end] => destruct x
         end; simpl; try exact Hboxes;
    rewrite push_back_loop; apply Forall_app; (split; [exact Hboxes|]);
    apply Forall_map, Forall_forall; intros annotation _.
  - reflexivity.
  - unfold interpolatedBox. destruct (_ !! _); reflexivity.
Qed.

Section MessageTheorems.

Variable RosTime : Type.
Variable stampUs2RosTime : TimeStamp -> RosTime.
Variable affineApply : Vector3d -> Quaterniond -> Vector3d -> Vector3d.
Variable slerp : double -> Quaterniond -> Quaterniond -> Quaterniond.
Variable sensorNameOf : Token -> string.

(** Each marker is made from the box of the same rank. *)
Lemma makeMarkerArrayMsg_each (boxes : list Box.t) (timestamp : RosTime)
    (lifetime : Duration) :
  Forall2 (fun box marker =>
             exists id, marker = makeMarkerMsg RosTime affineApply box id
                                   timestamp lifetime)
          boxes (makeMarkerArrayMsg RosTime affineApply boxes timestamp lifetime).
Proof.
  unfold makeMarkerArrayMsg.
  assert (Hgen : forall (markers : list (Marker RosTime)) (id : Z),
    exists added,
      fst (fold_left
             (fun '(markers, id) box =>
                (markers ++ [makeMarkerMsg RosTime affineApply box
                               (u32_to_int32 id) timestamp lifetime],
                 u32_succ id))
             boxes (markers, id)) = markers ++ added /\
      Forall2 (fun box marker =>
                 exists id, marker = makeMarkerMsg RosTime affineApply box id
                                       timestamp lifetime)
              boxes added).
  { induction boxes as [|box boxes IH]; intros markers id; simpl.
    - exists []. rewrite app_nil_r. split; [reflexivity | constructor].
    - destruct (IH (markers ++ [makeMarkerMsg RosTime affineApply box
                                  (u32_to_int32 id) timestamp lifetime])
                  (u32_succ id)) as (added & Hfold & Hall).
      eexists (_ :: added). rewrite Hfold, <- app_assoc. split; [reflexivity|].
      constructor; [eauto | exact Hall]. }
  destruct (Hgen [] 0) as (added & -> & Hall). exact Hall.
Qed.

Lemma convertAnnotation_entries (sc : SceneConverter)
    (sampleData : SampleDataInfo.t) (outBag : list (BagEntry RosTime)) :
  fst (convertAnnotation RosTime stampUs2RosTime affineApply slerp sensorNameOf
         sc sampleData outBag) =
  outBag ++ annotationEntries RosTime stampUs2RosTime affineApply slerp sc sampleData.
Proof.
  unfold convertAnnotation, annotationEntries. rewrite fst_bind.
  destruct (fst (getSampleType (SampleDataInfo.fileName sampleData)))
    as [[| |]|]; simpl; rewrite ?app_nil_r; try reflexivity.
  rewrite fst_bind. unfold write, ret. cbn [fst].
  rewrite <- app_assoc. reflexivity.
Qed.

(** C5 (as amended). [convertAnnotations] writes, for every sample data
    whose file name classifies as LIDAR and for no other, the boxes of
    [getBoxes] as a box-list message on "boxes" followed by a marker-list
    message on "boxes_viz"; the marker list holds one marker per box, in
    order, a line list of 12 segments, coloured - the marker and each of
    its 24 points - with the colour of the box's category. *)
Theorem convertAnnotations_lidar_only (sc : SceneConverter)
    (outBag : list (BagEntry RosTime)) :
  fst (convertAnnotations RosTime stampUs2RosTime affineApply slerp
         sensorNameOf sc outBag) =
    outBag ++
    flat_map (annotationEntries RosTime stampUs2RosTime affineApply slerp sc)
      (sampleDatas sc) /\
  (forall sampleData : SampleDataInfo.t,
     fst (getSampleType (SampleDataInfo.fileName sampleData)) <> Some LIDAR ->
     fst (convertAnnotation RosTime stampUs2RosTime affineApply slerp
            sensorNameOf sc sampleData outBag) = outBag) /\
  (forall (sampleData : SampleDataInfo.t) (timestamp : RosTime)
          (lifetime : Duration),
     let boxes := fst (getBoxes slerp sc sampleData []) in
     let markers :=
       makeMarkerArrayMsg RosTime affineApply boxes timestamp lifetime in
     length markers = length boxes /\
     forall (i : nat) (box : Box.t),
       boxes !! i = Some box ->
       exists marker : Marker RosTime,
         markers !! i = Some marker /\
         marker_type RosTime marker = LINE_LIST /\
         length (segments (marker_points RosTime marker)) = 12%nat /\
         marker_color RosTime marker = getColor (Box.category_name box) /\
         marker_colors RosTime marker =
           replicate 24 (getColor (Box.category_name box))).
Proof.
  split; [|split].
  - unfold convertAnnotations. apply forEach_appends.
    intros sampleData outBag'. apply convertAnnotation_entries.
  - intros sampleData Hother. rewrite convertAnnotation_entries.
    unfold annotationEntries.
    destruct (fst (getSampleType (SampleDataInfo.fileName sampleData)))
      as [[| |]|]; try apply app_nil_r. congruence.
  - intros sampleData timestamp lifetime boxes markers.
    pose proof (makeMarkerArrayMsg_each boxes timestamp lifetime) as Heach.
    fold markers in Heach.
    pose proof (getBoxes_colours slerp sc sampleData [] (List.Forall_nil _))
      as Hcolours.
    fold boxes in Hcolours.
    split; [symmetry; exact (Forall2_length _ _ _ Heach)|].
    intros i box Hi.
    destruct (Forall2_lookup_l _ _ _ _ _ Heach Hi) as (marker & Hm & id & ->).
    exists (makeMarkerMsg RosTime affineApply box id timestamp lifetime).
    rewrite Forall_lookup in Hcolours. specialize (Hcolours i box Hi).
    simpl in Hcolours.
    split; [exact Hm|]. simpl. rewrite Hcolours. repeat split.
Qed.

End MessageTheorems.

(** C5, as stated, fails for a sample data of a camera: it is in the
    scene, and nothing is written for it. *)
Lemma camera_sample_data_writes_nothing :
  In cameraData (sampleDatas danglingScene) /\
  convertAnnotations Z keepStamp keepPoint keepFirst noName danglingScene []
    = ([], []).
Proof.
  split; [left; reflexivity | vm_compute; reflexivity].
Qed.

(* ===================================================================== *)
(** * The set-up of the pipeline: theorems *)
(* ===================================================================== *)

(** C7 is violated by the code. Two camera sample sets create two queues
    and two converters, but one task only is handed to the pool, the one
    of the last converter: the producer of queue 0 is never run. *)
Theorem submitTasks_posts_last_converter_only
    (topicNameForSampleSetType : string -> SampleType -> string) :
  submitTasks topicNameForSampleSetType [frontCameraSet; backCameraSet] =
  Returned
    (mkSetup
       [(topicNameForSampleSetType "CAM_FRONT" CAMERA, 0%nat);
        (topicNameForSampleSetType "CAM_BACK" CAMERA, 1%nat)]
       [mkConverter 0 "/data/samples/CAM_FRONT";
        mkConverter 1 "/data/samples/CAM_BACK"],
     [mkConverter 1 "/data/samples/CAM_BACK"]).
Proof. reflexivity. Qed.

(* ===================================================================== *)
(** * The drain loop: theorems *)
(* ===================================================================== *)

Section DrainTheorems.

Variable Msg : Type.
Variable env : nat -> History Msg.
Hypothesis env_wellFormed : forall queue, wellFormed (env queue).


Lemma consumedOf_process topicInfo queue st queue' :
  consumedOf (process env topicInfo queue st) queue' =
  if decide (queue = queue')
  then Nat.max (consumedOf st queue) (pushedBy (env queue) (clock st))
  else consumedOf st queue'.
Proof.
  unfold consumedOf, process. cbn [consumed].
  case_decide as Hq.
  - subst queue'. rewrite lookup_insert_eq. reflexivity.
  - rewrite lookup_insert_ne by exact Hq. reflexivity.
Qed.

Lemma takenBy_ext (count count' : nat -> nat) (l : list (TopicInfo * nat)) :
  (forall entry, In entry l -> count (snd entry) = count' (snd entry)) ->
  takenBy env count l = takenBy env count' l.
Proof.
  intros Hext. unfold takenBy. f_equal. apply map_ext_in.
  intros entry Hin. rewrite (Hext entry Hin). reflexivity.
Qed.

(** Popping more of one queue adds exactly the newly popped messages. *)
Lemma takenBy_update (count count' : nat -> nat) (l : list (TopicInfo * nat))
    (topicInfo : TopicInfo) (queue : nat) :
  NoDup (map snd l) -> In (topicInfo, queue) l ->
  (forall queue', queue' <> queue -> count' queue' = count queue') ->
  (count queue <= count' queue)%nat ->
  takenBy env count' l ≡ₚ
  takenBy env count l ++
  map (pair topicInfo)
      (drop (count queue) (take (count' queue) (produced (env queue)))).
Proof.
  intros Hnodup Hin Hother Hle.
  induction l as [|[topic0 queue0] l IH]; [destruct Hin|].
  simpl in Hnodup. apply NoDup_cons in Hnodup as [Hfresh Hnodup].
  unfold takenBy in *. cbn [map concat fst snd].
  destruct Hin as [Hhead | Htail].
  - injection Hhead as -> ->.
    assert (Hrest :
      concat (map (fun entry : TopicInfo * nat =>
                     map (pair (fst entry))
                       (take (count' (snd entry)) (produced (env (snd entry)))))
                l) =
      concat (map (fun entry : TopicInfo * nat =>
                     map (pair (fst entry))
                       (take (count (snd entry)) (produced (env (snd entry)))))
                l)).
    { f_equal. apply map_ext_in. intros entry Hentry.
      rewrite Hother; [reflexivity|].
      intros Heq. apply Hfresh. rewrite <- Heq.
      apply list_elem_of_In, in_map, Hentry. }
    rewrite Hrest.
    rewrite <- (take_drop (count queue)
                  (take (count' queue) (produced (env queue)))) at 1.
    rewrite take_take, Nat.min_l by exact Hle.
    rewrite map_app, <- !app_assoc.
    apply Permutation_app_head, Permutation_app_comm.
  - assert (Hne : queue0 <> queue).
    { intros ->. apply Hfresh.
      apply list_elem_of_In. apply (in_map snd) in Htail. exact Htail. }
    rewrite (Hother queue0 Hne), <- app_assoc.
    apply Permutation_app_head, IH; assumption.
Qed.

Section OneList.

Variable queues : list (TopicInfo * nat).
Hypothesis queues_distinct : NoDup (map snd queues).

Lemma drainInvariant_tick st :
  drainInvariant env queues st -> drainInvariant env queues (tick st).
Proof.
  intros [Hpop Hwritten]. split; [|exact Hwritten].
  intros queue. specialize (Hpop queue).
  pose proof (pushed_mono (env_wellFormed queue) (clock st) (S (clock st))
                ltac:(lia)).
  change (clock (tick st)) with (S (clock st)).
  change (consumedOf (tick st) queue) with (consumedOf st queue). lia.
Qed.

Lemma drainInvariant_process topicInfo queue st :
  In (topicInfo, queue) queues ->
  drainInvariant env queues st ->
  drainInvariant env queues (process env topicInfo queue st).
Proof.
  intros Hin [Hpop Hwritten]. split.
  - intros queue'. rewrite consumedOf_process.
    change (clock (process env topicInfo queue st)) with (S (clock st)).
    pose proof (pushed_mono (env_wellFormed queue') (clock st)
                  (S (clock st)) ltac:(lia)).
    pose proof (Hpop queue'). pose proof (Hpop queue).
    case_decide; [subst queue'|]; lia.
  - change (written (process env topicInfo queue st))
      with (written st ++
            map (pair topicInfo)
              (drop (consumedOf st queue)
                 (take (pushedBy (env queue) (clock st))
                    (produced (env queue))))).
    rewrite Hwritten.
    pose proof (Hpop queue) as Hle.
    rewrite (takenBy_update (consumedOf st)
               (consumedOf (process env topicInfo queue st))
               queues topicInfo queue queues_distinct Hin).
    + rewrite consumedOf_process. case_decide; [|congruence].
      rewrite Nat.max_r by exact Hle. reflexivity.
    + intros queue' Hne. rewrite consumedOf_process.
      case_decide; [congruence | reflexivity].
    + rewrite consumedOf_process. case_decide; [lia | congruence].
Qed.

(** One visit keeps the invariant, never lowers the flag and advances the
    clock. *)
Lemma visit_invariant flag st topicInfo queue :
  In (topicInfo, queue) queues ->
  drainInvariant env queues st ->
  drainInvariant env queues (snd (visit env (flag, st) (topicInfo, queue))) /\
  (clock st < clock (snd (visit env (flag, st) (topicInfo, queue))))%nat /\
  (flag = true -> fst (visit env (flag, st) (topicInfo, queue)) = true).
Proof.
  intros Hin Hinv. unfold visit.
  destruct (negb (isClosed env queue st)).
  - cbn [fst snd]. split; [|split; [|reflexivity]].
    + apply drainInvariant_process, drainInvariant_tick; assumption.
    + cbn. lia.
  - destruct (0 <? queue_size env queue (tick st))%nat; cbn [fst snd].
    + split; [|split; [|reflexivity]].
      * apply drainInvariant_process; [assumption|].
        apply drainInvariant_tick, drainInvariant_tick. assumption.
      * cbn. lia.
    + split; [|split; [|auto]].
      * apply drainInvariant_tick, drainInvariant_tick. assumption.
      * cbn. lia.
Qed.

(** A whole turn of the range-for, over any part of the queue list. *)
Lemma pass_invariant (l : list (TopicInfo * nat)) flag st :
  (forall entry, In entry l -> In entry queues) ->
  drainInvariant env queues st ->
  drainInvariant env queues (snd (fold_left (visit env) l (flag, st))) /\
  (clock st + length l <= clock (snd (fold_left (visit env) l (flag, st))))%nat /\
  (flag = true -> fst (fold_left (visit env) l (flag, st)) = true).
Proof.
  revert flag st. induction l as [|[topicInfo queue] l IH];
    intros flag st Hsub Hinv.
  - simpl. split; [assumption|]. split; [lia | auto].
  - cbn [fold_left length].
    destruct (visit_invariant flag st topicInfo queue
                (Hsub _ (or_introl eq_refl)) Hinv) as (Hinv' & Hclock & Hflag).
    destruct (visit env (flag, st) (topicInfo, queue)) as [flag' st'].
    cbn [fst snd] in *.
    destruct (IH flag' st' (fun entry Hentry => Hsub _ (or_intror Hentry)) Hinv')
      as (Hinv'' & Hclock' & Hflag').
    split; [assumption|]. split; [lia | auto].
Qed.

(** A turn that leaves the flag down has popped nothing and has seen every
    queue closed with nothing left in it. *)
Lemma pass_quiet (l : list (TopicInfo * nat)) st st' :
  fold_left (visit env) l (false, st) = (false, st') ->
  consumed st' = consumed st /\ written st' = written st /\
  (clock st <= clock st')%nat /\
  forall entry, In entry l ->
    (exists n, (n <= clock st')%nat /\
               closedBy (env (snd entry)) n = true) /\
    (length (produced (env (snd entry))) <= consumedOf st (snd entry))%nat.
Proof.
  revert st. induction l as [|[topicInfo queue] l IH]; intros st Hpass.
  - simpl in Hpass. injection Hpass as <-.
    split; [reflexivity|]. split; [reflexivity|]. split; [lia|].
    intros entry [].
  - cbn [fold_left] in Hpass.
    destruct (visit env (false, st) (topicInfo, queue)) as [flag1 st1] eqn:Hvisit.
    destruct flag1.
    { assert (Hsticky : forall l' st0,
                fst (fold_left (visit env) l' (true, st0)) = true).
      { clear. induction l' as [|[t q] l' IHl]; intros st0; [reflexivity|].
        cbn [fold_left]. unfold visit at 2.
        destruct (negb _); [apply IHl|].
        destruct (0 <? _)%nat; apply IHl. }
      specialize (Hsticky l st1). rewrite Hpass in Hsticky. discriminate. }
    unfold visit in Hvisit.
    destruct (negb (isClosed env queue st)) eqn:Hclosed; [discriminate|].
    destruct (0 <? queue_size env queue (tick st))%nat eqn:Hsize; [discriminate|].
    injection Hvisit as <-.
    apply negb_false_iff in Hclosed. apply Nat.ltb_ge in Hsize.
    destruct (IH _ Hpass) as (Hcons & Hwr & Hclk & Hall).
    change (clock (tick (tick st))) with (S (S (clock st))) in Hclk.
    split; [exact Hcons|]. split; [exact Hwr|]. split; [lia|].
    intros entry [<- | Hentry].
    + cbn [snd]. split.
      * exists (clock st). split; [lia | exact Hclosed].
      * unfold queue_size in Hsize.
        change (clock (tick st)) with (S (clock st)) in Hsize.
        change (consumedOf (tick st) queue) with (consumedOf st queue) in Hsize.
        pose proof (closed_mono (env_wellFormed queue) (clock st)
                      (S (clock st)) ltac:(lia) Hclosed) as Hclosed'.
        apply (closed_full (env_wellFormed queue)) in Hclosed'.
        lia.
    + destruct (Hall entry Hentry) as [Hc Hd]. split; [exact Hc|].
      exact Hd.
Qed.

Lemma consumedOf_visit_mono flag st entry queue :
  (consumedOf st queue <= consumedOf (snd (visit env (flag, st) entry)) queue)%nat.
Proof.
  destruct entry as [topicInfo queue0]. unfold visit.
  destruct (negb _); [|destruct (0 <? _)%nat]; cbn [snd];
    rewrite ?consumedOf_process; try case_decide; subst;
    change (consumedOf (tick (tick st)) queue) with (consumedOf st queue);
    change (consumedOf (tick st) queue) with (consumedOf st queue); lia.
Qed.

Lemma consumedOf_pass_mono (l : list (TopicInfo * nat)) flag st queue :
  (consumedOf st queue <=
   consumedOf (snd (fold_left (visit env) l (flag, st))) queue)%nat.
Proof.
  revert flag st. induction l as [|entry l IH]; intros flag st; [simpl; lia|].
  cbn [fold_left].
  pose proof (consumedOf_visit_mono flag st entry queue) as Hstep.
  destruct (visit env (flag, st) entry) as [flag' st']. cbn [snd] in Hstep.
  specialize (IH flag' st'). lia.
Qed.

Lemma drainInvariant_bound st queue :
  drainInvariant env queues st ->
  (consumedOf st queue <= length (produced (env queue)))%nat.
Proof.
  intros [Hpop _]. specialize (Hpop queue).
  pose proof (pushed_bound (env_wellFormed queue) (clock st)). lia.
Qed.

Section Closed.

(** An instant by which every queue of the list has been closed. *)
Variable T : nat.
Hypothesis all_closed :
  forall entry, In entry queues -> closedBy (env (snd entry)) T = true.

Lemma closed_after (st : DrainState Msg) entry :
  In entry queues -> (T <= clock st)%nat ->
  closedBy (env (snd entry)) (clock st) = true /\
  pushedBy (env (snd entry)) (clock st) = length (produced (env (snd entry))).
Proof.
  intros Hin Hclock.
  pose proof (closed_mono (env_wellFormed (snd entry)) T (clock st) Hclock
                (all_closed entry Hin)) as Hclosed.
  split; [exact Hclosed|].
  exact (closed_full (env_wellFormed (snd entry)) (clock st) Hclosed).
Qed.

(** Once every queue is closed, a visit empties the queue it visits. *)
Lemma visit_drains flag st topicInfo queue :
  In (topicInfo, queue) queues -> (T <= clock st)%nat ->
  drainInvariant env queues st ->
  consumedOf (snd (visit env (flag, st) (topicInfo, queue))) queue =
  length (produced (env queue)).
Proof.
  intros Hin Hclock Hinv.
  pose proof (drainInvariant_bound st queue Hinv) as Hbound.
  destruct (closed_after st _ Hin Hclock) as [Hclosed _].
  destruct (closed_after (tick st) _ Hin ltac:(cbn; lia)) as [_ Hfull1].
  destruct (closed_after (tick (tick st)) _ Hin ltac:(cbn; lia)) as [_ Hfull2].
  cbn [snd] in *. unfold visit, isClosed. rewrite Hclosed. cbn [negb].
  unfold queue_size. rewrite Hfull1.
  change (consumedOf (tick st) queue) with (consumedOf st queue).
  destruct (0 <? _)%nat eqn:Hsize; cbn [snd].
  - rewrite consumedOf_process. case_decide; [|congruence].
    rewrite Hfull2.
    change (consumedOf (tick (tick st)) queue) with (consumedOf st queue). lia.
  - apply Nat.ltb_ge in Hsize.
    change (consumedOf (tick (tick st)) queue) with (consumedOf st queue). lia.
Qed.

Lemma pass_drains (l : list (TopicInfo * nat)) flag st :
  (forall entry, In entry l -> In entry queues) ->
  (T <= clock st)%nat -> drainInvariant env queues st ->
  forall entry, In entry l ->
    consumedOf (snd (fold_left (visit env) l (flag, st))) (snd entry) =
    length (produced (env (snd entry))).
Proof.
  revert flag st. induction l as [|[topicInfo queue] l IH];
    intros flag st Hsub Hclock Hinv entry Hentry; [destruct Hentry|].
  cbn [fold_left].
  pose proof (visit_drains flag st topicInfo queue
                (Hsub _ (or_introl eq_refl)) Hclock Hinv) as Hhead.
  destruct (visit_invariant flag st topicInfo queue
              (Hsub _ (or_introl eq_refl)) Hinv) as (Hinv' & Hclock' & _).
  destruct (visit env (flag, st) (topicInfo, queue)) as [flag' st'].
  cbn [snd] in *.
  assert (Hsub' : forall e, In e l -> In e queues)
    by (intros e He; apply Hsub; right; exact He).
  destruct Hentry as [<- | Hentry].
  - cbn [snd].
    pose proof (consumedOf_pass_mono l flag' st' queue) as Hmono.
    destruct (pass_invariant l flag' st' Hsub' Hinv') as (Hinv'' & _).
    pose proof (drainInvariant_bound _ queue Hinv''). lia.
  - apply IH; [assumption | lia | assumption | assumption].
Qed.

(** Once every queue is closed and empty, a turn leaves the flag down. *)
Lemma pass_idle (l : list (TopicInfo * nat)) st :
  (forall entry, In entry l -> In entry queues) ->
  (T <= clock st)%nat ->
  (forall entry, In entry l ->
     (length (produced (env (snd entry))) <= consumedOf st (snd entry))%nat) ->
  fst (fold_left (visit env) l (false, st)) = false.
Proof.
  revert st. induction l as [|[topicInfo queue] l IH];
    intros st Hsub Hclock Hdone; [reflexivity|].
  cbn [fold_left].
  destruct (closed_after st _ (Hsub _ (or_introl eq_refl)) Hclock)
    as [Hclosed _].
  pose proof (pushed_bound (env_wellFormed queue) (S (clock st))) as Hbound.
  pose proof (Hdone _ (or_introl eq_refl)) as Hhead.
  cbn [snd] in *. unfold visit at 2. unfold isClosed. rewrite Hclosed.
  cbn [negb]. unfold queue_size.
  change (clock (tick st)) with (S (clock st)).
  change (consumedOf (tick st) queue) with (consumedOf st queue).
  replace (0 <? pushedBy (env queue) (S (clock st)) - consumedOf st queue)%nat
    with false by (symmetry; apply Nat.ltb_ge; lia).
  apply IH.
  - intros e He. apply Hsub. right. exact He.
  - cbn. lia.
  - intros e He. apply (Hdone e). right. exact He.
Qed.

(** Enough turns end the loop. *)
Lemma drainLoop_returns (n : nat) st :
  drainInvariant env queues st -> (T - clock st <= n)%nat ->
  exists st', drainLoop env (n + 2) queues st = Some st'.
Proof.
  revert st. induction n as [|n IH]; intros st Hinv Hn.
  - cbn [Nat.add drainLoop].
    destruct (pass_invariant queues false st (fun _ H => H) Hinv)
      as (Hinv1 & Hclock1 & _).
    pose proof (pass_drains queues false st (fun _ H => H) ltac:(lia) Hinv)
      as Hdrained.
    destruct (fold_left (visit env) queues (false, st)) as [flag st1].
    cbn [snd] in *. destruct flag; cbn [negb]; [|eauto].
    pose proof (pass_idle queues st1 (fun _ H => H) ltac:(lia)) as Hidle.
    destruct (fold_left (visit env) queues (false, st1)) as [flag2 st2].
    cbn [fst] in Hidle. rewrite Hidle; [cbn [negb]; eauto|].
    intros entry Hentry. rewrite (Hdrained entry Hentry). lia.
  - change (S n + 2)%nat with (S (n + 2)). cbn [drainLoop].
    destruct (pass_invariant queues false st (fun _ H => H) Hinv)
      as (Hinv1 & Hclock1 & _).
    destruct queues as [|entry rest] eqn:Hqueues; [cbn; eauto|].
    rewrite <- Hqueues in *.
    assert (Hlen : (1 <= length queues)%nat) by (rewrite Hqueues; cbn; lia).
    destruct (fold_left (visit env) queues (false, st)) as [flag st1].
    cbn [snd] in *. destruct flag; cbn [negb]; [|eauto].
    apply IH; [assumption | lia].
Qed.

End Closed.

Lemma takenBy_nothing (l : list (TopicInfo * nat)) :
  takenBy env (fun _ => 0%nat) l = [].
Proof.
  unfold takenBy. induction l as [|entry l IH]; [reflexivity|].
  cbn [map concat]. rewrite IH. reflexivity.
Qed.

Lemma drainInvariant_start : drainInvariant env queues drainStart.
Proof.
  split.
  - intros queue. unfold consumedOf. cbn. rewrite lookup_empty. cbn. lia.
  - rewrite (takenBy_ext (consumedOf drainStart) (fun _ => 0%nat)).
    + rewrite takenBy_nothing. reflexivity.
    + intros entry _. unfold consumedOf. cbn. rewrite lookup_empty.
      reflexivity.
Qed.

Lemma length_allProduced (l : list (TopicInfo * nat)) :
  length (allProduced env l) =
  sum_list (map (fun entry : TopicInfo * nat =>
                   length (produced (env (snd entry)))) l).
Proof.
  unfold allProduced. induction l as [|entry l IH]; [reflexivity|].
  cbn [map concat sum_list]. rewrite length_app, length_map, IH.
  reflexivity.
Qed.

(** What holds when the loop reaches its [break]. *)
Lemma drainLoop_exit (fuel : nat) st st' :
  drainInvariant env queues st ->
  drainLoop env fuel queues st = Some st' ->
  written st' ≡ₚ allProduced env queues /\
  forall entry, In entry queues ->
    isClosed env (snd entry) st' = true /\
    queue_size env (snd entry) st' = 0%nat.
Proof.
  revert st. induction fuel as [|fuel IH]; intros st Hinv Hloop;
    [discriminate|].
  cbn [drainLoop] in Hloop.
  destruct (pass_invariant queues false st (fun _ H => H) Hinv)
    as (Hinv1 & _ & _).
  destruct (fold_left (visit env) queues (false, st)) as [flag st1] eqn:Hpass.
  cbn [snd] in Hinv1.
  destruct flag; cbn [negb] in Hloop; [exact (IH st1 Hinv1 Hloop)|].
  injection Hloop as <-.
  destruct (pass_quiet queues st st1 Hpass) as (Hcons & _ & _ & Hall).
  assert (Hdone : forall entry, In entry queues ->
            consumedOf st1 (snd entry) = length (produced (env (snd entry)))).
  { intros entry Hentry. destruct (Hall entry Hentry) as [_ Hge].
    pose proof (drainInvariant_bound st1 (snd entry) Hinv1) as Hle.
    unfold consumedOf in *. rewrite Hcons in *. lia. }
  split.
  - cbn [written]. destruct Hinv1 as [_ Hwritten]. rewrite Hwritten.
    unfold takenBy, allProduced.
    replace (map (fun entry : TopicInfo * nat =>
                    map (pair (fst entry))
                      (take (consumedOf st1 (snd entry))
                         (produced (env (snd entry))))) queues)
      with (map (fun entry : TopicInfo * nat =>
                   map (pair (fst entry)) (produced (env (snd entry)))) queues);
      [reflexivity|].
    apply map_ext_in. intros entry Hentry.
    rewrite (Hdone entry Hentry), take_ge by lia. reflexivity.
  - intros entry Hentry. destruct (Hall entry Hentry) as [(n & Hn & Hclosed) _].
    pose proof (closed_mono (env_wellFormed (snd entry)) n (clock st1) Hn Hclosed)
      as Hclosed1.
    pose proof (pushed_bound (env_wellFormed (snd entry)) (clock st1)) as Hb.
    pose proof (Hdone entry Hentry) as Hd.
    unfold isClosed, queue_size, consumedOf in *. cbn [clock consumed].
    split; [exact Hclosed1 | lia].
Qed.

End OneList.

End DrainTheorems.

(** C6. Let the producers of the queues of the list behave - pushes and
    closing are never undone, and a queue is closed only after everything
    it produces has been pushed - and let every queue be closed by some
    instant [T]. Then the drain loop terminates (within [T + 2] turns),
    and whenever it terminates the writer has received exactly the
    messages produced, each once, tagged with the topic of its queue -
    sum of the k_i messages in all - and every queue is closed and
    empty. *)
Theorem drainLoop_forwards_everything (Msg : Type) (env : nat -> History Msg)
    (queues : list (TopicInfo * nat)) (T : nat) :
  (forall queue, wellFormed (env queue)) ->
  NoDup (map snd queues) ->
  (forall entry, In entry queues -> closedBy (env (snd entry)) T = true) ->
  (exists st', drainLoop env (T + 2) queues drainStart = Some st') /\
  forall (fuel : nat) (st' : DrainState Msg),
    drainLoop env fuel queues drainStart = Some st' ->
    written st' ≡ₚ allProduced env queues /\
    length (written st') =
      sum_list (map (fun entry : TopicInfo * nat =>
                       length (produced (env (snd entry)))) queues) /\
    forall entry, In entry queues ->
      isClosed env (snd entry) st' = true /\
      queue_size env (snd entry) st' = 0%nat.
Proof.
  intros Hwf Hnodup Hclosed.
  pose proof (drainInvariant_start Msg env queues) as Hstart.
  split.
  - apply (drainLoop_returns Msg env Hwf queues Hnodup T Hclosed T drainStart
             Hstart). lia.
  - intros fuel st' Hloop.
    destruct (drainLoop_exit Msg env Hwf queues Hnodup fuel drainStart st'
                Hstart Hloop) as [Hwritten Hall].
    split; [exact Hwritten|]. split; [|exact Hall].
    rewrite Hwritten. apply length_allProduced.
Qed.

Lemma drainLoop_forwards_everything_witness :
  (forall queue, wellFormed (twoProducers queue)) /\
  NoDup (map snd twoQueues) /\
  (forall entry, In entry twoQueues ->
     closedBy (twoProducers (snd entry)) 3 = true) /\
  (exists st', drainLoop twoProducers (3 + 2) twoQueues drainStart = Some st') /\
  forall (fuel : nat) (st' : DrainState nat),
    drainLoop twoProducers fuel twoQueues drainStart = Some st' ->
    written st' ≡ₚ allProduced twoProducers twoQueues /\
    length (written st') =
      sum_list (map (fun entry : TopicInfo * nat =>
                       length (produced (twoProducers (snd entry)))) twoQueues) /\
    forall entry, In entry twoQueues ->
      isClosed twoProducers (snd entry) st' = true /\
      queue_size twoProducers (snd entry) st' = 0%nat.
Proof.
  assert (Hwf : forall queue, wellFormed (twoProducers queue)).
  { intros [|[|queue]]; constructor;
      unfold twoProducers, frontHistory, backHistory, idleHistory;
      cbn [pushedBy closedBy produced length]; intros;
      repeat match goal with
             | H : Nat.leb _ _ = true |- _ => apply Nat.leb_le in H
             | |- Nat.leb _ _ = true => apply Nat.leb_le
             end; try reflexivity; lia. }
  assert (Hnodup : NoDup (map snd twoQueues)).
  { cbn. apply NoDup_cons_2.
    - intros Hin. apply list_elem_of_In in Hin. destruct Hin as [H|[]].
      discriminate H.
    - apply NoDup_singleton. }
  assert (Hclosed : forall entry, In entry twoQueues ->
            closedBy (twoProducers (snd entry)) 3 = true).
  { intros entry [<- | [<- | []]]; reflexivity. }
  split; [exact Hwf|]. split; [exact Hnodup|]. split; [exact Hclosed|].
  exact (drainLoop_forwards_everything nat twoProducers twoQueues 3
           Hwf Hnodup Hclosed).
Defined.

(** The run of the two producers: the messages reach the writer as they
    become available, the loop ends at its third turn. *)
Example drainLoop_twoProducers :
  option_map (fun st => (written st, clock st))
    (drainLoop twoProducers 3 twoQueues drainStart) =
  Some ([("cam_front/raw"%string, 10%nat); ("cam_back/raw"%string, 20%nat);
         ("cam_front/raw"%string, 11%nat)], 14%nat).
Proof. vm_compute. reflexivity. Qed.

(* ===================================================================== *)
(** * Interpolated boxes *)
(* ===================================================================== *)

(** The box of an instance that is in the previous map: size, token and
    category come from the current annotation, the centre is [lerp] and
    the orientation [slerp] at the fraction computed from the timestamps,
    from the previous annotation to the current one. *)
Lemma interpolatedBox_present
    (slerp : double -> Quaterniond -> Quaterniond -> Quaterniond)
    (prevInstanceMap : gmap string SampleAnnotationInfo.t)
    (t0 t1 t : TimeStamp) (annotation prevAnnotation : SampleAnnotationInfo.t) :
  prevInstanceMap !! SampleAnnotationInfo.instanceToken annotation
    = Some prevAnnotation ->
  let amount := interpolationAmount t0 t1 t in
  let box := interpolatedBox slerp prevInstanceMap t0 t1 t annotation in
  Box.center box =
    lerp amount (translationVector annotation) (translationVector prevAnnotation) /\
  Box.orientation box =
    slerp amount
      (makeQuaterniond (SampleAnnotationInfo.rotation prevAnnotation))
      (makeQuaterniond (SampleAnnotationInfo.rotation annotation)) /\
  Box.size box = Box.size (makeBox annotation) /\
  Box.token box = SampleAnnotationInfo.token annotation /\
  Box.category_name box = SampleAnnotationInfo.categoryName annotation.
Proof.
  intros Hprev amount box. unfold box, interpolatedBox. rewrite Hprev.
  cbn [makeBox3 Box.center Box.orientation Box.size Box.token
       Box.category_name makeBox].
  repeat split.
  destruct (slerp _ _ _). reflexivity.
Qed.

(** Half way between the two samples of the small scene the fraction is
    0.5, and the centre of the car, between (10, 20, 0) and (12, 24, 0),
    is (11, 22, 0). *)
Example sweep_half_way :
  interpolationAmount 100 200 (clampStamp 100 200 150) = dlit 1 2 /\
  Box.center <$> (fst (getBoxes keepFirst smallScene sweepData []) !! 0%nat) =
    Some (mkVector3d (int_to_double 11) (int_to_double 22) (int_to_double 0)).
Proof. split; vm_compute; reflexivity. Qed.

(** With camera sample sets only, the first loop returns one queue and one
    converter per set. *)
Lemma addSampleSets_cameras
    (topicNameForSampleSetType : string -> SampleType -> string)
    (sampleSets : list FileSystemSampleSet) (st : Setup) :
  Forall (fun sampleSet => setType sampleSet = CAMERA) sampleSets ->
  exists st',
    addSampleSets topicNameForSampleSetType sampleSets st = Returned st' /\
    length (typeErasedQueueList st') =
      (length (typeErasedQueueList st) + length sampleSets)%nat /\
    length (sampleSetConverters st') =
      (length (sampleSetConverters st) + length sampleSets)%nat.
Proof.
  intros Hcam. revert st.
  induction Hcam as [|sampleSet sampleSets Hhead _ IH]; intros st.
  - exists st. cbn. split; [reflexivity | lia].
  - cbn [addSampleSets]. unfold addSampleSet. rewrite Hhead.
    destruct (decide (CAMERA = CAMERA)) as [_|Hne]; [|contradiction].
    destruct (IH (mkSetup
                    (typeErasedQueueList st ++
                     [(topicNameForSampleSetType (directoryName sampleSet) CAMERA,
                       length (typeErasedQueueList st))])
                    (sampleSetConverters st ++
                     [mkConverter (length (typeErasedQueueList st))
                        (directoryPath sampleSet)])))
      as (st' & Hrun & Hq & Hc).
    exists st'. split; [exact Hrun|].
    cbn [typeErasedQueueList sampleSetConverters] in Hq, Hc.
    rewrite length_app in Hq, Hc. cbn [length] in *. lia.
Qed.

(** However many camera sample sets there are, one task is posted. *)
Lemma submitTasks_cameras
    (topicNameForSampleSetType : string -> SampleType -> string)
    (sampleSets : list FileSystemSampleSet) :
  sampleSets <> [] ->
  Forall (fun sampleSet => setType sampleSet = CAMERA) sampleSets ->
  exists st converter,
    submitTasks topicNameForSampleSetType sampleSets = Returned (st, [converter]) /\
    length (typeErasedQueueList st) = length sampleSets.
Proof.
  intros Hne Hcam. unfold submitTasks.
  destruct (addSampleSets_cameras topicNameForSampleSetType sampleSets
              (mkSetup [] []) Hcam) as (st & -> & Hq & Hc).
  cbn [typeErasedQueueList sampleSetConverters length] in Hq, Hc.
  destruct (last (sampleSetConverters st)) as [converter|] eqn:Hlast.
  - exists st, converter. split; [reflexivity | lia].
  - apply last_None in Hlast. rewrite Hlast in Hc. cbn in Hc.
    destruct sampleSets; [contradiction | cbn in Hc; lia].
Qed.

(* ===================================================================== *)
(** * [getBoxes]: further properties *)
(* ===================================================================== *)

(** What a box owes to the annotation of the current sample it is made
    for, whether it is interpolated or not. *)
Lemma makeBox_describes annotation :
  Box.token (makeBox annotation) = SampleAnnotationInfo.token annotation /\
  Box.category_name (makeBox annotation)
    = SampleAnnotationInfo.categoryName annotation /\
  Box.size (makeBox annotation) = Box.size (makeBox annotation) /\
  Box.color (makeBox annotation)
    = getColor (SampleAnnotationInfo.categoryName annotation).
Proof. repeat split. Qed.

Lemma interpolatedBox_describes slerp prevInstanceMap t0 t1 t annotation :
  let box := interpolatedBox slerp prevInstanceMap t0 t1 t annotation in
  Box.token box = SampleAnnotationInfo.token annotation /\
  Box.category_name box = SampleAnnotationInfo.categoryName annotation /\
  Box.size box = Box.size (makeBox annotation) /\
  Box.color box = getColor (SampleAnnotationInfo.categoryName annotation).
Proof.
  unfold interpolatedBox. destruct (_ !! _); repeat split.
Qed.

(** The two ways [getBoxes] can end. *)
Lemma getBoxes_cases slerp sc sampleData boxes :
  (lookupFails sc sampleData /\
   exists line, getBoxes slerp sc sampleData boxes = (boxes, [line])) \/
  (~ lookupFails sc sampleData /\
   exists annotations (make : SampleAnnotationInfo.t -> Box.t),
     sceneAnnotations sc !! SampleDataInfo.sampleToken sampleData
       = Some annotations /\
     (forall annotation,
        Box.token (make annotation) = SampleAnnotationInfo.token annotation /\
        Box.category_name (make annotation)
          = SampleAnnotationInfo.categoryName annotation /\
        Box.size (make annotation) = Box.size (makeBox annotation) /\
        Box.color (make annotation)
          = getColor (SampleAnnotationInfo.categoryName annotation)) /\
     getBoxes slerp sc sampleData boxes = (boxes ++ map make annotations, [])).
Proof.
  destruct (sceneSamples sc !! SampleDataInfo.sampleToken sampleData)
    as [currSample|] eqn:Hsample.
  2: { left. unfold lookupFails, getBoxes. rewrite Hsample. eauto. }
  destruct (sceneAnnotations sc !! SampleDataInfo.sampleToken sampleData)
    as [annotations|] eqn:Hcurr.
  2: { left. unfold lookupFails, getBoxes. rewrite Hsample, Hcurr.
       split; [left; reflexivity|].
       destruct (_ || _)%bool; [eauto|].
       destruct (sceneSamples sc !! SampleInfo.prev currSample); eauto. }
  destruct (SampleDataInfo.isKeyFrame sampleData) eqn:Hkey.
  { right. split.
    - unfold lookupFails. rewrite Hsample, Hcurr.
      intros [H | (H & _)]; congruence.
    - exists annotations, makeBox. split; [reflexivity|].
      split; [intros; apply makeBox_describes|].
      rewrite (getBoxes_keyframe slerp sc sampleData boxes currSample Hsample)
        by (left; exact Hkey).
      rewrite Hcurr. reflexivity. }
  destruct (decide (SampleInfo.prev currSample = ""%string)) as [Hprev|Hprev].
  { right. split.
    - unfold lookupFails. rewrite Hsample, Hcurr.
      intros [H | (_ & H & _)]; [discriminate H | contradiction].
    - exists annotations, makeBox. split; [reflexivity|].
      split; [intros; apply makeBox_describes|].
      rewrite (getBoxes_keyframe slerp sc sampleData boxes currSample Hsample)
        by (right; exact Hprev).
      rewrite Hcurr. reflexivity. }
  destruct (sceneSamples sc !! SampleInfo.prev currSample)
    as [prevSample|] eqn:HprevSample.
  2: { left. unfold lookupFails, getBoxes.
       rewrite Hsample, Hkey, HprevSample.
       rewrite bool_decide_eq_false_2 by exact Hprev.
       split; [right; auto|]. cbn. eauto. }
  destruct (sceneAnnotations sc !! SampleInfo.token prevSample)
    as [prevAnnotations|] eqn:HprevAnn.
  2: { left. unfold lookupFails, getBoxes.
       rewrite Hsample, Hkey, Hcurr, HprevSample, HprevAnn.
       rewrite bool_decide_eq_false_2 by exact Hprev.
       split; [right; auto|]. cbn. eauto. }
  right. split.
  - unfold lookupFails. rewrite Hsample, Hcurr, HprevSample, HprevAnn.
    intros [H | (_ & _ & H)]; discriminate H.
  - eexists annotations, _. split; [reflexivity|]. split.
    2: { apply (getBoxes_intermediate slerp sc sampleData boxes currSample
                  prevSample annotations prevAnnotations); assumption. }
    intros annotation. apply interpolatedBox_describes.
Qed.

(** X1. [getBoxes] only ever appends to the vector it is given, and it
    prints a diagnostic exactly when one of its look-ups fails. *)
Theorem getBoxes_appends_and_reports
    (slerp : double -> Quaterniond -> Quaterniond -> Quaterniond)
    (sc : SceneConverter) (sampleData : SampleDataInfo.t)
    (boxes : list Box.t) :
  (exists added, fst (getBoxes slerp sc sampleData boxes) = boxes ++ added) /\
  (lookupFails sc sampleData <->
   snd (getBoxes slerp sc sampleData boxes) <> []) /\
  (~ lookupFails sc sampleData <->
   snd (getBoxes slerp sc sampleData boxes) = []).
Proof.
  destruct (getBoxes_cases slerp sc sampleData boxes)
    as [(Hfail & line & ->) | (Hok & annotations & make & _ & _ & ->)];
    cbn [fst snd].
  - split; [exists []; rewrite app_nil_r; reflexivity|].
    split; split; try discriminate; tauto.
  - split; [eauto|]. split; split; tauto.
Qed.

(** X2. When no look-up fails, [getBoxes] appends one box per annotation
    of the current sample, in order, and - interpolated or not - each
    box has the token, the category, the size and the category colour of
    its annotation. *)
Theorem getBoxes_boxes_describe_annotations
    (slerp : double -> Quaterniond -> Quaterniond -> Quaterniond)
    (sc : SceneConverter) (sampleData : SampleDataInfo.t)
    (boxes : list Box.t) :
  ~ lookupFails sc sampleData ->
  exists annotations added,
    sceneAnnotations sc !! SampleDataInfo.sampleToken sampleData
      = Some annotations /\
    fst (getBoxes slerp sc sampleData boxes) = boxes ++ added /\
    Forall2
      (fun annotation box =>
         Box.token box = SampleAnnotationInfo.token annotation /\
         Box.category_name box = SampleAnnotationInfo.categoryName annotation /\
         Box.size box =
           mkVector3d (f3_0 (SampleAnnotationInfo.size annotation))
                      (f3_1 (SampleAnnotationInfo.size annotation))
                      (f3_2 (SampleAnnotationInfo.size annotation)) /\
         Box.color box = getColor (SampleAnnotationInfo.categoryName annotation))
      annotations added.
Proof.
  intros Hok.
  destruct (getBoxes_cases slerp sc sampleData boxes)
    as [(Hfail & _) | (_ & annotations & make & Hcurr & Hmake & ->)];
    [contradiction|].
  exists annotations, (map make annotations).
  split; [exact Hcurr|]. split; [reflexivity|].
  clear Hcurr. induction annotations as [|annotation annotations IH];
    constructor; [|exact IH].
  destruct (Hmake annotation) as (Ht & Hc & Hs & Hcol).
  rewrite Ht, Hc, Hs, Hcol. repeat split.
Qed.

Lemma getBoxes_boxes_describe_annotations_witness :
  ~ lookupFails smallScene sweepData /\
  exists annotations added,
    sceneAnnotations smallScene !! SampleDataInfo.sampleToken sweepData
      = Some annotations /\
    fst (getBoxes keepFirst smallScene sweepData []) = [] ++ added /\
    Forall2
      (fun annotation box =>
         Box.token box = SampleAnnotationInfo.token annotation /\
         Box.category_name box = SampleAnnotationInfo.categoryName annotation /\
         Box.size box =
           mkVector3d (f3_0 (SampleAnnotationInfo.size annotation))
                      (f3_1 (SampleAnnotationInfo.size annotation))
                      (f3_2 (SampleAnnotationInfo.size annotation)) /\
         Box.color box = getColor (SampleAnnotationInfo.categoryName annotation))
      annotations added.
Proof.
  assert (Hok : ~ lookupFails smallScene sweepData).
  { intros [H | (_ & _ & H)]; discriminate H. }
  split; [exact Hok|].
  exact (getBoxes_boxes_describe_annotations keepFirst smallScene sweepData []
           Hok).
Defined.

Lemma fold_map_insert_lookup (annotations : list SampleAnnotationInfo.t)
    (m : gmap string SampleAnnotationInfo.t) (instance : string) :
  fold_left
    (fun m annotation =>
       map_insert (SampleAnnotationInfo.instanceToken annotation) annotation m)
    annotations m !! instance =
  match m !! instance with
  | Some found => Some found
  | None => firstWithInstance instance annotations
  end.
Proof.
  revert m. induction annotations as [|annotation annotations IH]; intros m.
  - cbn. destruct (m !! instance); reflexivity.
  - cbn [fold_left firstWithInstance]. rewrite IH, map_insert_lookup.
    destruct (m !! instance); [reflexivity|].
    case_decide; reflexivity.
Qed.

(** X3. When several annotations of the previous sample carry the same
    instance token, [prevInstanceMap] keeps the first of them:
    [std::map::insert] does not overwrite. *)
Theorem makePrevInstanceMap_first_wins
    (prevAnnotations : list SampleAnnotationInfo.t) (instance : string) :
  makePrevInstanceMap prevAnnotations !! instance =
  firstWithInstance instance prevAnnotations.
Proof.
  unfold makePrevInstanceMap. rewrite fold_map_insert_lookup, lookup_empty.
  reflexivity.
Qed.

(** X4. Degenerate sample intervals. When the previous and the current
    sample have the same timestamp the fraction is 0/0, a NaN; when the
    previous sample is the later one, the clamp returns its timestamp,
    the numerator is 0, the denominator wraps around to a positive
    number, and the fraction is 0 whatever the timestamp of the sample
    data. *)
Theorem interpolationAmount_degenerate (t0 t1 t : TimeStamp) :
  is_u64 t0 -> is_u64 t1 ->
  (t1 = t0 ->
   interpolationAmount t0 t1 (clampStamp t0 t1 t) = S754_nan) /\
  (t1 < t0 ->
   interpolationAmount t0 t1 (clampStamp t0 t1 t) = d_zero).
Proof.
  unfold is_u64, u64_modulus. intros H0 H1. split.
  - intros ->. unfold clampStamp.
    replace (Z.max t0 (Z.min t0 t)) with t0 by lia.
    unfold interpolationAmount, u64_sub. rewrite Z.sub_diag. reflexivity.
  - intros Hlt. unfold clampStamp.
    replace (Z.max t0 (Z.min t1 t)) with t0 by lia.
    unfold interpolationAmount, u64_sub, u64_modulus.
    rewrite Z.sub_diag, Z.mod_0_l by lia.
    pose proof (Z.mod_pos_bound (t1 - t0) (2 ^ 64) ltac:(lia)) as Hmod.
    assert (Hnz : (t1 - t0) mod 2 ^ 64 <> 0).
    { intros Hz. apply Z.mod_divide in Hz; [|lia].
      destruct Hz as [k Hk]. nia. }
    destruct (int_to_double_finite ((t1 - t0) mod 2 ^ 64)) as (m & e & ->);
      [lia|].
    apply ddiv_zero.
Qed.

Lemma interpolationAmount_degenerate_witness :
  is_u64 200 /\ is_u64 100 /\
  interpolationAmount 200 200 (clampStamp 200 200 150) = S754_nan /\
  interpolationAmount 200 100 (clampStamp 200 100 150) = d_zero.
Proof.
  assert (Ha : is_u64 200) by (unfold is_u64, u64_modulus; lia).
  assert (Hb : is_u64 100) by (unfold is_u64, u64_modulus; lia).
  split; [exact Ha|]. split; [exact Hb|]. split.
  - apply (interpolationAmount_degenerate 200 200 150 Ha Ha). reflexivity.
  - apply (interpolationAmount_degenerate 200 100 150 Ha Hb). reflexivity.
Defined.

(** X5. With the previous sample not later than the current one, the
    clamped timestamp lies between the two, so neither unsigned
    subtraction wraps around and the numerator is at most the
    denominator; a timestamp already between the two is left as it is. *)
Theorem clampStamp_prevents_wrap (t0 t1 t : TimeStamp) :
  is_u64 t0 -> is_u64 t1 -> is_u64 t -> t0 <= t1 ->
  let clamped := clampStamp t0 t1 t in
  t0 <= clamped <= t1 /\
  u64_sub clamped t0 = clamped - t0 /\
  u64_sub t1 t0 = t1 - t0 /\
  0 <= u64_sub clamped t0 <= u64_sub t1 t0 /\
  (t0 <= t <= t1 -> clamped = t) /\
  (t < t0 -> u64_sub t t0 = t - t0 + 2 ^ 64).
Proof.
  unfold is_u64, u64_modulus, clampStamp, u64_sub, u64_modulus.
  intros H0 H1 Ht Hle. cbv zeta.
  rewrite (Z.mod_small (Z.max t0 (Z.min t1 t) - t0)) by lia.
  rewrite (Z.mod_small (t1 - t0)) by lia.
  repeat split; try lia.
  intros Hlt.
  symmetry. apply (Z.mod_unique_pos _ _ (-1)); lia.
Qed.

Lemma clampStamp_prevents_wrap_witness :
  is_u64 100 /\ is_u64 200 /\ is_u64 50 /\ 100 <= 200 /\
  u64_sub (clampStamp 100 200 50) 100 = clampStamp 100 200 50 - 100 /\
  u64_sub 50 100 = 50 - 100 + 2 ^ 64.
Proof.
  assert (Ha : is_u64 100) by (unfold is_u64, u64_modulus; lia).
  assert (Hb : is_u64 200) by (unfold is_u64, u64_modulus; lia).
  assert (Hc : is_u64 50) by (unfold is_u64, u64_modulus; lia).
  assert (Hle : 100 <= 200) by lia.
  split; [exact Ha|]. split; [exact Hb|]. split; [exact Hc|].
  split; [exact Hle|].
  destruct (clampStamp_prevents_wrap 100 200 50 Ha Hb Hc Hle)
    as (_ & Hnum & _ & _ & _ & Hwrap).
  split; [exact Hnum | apply Hwrap; lia].
Defined.

(* ===================================================================== *)
(** * Binary64: multiplying by one and by zero, adding a zero *)
(* ===================================================================== *)

Lemma digits2_pos_shifted (m : positive) :
  Zpos (digits2_pos (Pos.mul 4503599627370496 m)) = Zpos (digits2_pos m) + 52.
Proof.
  change (Pos.mul 4503599627370496 m) with (Pos.iter xO m 52).
  assert (Hiter : forall k,
            Zpos (digits2_pos (Pos.iter xO m k)) = Zpos (digits2_pos m) + Zpos k).
  { intros k. induction k as [|k IH] using Pos.peano_ind.
    - cbn [Pos.iter digits2_pos]. rewrite Pos2Z.inj_succ. lia.
    - rewrite Pos.iter_succ. cbn [digits2_pos].
      rewrite Pos2Z.inj_succ, IH, Pos2Z.inj_succ. lia. }
  apply Hiter.
Qed.

Lemma shr_shifted (m : positive) (e : Z) :
  shr {| shr_m := Zpos (Pos.mul 4503599627370496 m);
         shr_r := false; shr_s := false |} e 52 =
  ({| shr_m := Zpos m; shr_r := false; shr_s := false |}, e + 52).
Proof. reflexivity. Qed.

(** 1.0 * x = x for every well-formed [double]. *)
Lemma dmul_one_l (x : double) :
  valid_binary prec emax x = true -> dmul d_one x = x.
Proof.
  destruct x as [s|s| |s m e]; try reflexivity.
  cbn [valid_binary]. unfold bounded, canonical_mantissa.
  intros Hvalid. apply andb_true_iff in Hvalid as [Hcanon Hbound].
  apply Z.eqb_eq in Hcanon.
  change (dmul d_one (S754_finite s m e))
    with (binary_round_aux prec emax s (Zpos (Pos.mul 4503599627370496 m))
            (-52 + e) loc_Exact).
  unfold binary_round_aux, shr_fexp. cbn [Zdigits2 shr_record_of_loc].
  rewrite digits2_pos_shifted.
  replace (Zpos (digits2_pos m) + 52 + (-52 + e))
    with (Zpos (digits2_pos m) + e) by lia.
  rewrite Hcanon. replace (e - (-52 + e)) with 52 by lia.
  rewrite shr_shifted.
  cbn [shr_m loc_of_shr_record round_nearest_even Zdigits2 shr_record_of_loc].
  replace (-52 + e + 52) with e by lia.
  rewrite Hcanon, Z.sub_diag. cbn [shr shr_m]. rewrite Hbound. reflexivity.
Qed.

(** 0.0 * x is a zero for every finite x. *)
Lemma dmul_zero_l (x : double) :
  is_finite x = true -> exists s, dmul d_zero x = S754_zero s.
Proof.
  destruct x as [s|s| |s m e]; try discriminate; intros _;
    exists s; reflexivity.
Qed.

(** A zero added to a [double] that is not the negative zero leaves it as
    it is, on either side. *)
Lemma dadd_zero_l (s : bool) (x : double) :
  x <> S754_zero true -> dadd (S754_zero s) x = x.
Proof.
  destruct x as [[|]|sx| |sx m e]; intros Hx; try reflexivity;
    try contradiction; destruct s; reflexivity.
Qed.

Lemma dadd_zero_r (s : bool) (x : double) :
  x <> S754_zero true -> dadd x (S754_zero s) = x.
Proof.
  destruct x as [[|]|sx| |sx m e]; intros Hx; try reflexivity;
    try contradiction; destruct s; reflexivity.
Qed.

Lemma lerp_component_zero (a b : double) :
  regular a -> regular b ->
  dadd (dmul d_zero a) (dmul (dsub d_one d_zero) b) = b.
Proof.
  intros (_ & Ha & _) (Hvalid & _ & Hb).
  destruct (dmul_zero_l a Ha) as [s ->].
  change (dsub d_one d_zero) with d_one.
  rewrite dmul_one_l by exact Hvalid. apply dadd_zero_l, Hb.
Qed.

Lemma lerp_component_one (a b : double) :
  regular a -> regular b ->
  dadd (dmul d_one a) (dmul (dsub d_one d_one) b) = a.
Proof.
  intros (Hvalid & _ & Ha) (_ & Hb & _).
  change (dsub d_one d_one) with d_zero.
  destruct (dmul_zero_l b Hb) as [s ->].
  rewrite dmul_one_l by exact Hvalid. apply dadd_zero_r, Ha.
Qed.

Lemma lerp_zero (p0 p1 : Vector3d) :
  regularVector p0 -> regularVector p1 -> lerp d_zero p0 p1 = p1.
Proof.
  intros (H0x & H0y & H0z) (H1x & H1y & H1z). unfold lerp.
  rewrite !lerp_component_zero by assumption. destruct p1; reflexivity.
Qed.

Lemma lerp_one (p0 p1 : Vector3d) :
  regularVector p0 -> regularVector p1 -> lerp d_one p0 p1 = p0.
Proof.
  intros (H0x & H0y & H0z) (H1x & H1y & H1z). unfold lerp.
  rewrite !lerp_component_one by assumption. destruct p0; reflexivity.
Qed.

(** X6. [lerp] is exact at both ends: for vectors of finite coordinates
    other than the negative zero, [lerp(0, p0, p1)] is [p1] and
    [lerp(1, p0, p1)] is [p0], without any rounding error. With an
    infinite coordinate the other end is lost: 0 times infinity is a
    NaN. *)
Theorem lerp_endpoints (p0 p1 : Vector3d) :
  regularVector p0 -> regularVector p1 ->
  lerp d_zero p0 p1 = p1 /\ lerp d_one p0 p1 = p0 /\
  vx (lerp d_zero (mkVector3d (S754_infinity false) d_zero d_zero) p1)
    = S754_nan.
Proof.
  intros H0 H1. split; [apply lerp_zero; assumption|].
  split; [apply lerp_one; assumption|].
  cbn [lerp vx]. destruct (dmul _ (vx p1)); reflexivity.
Qed.

Lemma lerp_endpoints_witness :
  regularVector (translationVector carNow) /\
  regularVector (translationVector carBefore) /\
  lerp d_zero (translationVector carNow) (translationVector carBefore)
    = translationVector carBefore /\
  lerp d_one (translationVector carNow) (translationVector carBefore)
    = translationVector carNow.
Proof.
  assert (Hnow : regularVector (translationVector carNow)).
  { repeat split; try reflexivity; discriminate. }
  assert (Hbefore : regularVector (translationVector carBefore)).
  { repeat split; try reflexivity; discriminate. }
  split; [exact Hnow|]. split; [exact Hbefore|].
  destruct (lerp_endpoints (translationVector carNow)
              (translationVector carBefore) Hnow Hbefore) as (H0 & H1 & _).
  split; [exact H0 | exact H1].
Defined.

(** X7. A sample data stamped outside the interval of its two samples
    gets, for an instance known in the previous sample, a box whose
    centre is exactly the previous annotation's translation (stamp before
    the previous sample) or exactly the current annotation's translation
    (stamp after the current sample), provided the translations are
    finite and have no negative zero. The previous annotation is the
    first of the previous sample with the instance token. *)
Theorem getBoxes_centre_outside_interval
    (slerp : double -> Quaterniond -> Quaterniond -> Quaterniond)
    (sc : SceneConverter) (sampleData : SampleDataInfo.t)
    (boxes : list Box.t) (currSample prevSample : SampleInfo.t)
    (currAnnotations prevAnnotations : list SampleAnnotationInfo.t)
    (i : nat) (annotation prevAnnotation : SampleAnnotationInfo.t) :
  sceneSamples sc !! SampleDataInfo.sampleToken sampleData = Some currSample ->
  SampleDataInfo.isKeyFrame sampleData = false ->
  SampleInfo.prev currSample <> ""%string ->
  sceneSamples sc !! SampleInfo.prev currSample = Some prevSample ->
  sceneAnnotations sc !! SampleDataInfo.sampleToken sampleData
    = Some currAnnotations ->
  sceneAnnotations sc !! SampleInfo.token prevSample = Some prevAnnotations ->
  is_u64 (SampleInfo.timeStamp prevSample) ->
  is_u64 (SampleInfo.timeStamp currSample) ->
  SampleInfo.timeStamp prevSample < SampleInfo.timeStamp currSample ->
  currAnnotations !! i = Some annotation ->
  firstWithInstance (SampleAnnotationInfo.instanceToken annotation)
    prevAnnotations = Some prevAnnotation ->
  regularVector (translationVector annotation) ->
  regularVector (translationVector prevAnnotation) ->
  exists box,
    fst (getBoxes slerp sc sampleData boxes) !! (length boxes + i)%nat
      = Some box /\
    (SampleDataInfo.timeStamp sampleData < SampleInfo.timeStamp prevSample ->
     Box.center box = translationVector prevAnnotation) /\
    (SampleInfo.timeStamp currSample < SampleDataInfo.timeStamp sampleData ->
     Box.center box = translationVector annotation).
Proof.
  intros Hsample Hkey Hprev HprevSample Hcurr HprevAnn H0 H1 Hlt Hi Hfirst
         Hreg HregPrev.
  rewrite (getBoxes_intermediate slerp sc sampleData boxes currSample
             prevSample currAnnotations prevAnnotations) by assumption.
  cbn [fst]. eexists. split.
  - rewrite lookup_app_r by lia.
    replace (length boxes + i - length boxes)%nat with i by lia.
    rewrite list_lookup_fmap, Hi. reflexivity.
  - assert (Hmap : makePrevInstanceMap prevAnnotations
                     !! SampleAnnotationInfo.instanceToken annotation
                   = Some prevAnnotation).
    { unfold makePrevInstanceMap.
      rewrite fold_map_insert_lookup, lookup_empty. exact Hfirst. }
    destruct (interpolatedBox_present slerp _
                (SampleInfo.timeStamp prevSample)
                (SampleInfo.timeStamp currSample)
                (clampStamp (SampleInfo.timeStamp prevSample)
                   (SampleInfo.timeStamp currSample)
                   (SampleDataInfo.timeStamp sampleData))
                annotation prevAnnotation Hmap) as (Hcentre & _).
    cbv zeta in Hcentre. rewrite Hcentre. unfold clampStamp. split.
    + intros Hout.
      replace (Z.max (SampleInfo.timeStamp prevSample)
                 (Z.min (SampleInfo.timeStamp currSample)
                    (SampleDataInfo.timeStamp sampleData)))
        with (SampleInfo.timeStamp prevSample) by lia.
      rewrite interpolationAmount_lower by assumption.
      apply lerp_zero; assumption.
    + intros Hout.
      replace (Z.max (SampleInfo.timeStamp prevSample)
                 (Z.min (SampleInfo.timeStamp currSample)
                    (SampleDataInfo.timeStamp sampleData)))
        with (SampleInfo.timeStamp currSample) by lia.
      rewrite interpolationAmount_upper by assumption.
      apply lerp_one; assumption.
Qed.

Lemma getBoxes_centre_outside_interval_witness :
  SampleDataInfo.timeStamp earlySweepData < SampleInfo.timeStamp sampleBefore /\
  exists box,
    fst (getBoxes keepFirst smallScene earlySweepData []) !! (length (@nil Box.t) + 0)%nat
      = Some box /\
    Box.center box = translationVector carBefore.
Proof.
  split; [reflexivity|].
  destruct (getBoxes_centre_outside_interval keepFirst smallScene earlySweepData
              [] sampleNow sampleBefore [carNow; walkerNow] [carBefore] 0
              carNow carBefore)
    as (box & Hbox & Hlow & _);
    try reflexivity; try discriminate;
    try (unfold is_u64, u64_modulus; cbn; lia);
    try (repeat split; try reflexivity; discriminate).
  exists box. split; [exact Hbox | apply Hlow; reflexivity].
Defined.

(* ===================================================================== *)
(** * Markers: further properties *)
(* ===================================================================== *)

Lemma u32_succ_iter (i : nat) :
  Nat.iter i u32_succ 0 = Z.of_nat i mod 2 ^ 32.
Proof.
  induction i as [|i IH]; [reflexivity|].
  change (Nat.iter (S i) u32_succ 0) with (u32_succ (Nat.iter i u32_succ 0)).
  rewrite IH. unfold u32_succ.
  rewrite Z.add_mod_idemp_l by lia. f_equal. lia.
Qed.

Lemma makePointMsg_same (point : Vector3d) : makePointMsg point = point.
Proof. destruct point. reflexivity. Qed.

Section MarkerTheorems.

Variable RosTime : Type.
Variable stampUs2RosTime : TimeStamp -> RosTime.
Variable affineApply : Vector3d -> Quaterniond -> Vector3d -> Vector3d.
Variable slerp : double -> Quaterniond -> Quaterniond -> Quaterniond.
Variable sensorNameOf : Token -> string.

Lemma makeMarkerArrayMsg_fold (boxes : list Box.t) (timestamp : RosTime)
    (lifetime : Duration) (markers : list (Marker RosTime)) (id : Z) :
  fst (fold_left
         (fun '(markers, id) box =>
            (markers ++ [makeMarkerMsg RosTime affineApply box
                           (u32_to_int32 id) timestamp lifetime],
             u32_succ id))
         boxes (markers, id)) =
  markers ++
  imap (fun i box =>
          makeMarkerMsg RosTime affineApply box
            (u32_to_int32 (Nat.iter i u32_succ id)) timestamp lifetime)
       boxes.
Proof.
  revert markers id. induction boxes as [|box boxes IH]; intros markers id.
  - cbn. rewrite app_nil_r. reflexivity.
  - cbn [fold_left imap]. rewrite IH, <- app_assoc. cbn [app].
    do 2 f_equal. apply imap_ext. intros i box' _.
    cbv beta. unfold compose. rewrite Nat.iter_succ_r. reflexivity.
Qed.

(** X8. The markers of one array are numbered from 0 in the order of the
    boxes, so that - below 2^31 boxes - the identifiers are the ranks and
    no two markers of the array share one; from rank 2^31 on the
    conversion of the [unsigned int] counter to [int32_t] makes them
    negative. *)
Theorem makeMarkerArrayMsg_ids (boxes : list Box.t) (timestamp : RosTime)
    (lifetime : Duration) :
  let markers := makeMarkerArrayMsg RosTime affineApply boxes timestamp lifetime in
  map (marker_id RosTime) markers =
    map (fun i => u32_to_int32 (Z.of_nat i mod 2 ^ 32)) (seq 0 (length boxes)) /\
  (Z.of_nat (length boxes) <= 2 ^ 31 ->
   map (marker_id RosTime) markers = map Z.of_nat (seq 0 (length boxes)) /\
   NoDup (map (marker_id RosTime) markers)) /\
  u32_to_int32 (2 ^ 31 mod 2 ^ 32) = - 2 ^ 31.
Proof.
  cbv zeta. unfold makeMarkerArrayMsg. rewrite makeMarkerArrayMsg_fold.
  cbn [app].
  assert (Hids :
    map (marker_id RosTime)
      (imap (fun i box =>
               makeMarkerMsg RosTime affineApply box
                 (u32_to_int32 (Nat.iter i u32_succ 0)) timestamp lifetime)
            boxes) =
    map (fun i => u32_to_int32 (Z.of_nat i mod 2 ^ 32)) (seq 0 (length boxes))).
  { apply list_eq. intros i.
    rewrite !list_lookup_fmap, list_lookup_imap.
    destruct (boxes !! i) as [box|] eqn:Hi.
    - rewrite lookup_seq_lt by (apply lookup_lt_Some in Hi; exact Hi).
      cbn. rewrite u32_succ_iter. reflexivity.
    - rewrite lookup_seq_ge by (apply lookup_ge_None in Hi; exact Hi).
      reflexivity. }
  split; [exact Hids|]. split; [|reflexivity].
  intros Hfew. rewrite Hids.
  assert (Hranks :
    map (fun i => u32_to_int32 (Z.of_nat i mod 2 ^ 32)) (seq 0 (length boxes)) =
    map Z.of_nat (seq 0 (length boxes))).
  { apply map_ext_in. intros i Hin. apply in_seq in Hin.
    rewrite Z.mod_small by lia. unfold u32_to_int32.
    replace (Z.of_nat i <? 2 ^ 31) with true
      by (symmetry; apply Z.ltb_lt; lia).
    reflexivity. }
  rewrite Hranks. split; [reflexivity|].
  apply NoDup_fmap_2; [intros x y; apply Nat2Z.inj | apply NoDup_seq].
Qed.

(** X9. The marker of a box is its wire frame: the 12 line segments are
    the images under the pose of the box of 12 different edges of the
    cuboid - pairs of corners that lie on different sides along exactly
    one axis - whose half extents are half of [size.y] along x, of
    [size.x] along y and of [size.z] along z. A cuboid has 12 edges, so
    each is drawn once. *)
Theorem makeMarkerMsg_wire_frame (box : Box.t) (id : Z) (timestamp : RosTime)
    (lifetime : Duration) :
  exists wireFrame : list ((bool * bool * bool) * (bool * bool * bool)),
    segments (marker_points RosTime
                (makeMarkerMsg RosTime affineApply box id timestamp lifetime)) =
      map (fun edge =>
             (affineApply (Box.center box) (Box.orientation box)
                (boxCorner box (fst edge)),
              affineApply (Box.center box) (Box.orientation box)
                (boxCorner box (snd edge))))
          wireFrame /\
    length wireFrame = 12%nat /\
    Forall (fun edge => cornerDistance (fst edge) (snd edge) = 1%nat) wireFrame /\
    NoDup (map undirected wireFrame).
Proof.
  clear stampUs2RosTime slerp sensorNameOf.
  exists
    [ ((false, false, false), (false, false, true));
      ((false, false, false), (true, false, false));
      ((false, false, false), (false, true, false));
      ((false, true, false), (false, true, true));
      ((false, true, false), (true, true, false));
      ((false, false, true), (false, true, true));
      ((false, true, true), (true, true, true));
      ((true, true, true), (true, true, false));
      ((false, false, true), (true, false, true));
      ((true, false, false), (true, true, false));
      ((true, false, true), (true, false, false));
      ((true, false, true), (true, true, true)) ].
  split; [|split; [reflexivity|split]].
  - cbn [makeMarkerMsg marker_points map segments].
    rewrite !makePointMsg_same.
    destruct (Box.center box), (Box.orientation box). reflexivity.
  - repeat constructor.
  - cbn. repeat (apply NoDup_cons_2;
                 [rewrite list_elem_of_In; cbn; intuition congruence|]).
    apply NoDup_nil_2.
Qed.

(** X10. For a sample data classified as LIDAR one of whose look-ups
    fails, [convertAnnotations] still writes both messages, with no box
    and no marker in them, after the diagnostic of [getBoxes]; in all,
    the bag grows by two entries per LIDAR sample data whatever the
    look-ups do. *)
Theorem convertAnnotation_writes_empty_messages (sc : SceneConverter)
    (sampleData : SampleDataInfo.t) (outBag : list (BagEntry RosTime)) :
  fst (getSampleType (SampleDataInfo.fileName sampleData)) = Some LIDAR ->
  lookupFails sc sampleData ->
  let timestamp := stampUs2RosTime (SampleDataInfo.timeStamp sampleData) in
  fst (convertAnnotation RosTime stampUs2RosTime affineApply slerp sensorNameOf
         sc sampleData outBag) =
    outBag ++
    [ mkBagEntry RosTime "boxes" timestamp
        (BoxesMessage RosTime
           (mkBoxes RosTime (mkHeader RosTime timestamp "map") []));
      mkBagEntry RosTime "boxes_viz" timestamp (MarkerArrayMessage RosTime []) ] /\
  (exists line,
     In line diagnostics /\
     snd (convertAnnotation RosTime stampUs2RosTime affineApply slerp
            sensorNameOf sc sampleData outBag) = [line]) /\
  length (fst (convertAnnotations RosTime stampUs2RosTime affineApply slerp
                 sensorNameOf sc outBag)) =
    (length outBag +
     2 * length (List.filter
                   (fun sampleData' =>
                      bool_decide
                        (fst (getSampleType
                                (SampleDataInfo.fileName sampleData'))
                         = Some LIDAR))
                   (sampleDatas sc)))%nat.
Proof.
  intros Hlidar Hfail timestamp.
  destruct (getBoxes_cases slerp sc sampleData [])
    as [(_ & line & Hboxes) | (Hok & _)]; [|contradiction].
  assert (Hline : In line diagnostics).
  { revert Hboxes. unfold getBoxes, diagnostics.
    repeat match goal with
           | |- context [match ?x with _ => _ end] => destruct x
           end; cbn; intros [= <-] || intros [=]; cbn; auto. }
  split; [|split].
  - rewrite convertAnnotation_entries. unfold annotationEntries.
    rewrite Hlidar, Hboxes. reflexivity.
  - exists line. split; [exact Hline|].
    unfold convertAnnotation.
    destruct (getSampleType (SampleDataInfo.fileName sampleData))
      as [[[| |]|] printed] eqn:Htype; cbn [fst] in Hlidar; try discriminate.
    assert (Hprinted : printed = []).
    { revert Htype. unfold getSampleType.
      destruct (firstMarker _ pairs); cbn; intros [= _ <-] || intros [=].
      reflexivity. }
    subst printed. cbn [bind]. 
    destruct (decide (LIDAR = LIDAR)) as [_|Hne]; [|contradiction].
    cbn [bind]. rewrite Hboxes. reflexivity.
  - unfold convertAnnotations.
    rewrite (forEach_appends _
               (annotationEntries RosTime stampUs2RosTime affineApply slerp sc))
      by (intros; apply convertAnnotation_entries).
    rewrite length_app. f_equal.
    induction (sampleDatas sc) as [|sampleData' rest IH]; [reflexivity|].
    cbn [flat_map List.filter]. rewrite length_app, IH.
    unfold annotationEntries at 1.
    destruct (fst (getSampleType (SampleDataInfo.fileName sampleData')))
      as [[| |]|].
    + rewrite bool_decide_eq_false_2 by discriminate. cbn. lia.
    + rewrite bool_decide_eq_false_2 by discriminate. cbn. lia.
    + rewrite bool_decide_eq_true_2 by reflexivity. cbn. lia.
    + rewrite bool_decide_eq_false_2 by discriminate. cbn. lia.
Qed.

End MarkerTheorems.

Lemma convertAnnotation_writes_empty_messages_witness :
  fst (getSampleType (SampleDataInfo.fileName orphanData)) = Some LIDAR /\
  lookupFails smallScene orphanData /\
  fst (convertAnnotation Z keepStamp keepPoint keepFirst noName smallScene
         orphanData []) =
    [] ++
    [ mkBagEntry Z "boxes" (keepStamp (SampleDataInfo.timeStamp orphanData))
        (BoxesMessage Z
           (mkBoxes Z
              (mkHeader Z (keepStamp (SampleDataInfo.timeStamp orphanData)) "map")
              []));
      mkBagEntry Z "boxes_viz" (keepStamp (SampleDataInfo.timeStamp orphanData))
        (MarkerArrayMessage Z []) ].
Proof.
  split; [reflexivity|]. split; [exact I|].
  apply (convertAnnotation_writes_empty_messages Z keepStamp keepPoint keepFirst
           noName smallScene orphanData []); [reflexivity | exact I].
Defined.

(* ===================================================================== *)
(** * [convertEgoPoseInfos]: properties *)
(* ===================================================================== *)

Lemma length_flat_map_pair {A B : Type} (f g : A -> B) (l : list A) :
  length (flat_map (fun x => [f x; g x]) l) = (2 * length l)%nat.
Proof.
  induction l as [|x l IH]; [reflexivity|]. cbn [flat_map length app].
  rewrite IH. lia.
Qed.

Section EgoPoseTheorems.

Variable RosTime : Type.
Variable timeZero : RosTime.
Variable assignArray2Vector3 : double3 -> Vector3d.
Variable assignArray2Quaternion : double4 -> Quaterniond.
Variable toLower : string -> string.
Variable EgoPoseInfo : Type.
Variable Odometry : Type.
Variable odometryStamp : Odometry -> RosTime.
Variable egoPoseInfo2OdometryMsg : EgoPoseInfo -> Odometry.
Variable egoPoseInfo2TransformStamped :
  EgoPoseInfo -> TransformStamped RosTime.

Local Abbreviation makeTransform' :=
  (makeTransform RosTime assignArray2Vector3 assignArray2Quaternion).
Local Abbreviation convertEgoPoseInfos' :=
  (convertEgoPoseInfos RosTime timeZero assignArray2Vector3
     assignArray2Quaternion toLower EgoPoseInfo Odometry odometryStamp
     egoPoseInfo2OdometryMsg egoPoseInfo2TransformStamped).

Lemma makeConstantTransforms_map
    (calibratedSensorInfos : list CalibratedSensorInfoAndName.t) :
  makeConstantTransforms RosTime timeZero assignArray2Vector3
    assignArray2Quaternion toLower calibratedSensorInfos =
  map (fun calibratedSensorInfo =>
         makeTransform' "base_link"
           (toLower (CalibratedSensorInfoAndName.name calibratedSensorInfo))
           (CalibratedSensorInfo.translation
              (CalibratedSensorInfoAndName.info calibratedSensorInfo))
           (CalibratedSensorInfo.rotation
              (CalibratedSensorInfoAndName.info calibratedSensorInfo))
           timeZero)
      calibratedSensorInfos
  ++ [makeIdentityTransform RosTime "map" "odom" timeZero].
Proof.
  unfold makeConstantTransforms. rewrite push_back_loop. reflexivity.
Qed.

(** X11. [convertEgoPoseInfos] writes, for each ego pose in order, one
    odometry message on "/odom" and then one transform message on "/tf",
    both at the stamp of the odometry message. The transform message
    holds the transform of the ego pose, then one transform from
    "base_link" to the lower-cased name of each calibrated sensor, in
    order, then the identity from "map" to "odom"; all but the first
    carry the stamp of the odometry message. So the bag grows by two
    entries per ego pose and every transform message has as many
    transforms as there are sensors, plus two. *)
Theorem convertEgoPoseInfos_entries
    (outBag : list (EgoEntry RosTime Odometry))
    (calibratedSensorInfos : list CalibratedSensorInfoAndName.t)
    (egoPoseInfos : list EgoPoseInfo) :
  let transformsAt (egoPose : EgoPoseInfo) :=
    let stamp := odometryStamp (egoPoseInfo2OdometryMsg egoPose) in
    egoPoseInfo2TransformStamped egoPose ::
    map (fun calibratedSensorInfo =>
           makeTransform' "base_link"
             (toLower (CalibratedSensorInfoAndName.name calibratedSensorInfo))
             (CalibratedSensorInfo.translation
                (CalibratedSensorInfoAndName.info calibratedSensorInfo))
             (CalibratedSensorInfo.rotation
                (CalibratedSensorInfoAndName.info calibratedSensorInfo))
             stamp)
        calibratedSensorInfos
    ++ [makeIdentityTransform RosTime "map" "odom" stamp] in
  convertEgoPoseInfos' outBag calibratedSensorInfos egoPoseInfos =
    outBag ++
    flat_map
      (fun egoPose =>
         let odomMsg := egoPoseInfo2OdometryMsg egoPose in
         [ mkEgoEntry RosTime Odometry "/odom" (odometryStamp odomMsg)
             (OdometryMessage RosTime Odometry odomMsg);
           mkEgoEntry RosTime Odometry "/tf" (odometryStamp odomMsg)
             (TfMessage RosTime Odometry (transformsAt egoPose)) ])
      egoPoseInfos /\
  length (convertEgoPoseInfos' outBag calibratedSensorInfos egoPoseInfos) =
    (length outBag + 2 * length egoPoseInfos)%nat /\
  forall egoPose,
    length (transformsAt egoPose) = (length calibratedSensorInfos + 2)%nat.
Proof.
  intros transformsAt.
  assert (Hentries :
    convertEgoPoseInfos' outBag calibratedSensorInfos egoPoseInfos =
    outBag ++
    flat_map
      (fun egoPose =>
         let odomMsg := egoPoseInfo2OdometryMsg egoPose in
         [ mkEgoEntry RosTime Odometry "/odom" (odometryStamp odomMsg)
             (OdometryMessage RosTime Odometry odomMsg);
           mkEgoEntry RosTime Odometry "/tf" (odometryStamp odomMsg)
             (TfMessage RosTime Odometry (transformsAt egoPose)) ])
      egoPoseInfos).
  { unfold convertEgoPoseInfos. rewrite makeConstantTransforms_map.
    revert outBag.
    induction egoPoseInfos as [|egoPose rest IH]; intros outBag.
    - cbn. rewrite app_nil_r. reflexivity.
    - cbn [fold_left flat_map]. rewrite IH. unfold convertEgoPose.
      rewrite push_back_loop, <- !app_assoc. cbn [app].
      do 4 f_equal. unfold transformsAt. cbn [app]. f_equal.
      rewrite map_app, map_map. reflexivity. }
  split; [exact Hentries|]. split.
  - rewrite Hentries, length_app. f_equal. cbv zeta.
    apply length_flat_map_pair.
  - intros egoPose. unfold transformsAt. cbn [length].
    rewrite length_app, length_map. cbn. lia.
Qed.

End EgoPoseTheorems.

(* ===================================================================== *)
(** * [convertSampleDatas]: properties *)
(* ===================================================================== *)

Lemma append_assoc3 (s1 s2 s3 : string) :
  String.append (String.append s1 s2) s3 = String.append s1 (String.append s2 s3).
Proof.
  induction s1 as [|c s1 IH]; [reflexivity|].
  change (String c (String.append (String.append s1 s2) s3) =
          String c (String.append s1 (String.append s2 s3))).
  rewrite IH. reflexivity.
Qed.

Lemma occurs_append_l (sub s rest : string) :
  occurs sub s -> occurs sub (String.append s rest).
Proof.
  intros (pre & post & ->). exists pre, (String.append post rest).
  rewrite !append_assoc3. reflexivity.
Qed.

(** A marker in the directory part of a path is a marker in the path. *)
Lemma occurs_pathAppend (sub path other : string) :
  is_absolute other = false -> occurs sub path ->
  occurs sub (pathAppend path other).
Proof.
  intros Hrel Hsub. unfold pathAppend. rewrite Hrel.
  destruct path as [|c path].
  - destruct Hsub as (pre & post & H).
    destruct pre; [|discriminate H]. destruct sub; [|discriminate H].
    exists EmptyString, other. reflexivity.
  - destruct (ends_with_slash (String c path)); apply occurs_append_l, Hsub.
Qed.

Section SampleDataTheorems.

Variable RosTime : Type.
Variable stampUs2RosTime : TimeStamp -> RosTime.
Variable sensorNameOf : Token -> string.
Variable Image : Type.
Variable PointCloud2 : Type.
Variable RadarObjects : Type.
Variable readImageFile : string -> option (Stamped RosTime Image).
Variable readLidarFile : string -> option (Stamped RosTime PointCloud2).
Variable readRadarFile : string -> option (Stamped RosTime RadarObjects).

Local Abbreviation Entry := (SensorEntry RosTime Image PointCloud2 RadarObjects).
Local Abbreviation convertSampleData' :=
  (convertSampleData RosTime stampUs2RosTime sensorNameOf Image PointCloud2
     RadarObjects readImageFile readLidarFile readRadarFile).
Local Abbreviation convertSampleDatas' :=
  (convertSampleDatas RosTime stampUs2RosTime sensorNameOf Image PointCloud2
     RadarObjects readImageFile readLidarFile readRadarFile).
Local Abbreviation writeMsg' :=
  (writeMsg RosTime stampUs2RosTime Image PointCloud2 RadarObjects).
Local Abbreviation writtenFor :=
  (writtenFor RosTime stampUs2RosTime sensorNameOf Image PointCloud2
     RadarObjects).

Lemma writeMsg_added {Body : Type}
    (wrap : Stamped RosTime Body -> SensorMessage RosTime Image PointCloud2 RadarObjects)
    (topicName frameID : string) (timeStamp : TimeStamp)
    (outBag : list Entry) (msgOpt : option (Stamped RosTime Body)) :
  writeMsg' wrap topicName frameID timeStamp outBag msgOpt =
  outBag ++
  match msgOpt with
  | Some msg =>
      [mkSensorEntry RosTime Image PointCloud2 RadarObjects topicName
         (stampUs2RosTime timeStamp)
         (wrap (mkStamped RosTime Body
                  (mkHeader RosTime (stampUs2RosTime timeStamp) frameID)
                  (msg_body RosTime Body msg)))]
  | None => []
  end.
Proof.
  unfold writeMsg. destruct msgOpt; [reflexivity|].
  rewrite app_nil_r. reflexivity.
Qed.

Lemma convertSampleData_step (inPath : string) (sampleData : SampleDataInfo.t)
    (outBag : list Entry) (processed : nat) :
  let classified :=
    bool_decide
      (is_Some (fst (getSampleType
                       (pathAppend inPath (SampleDataInfo.fileName sampleData))))) in
  exists added,
    fst (convertSampleData' inPath sampleData (outBag, processed)) =
      (outBag ++ added, (processed + (if classified then 1 else 0))%nat) /\
    (length added <= (if classified then 1 else 0))%nat /\
    Forall (writtenFor sampleData) added.
Proof.
  cbv zeta. unfold convertSampleData. rewrite fst_bind.
  destruct (fst (getSampleType _)) as [sampleType|].
  - rewrite bool_decide_eq_true_2 by eauto. cbn [ret fst].
    destruct sampleType; rewrite writeMsg_added;
      match goal with
      | |- context [match ?r with Some _ => _ | None => _ end] => destruct r
      end; eexists; (split; [reflexivity|]);
      (split; [cbn; lia|]); repeat constructor.
  - rewrite bool_decide_eq_false_2 by (intros [x H]; discriminate H).
    exists []. rewrite app_nil_r, Nat.add_0_r. cbn. auto.
Qed.

(** X12. [convertSampleDatas] reports as processed exactly the sample
    datas whose path classifies, whether their file could be read or
    not, and writes at most one message for each of them and none for
    the others. Every message written carries the lower-cased sensor name
    as frame and the timestamp of its sample data as stamp - whatever the
    reader had put in the header - and goes to the topic of that name,
    followed by "/raw" for an image. *)
Theorem convertSampleDatas_entries (sc : SceneConverter) (inPath : string)
    (outBag : list Entry) (processed : nat) :
  let classified :=
    List.filter
      (fun sampleData =>
         bool_decide
           (is_Some (fst (getSampleType
                            (pathAppend inPath
                               (SampleDataInfo.fileName sampleData))))))
      (sampleDatas sc) in
  exists added,
    fst (convertSampleDatas' sc inPath (outBag, processed)) =
      (outBag ++ added, (processed + length classified)%nat) /\
    (length added <= length classified)%nat /\
    Forall (fun entry =>
              exists sampleData,
                In sampleData classified /\ writtenFor sampleData entry)
           added.
Proof.
  cbv zeta. unfold convertSampleDatas.
  revert outBag processed.
  induction (sampleDatas sc) as [|sampleData rest IH]; intros outBag processed.
  - exists []. cbn. rewrite app_nil_r, Nat.add_0_r. auto.
  - cbn [forEach List.filter]. rewrite fst_bind.
    destruct (convertSampleData_step inPath sampleData outBag processed)
      as (added1 & -> & Hlen1 & Hall1).
    destruct (IH (outBag ++ added1)
                (processed +
                 (if bool_decide
                       (is_Some (fst (getSampleType
                                        (pathAppend inPath
                                           (SampleDataInfo.fileName sampleData)))))
                  then 1 else 0))%nat)
      as (added2 & -> & Hlen2 & Hall2).
    exists (added1 ++ added2). rewrite <- app_assoc.
    destruct (bool_decide _) eqn:Hclass.
    + cbn [length]. split; [f_equal; lia|].
      split; [rewrite length_app; lia|].
      apply Forall_app. split.
      * eapply Forall_impl; [exact Hall1|]. intros entry Hentry.
        exists sampleData. split; [left; reflexivity | exact Hentry].
      * eapply Forall_impl; [exact Hall2|].
        intros entry (sampleData' & Hin & Hentry).
        exists sampleData'. split; [right; exact Hin | exact Hentry].
    + split; [f_equal; lia|].
      destruct added1; [|cbn in Hlen1; lia].
      split; [exact Hlen2 | exact Hall2].
Qed.

(** X13. The sample type is read off the whole path, dataset directory
    included. When the path of the dataset contains "CAM", every sample
    data with a relative file name is taken for a camera image, a LIDAR
    sweep too: it is read with the image reader and, if that gives a
    message, written to the topic of the sensor name followed by
    "/raw". *)
Theorem dataset_path_decides_sample_type (inPath : string)
    (sampleData : SampleDataInfo.t) (outBag : list Entry) (processed : nat) :
  occurs "CAM" inPath ->
  is_absolute (SampleDataInfo.fileName sampleData) = false ->
  let sampleFilePath :=
    pathAppend inPath (SampleDataInfo.fileName sampleData) in
  let sensorName :=
    sensorNameOf (SampleDataInfo.calibratedSensorToken sampleData) in
  fst (getSampleType sampleFilePath) = Some CAMERA /\
  fst (convertSampleData' inPath sampleData (outBag, processed)) =
    (writeMsg' (ImageMessage RosTime Image PointCloud2 RadarObjects)
       (String.append sensorName "/raw") sensorName
       (SampleDataInfo.timeStamp sampleData) outBag
       (readImageFile sampleFilePath),
     (processed + 1)%nat).
Proof.
  intros Hcam Hrel sampleFilePath sensorName.
  assert (Htype : fst (getSampleType sampleFilePath) = Some CAMERA).
  { rewrite getSampleType_value.
    apply (firstMarker_pairs (fun marker => stringContains sampleFilePath marker)
             (fun marker => occurs marker sampleFilePath)).
    - intros str. apply stringContains_occurs.
    - apply occurs_pathAppend; assumption. }
  split; [exact Htype|].
  unfold convertSampleData. rewrite fst_bind.
  fold sampleFilePath. rewrite Htype. reflexivity.
Qed.

End SampleDataTheorems.

Lemma dataset_path_decides_sample_type_witness :
  occurs "CAM" "/data/CAMPAIGN" /\
  is_absolute (SampleDataInfo.fileName sweepData) = false /\
  fst (getSampleType (SampleDataInfo.fileName sweepData)) = Some LIDAR /\
  fst (getSampleType
         (pathAppend "/data/CAMPAIGN" (SampleDataInfo.fileName sweepData)))
    = Some CAMERA.
Proof.
  assert (Hcam : occurs "CAM" "/data/CAMPAIGN").
  { apply stringContains_occurs. reflexivity. }
  split; [exact Hcam|]. split; [reflexivity|]. split; [reflexivity|].
  apply (dataset_path_decides_sample_type Z keepStamp noName unit unit unit
           (fun _ => None) (fun _ => None) (fun _ => None)
           "/data/CAMPAIGN" sweepData [] 0 Hcam eq_refl).
Defined.

(* ===================================================================== *)
(** * Sample sets and the set-up of the pipeline: properties *)
(* ===================================================================== *)

Lemma filterChosenSampleSets_filter (sampleSets : list FileSystemSampleSet) :
  filterChosenSampleSets sampleSets =
  List.filter (fun sampleSet => bool_decide (setType sampleSet = CAMERA))
    sampleSets.
Proof.
  unfold filterChosenSampleSets.
  assert (Hgen : forall acc,
    fold_left
      (fun filteredSets fileSystemSampleSet =>
         if decide (setType fileSystemSampleSet = CAMERA)
         then filteredSets ++ [fileSystemSampleSet]
         else filteredSets)
      sampleSets acc =
    acc ++ List.filter (fun sampleSet => bool_decide (setType sampleSet = CAMERA))
             sampleSets).
  { induction sampleSets as [|sampleSet rest IH]; intros acc.
    - cbn. rewrite app_nil_r. reflexivity.
    - cbn [fold_left List.filter]. rewrite IH.
      destruct (decide (setType sampleSet = CAMERA)) as [Hcam|Hother].
      + rewrite bool_decide_eq_true_2 by exact Hcam.
        rewrite <- app_assoc. reflexivity.
      + rewrite bool_decide_eq_false_2 by exact Hother. reflexivity. }
  apply (Hgen []).
Qed.

Lemma filterChosenSampleSets_cameras (sampleSets : list FileSystemSampleSet) :
  Forall (fun sampleSet => setType sampleSet = CAMERA)
         (filterChosenSampleSets sampleSets).
Proof.
  rewrite filterChosenSampleSets_filter. apply Forall_forall.
  intros sampleSet Hin. apply list_elem_of_In, filter_In in Hin as [_ Hcam].
  apply bool_decide_eq_true in Hcam. exact Hcam.
Qed.

Section PipelineTheorems.

Variable topicNameForSampleSetType : string -> SampleType -> string.

Local Abbreviation addSampleSets' := (addSampleSets topicNameForSampleSetType).
Local Abbreviation submitTasks' := (submitTasks topicNameForSampleSetType).

(** With camera sample sets only, the first loop of [processSampleSets]
    in closed form. *)
Lemma addSampleSets_camera_form (sampleSets : list FileSystemSampleSet)
    (st : Setup) :
  Forall (fun sampleSet => setType sampleSet = CAMERA) sampleSets ->
  addSampleSets' sampleSets st =
  Returned
    (mkSetup
       (typeErasedQueueList st ++
        imap (fun i sampleSet =>
                (topicNameForSampleSetType (directoryName sampleSet) CAMERA,
                 (length (typeErasedQueueList st) + i)%nat))
             sampleSets)
       (sampleSetConverters st ++
        imap (fun i sampleSet =>
                mkConverter (length (typeErasedQueueList st) + i)
                  (directoryPath sampleSet))
             sampleSets)).
Proof.
  intros Hcam. revert st.
  induction Hcam as [|sampleSet rest Hhead _ IH]; intros st.
  - cbn. rewrite !app_nil_r. destruct st; reflexivity.
  - cbn [addSampleSets]. unfold addSampleSet. rewrite Hhead.
    destruct (decide (CAMERA = CAMERA)) as [_|Hne]; [|contradiction].
    rewrite IH. cbn [typeErasedQueueList sampleSetConverters imap].
    rewrite length_app, <- !app_assoc. cbn [length app].
    rewrite Nat.add_0_r.
    assert (Hq :
      imap (fun i sampleSet0 =>
              (topicNameForSampleSetType (directoryName sampleSet0) CAMERA,
               (length (typeErasedQueueList st) + 1 + i)%nat)) rest =
      imap ((fun i sampleSet0 =>
               (topicNameForSampleSetType (directoryName sampleSet0) CAMERA,
                (length (typeErasedQueueList st) + i)%nat)) ∘ S) rest).
    { apply imap_ext. intros i s _. cbn. f_equal. lia. }
    assert (Hc :
      imap (fun i sampleSet0 =>
              mkConverter (length (typeErasedQueueList st) + 1 + i)
                (directoryPath sampleSet0)) rest =
      imap ((fun i sampleSet0 =>
               mkConverter (length (typeErasedQueueList st) + i)
                 (directoryPath sampleSet0)) ∘ S) rest).
    { apply imap_ext. intros i s _. cbn. f_equal. lia. }
    rewrite Hq, Hc. reflexivity.
Qed.

(** The first sample set that is not a camera makes the loop throw. *)
Lemma addSampleSets_throws (sampleSets : list FileSystemSampleSet) (st : Setup) :
  Exists (fun sampleSet => setType sampleSet <> CAMERA) sampleSets ->
  addSampleSets' sampleSets st = Thrown "Not supported SampleSetType".
Proof.
  intros Hother. revert st.
  induction sampleSets as [|sampleSet rest IH]; intros st;
    [apply Exists_nil in Hother; contradiction|].
  cbn [addSampleSets]. unfold addSampleSet.
  destruct (decide (setType sampleSet = CAMERA)) as [Hcam|Hnot];
    [|reflexivity].
  apply IH. apply Exists_cons in Hother as [Hhead|Htail];
    [contradiction | exact Htail].
Qed.

Lemma cameras_or_not (sampleSets : list FileSystemSampleSet) :
  Forall (fun sampleSet => setType sampleSet = CAMERA) sampleSets \/
  Exists (fun sampleSet => setType sampleSet <> CAMERA) sampleSets.
Proof.
  induction sampleSets as [|sampleSet rest [IH|IH]].
  - left. constructor.
  - destruct (decide (setType sampleSet = CAMERA)) as [Hcam|Hnot].
    + left. constructor; assumption.
    + right. apply Exists_cons. left. exact Hnot.
  - right. apply Exists_cons. right. exact IH.
Qed.

Lemma submitTasks_camera_form (sampleSets : list FileSystemSampleSet) :
  Forall (fun sampleSet => setType sampleSet = CAMERA) sampleSets ->
  submitTasks' sampleSets =
  match last sampleSets with
  | None => UndefinedBehaviour
  | Some lastSet =>
      Returned
        (mkSetup
           (imap (fun i sampleSet =>
                    (topicNameForSampleSetType (directoryName sampleSet) CAMERA, i))
                 sampleSets)
           (imap (fun i sampleSet => mkConverter i (directoryPath sampleSet))
                 sampleSets),
         [mkConverter (length sampleSets - 1) (directoryPath lastSet)])
  end.
Proof.
  intros Hcam. unfold submitTasks.
  rewrite (addSampleSets_camera_form sampleSets (mkSetup [] []) Hcam).
  cbn [typeErasedQueueList sampleSetConverters length app Nat.add].
  destruct sampleSets as [|first rest _] using rev_ind; [reflexivity|].
  rewrite last_snoc.
  rewrite (imap_app (fun i sampleSet => mkConverter i (directoryPath sampleSet))).
  cbn [imap]. rewrite last_snoc, length_app, !Nat.add_0_r. cbn [length].
  replace (length rest + 1 - 1)%nat with (length rest) by lia.
  reflexivity.
Qed.

(** X14. How the set-up of [processSampleSets] ends: it throws "Not
    supported SampleSetType" exactly when some sample set is not a camera;
    it runs into [back()] of an empty vector exactly when there is no
    sample set at all; and it returns exactly when the list is a
    non-empty list of camera sample sets. *)
Theorem submitTasks_outcomes (sampleSets : list FileSystemSampleSet) :
  (submitTasks' sampleSets = Thrown "Not supported SampleSetType" <->
   Exists (fun sampleSet => setType sampleSet <> CAMERA) sampleSets) /\
  (submitTasks' sampleSets = UndefinedBehaviour <-> sampleSets = []) /\
  ((exists result, submitTasks' sampleSets = Returned result) <->
   sampleSets <> [] /\
   Forall (fun sampleSet => setType sampleSet = CAMERA) sampleSets).
Proof.
  destruct (cameras_or_not sampleSets) as [Hcam|Hother].
  - assert (Hnone : ~ Exists (fun sampleSet => setType sampleSet <> CAMERA)
                        sampleSets).
    { intros Hex. apply Exists_exists in Hex as (s & Hin & Hs).
      rewrite Forall_forall in Hcam. exact (Hs (Hcam s Hin)). }
    rewrite (submitTasks_camera_form sampleSets Hcam).
    destruct sampleSets as [|first rest _] using rev_ind.
    + cbn [last]. split; [|split].
      * split; [discriminate | intros Hex; contradiction].
      * split; reflexivity.
      * split; [intros [result Hr]; discriminate Hr
               | intros [Hne _]; contradiction].
    + rewrite last_snoc.
      assert (Hne : rest ++ [first] <> []) by (destruct rest; discriminate).
      split; [|split].
      * split; [discriminate | intros Hex; contradiction].
      * split; [discriminate | intros Hnil; contradiction].
      * split; [auto | eauto].
  - unfold submitTasks.
    rewrite (addSampleSets_throws sampleSets (mkSetup [] []) Hother).
    assert (Hne : sampleSets <> [])
      by (intros ->; apply Exists_nil in Hother; exact Hother).
    assert (Hnot : ~ Forall (fun sampleSet => setType sampleSet = CAMERA)
                       sampleSets).
    { intros Hall. apply Exists_exists in Hother as (s & Hin & Hs).
      rewrite Forall_forall in Hall. exact (Hs (Hall s Hin)). }
    split; [|split].
    + split; auto.
    + split; [discriminate | intros Hnil; contradiction].
    + split; [intros [result Hr]; discriminate Hr
             | intros [_ Hall]; contradiction].
Qed.

(** X15. What [convertDirectory] hands to [processSampleSets] never makes
    it throw: after [filterChosenSampleSets], which keeps the camera
    sample sets in their order, the set-up returns with one queue per
    camera sample set and a single task, that of the last camera sample
    set - or, when no sample set is a camera, calls [back()] on an empty
    vector. *)
Theorem chosen_sample_sets_set_up (sampleSets : list FileSystemSampleSet) :
  let chosen := filterChosenSampleSets sampleSets in
  chosen =
    List.filter (fun sampleSet => bool_decide (setType sampleSet = CAMERA))
      sampleSets /\
  (forall what, submitTasks' chosen <> Thrown what) /\
  (chosen = [] -> submitTasks' chosen = UndefinedBehaviour) /\
  (forall lastSet, last chosen = Some lastSet ->
     exists st,
       submitTasks' chosen =
         Returned (st, [mkConverter (length chosen - 1) (directoryPath lastSet)]) /\
       length (typeErasedQueueList st) = length chosen /\
       length (sampleSetConverters st) = length chosen).
Proof.
  intros chosen.
  pose proof (submitTasks_camera_form chosen
                (filterChosenSampleSets_cameras sampleSets)) as Hform.
  split; [apply filterChosenSampleSets_filter|]. split; [|split].
  - intros what. rewrite Hform. destruct (last chosen); discriminate.
  - intros Hnil. rewrite Hform, Hnil. reflexivity.
  - intros lastSet Hlast. rewrite Hform, Hlast. eexists.
    split; [reflexivity|]. cbn [typeErasedQueueList sampleSetConverters].
    rewrite !length_imap. auto.
Qed.

(** X16. With camera sample sets only, the first loop of
    [processSampleSets] gives the queue of rank i the topic of the i-th
    sample set and the converter of rank i the producer end of that queue
    and the directory of that sample set; the queues of the list are
    pairwise different. *)
Theorem addSampleSets_ranks (sampleSets : list FileSystemSampleSet) :
  Forall (fun sampleSet => setType sampleSet = CAMERA) sampleSets ->
  exists st,
    addSampleSets' sampleSets (mkSetup [] []) = Returned st /\
    map fst (typeErasedQueueList st) =
      map (fun sampleSet =>
             topicNameForSampleSetType (directoryName sampleSet) CAMERA)
          sampleSets /\
    map snd (typeErasedQueueList st) = seq 0 (length sampleSets) /\
    NoDup (map snd (typeErasedQueueList st)) /\
    map converter_queue (sampleSetConverters st) = seq 0 (length sampleSets) /\
    map converter_directory (sampleSetConverters st) =
      map directoryPath sampleSets.
Proof.
  intros Hcam.
  rewrite (addSampleSets_camera_form sampleSets (mkSetup [] []) Hcam).
  eexists. split; [reflexivity|].
  cbn [typeErasedQueueList sampleSetConverters length app Nat.add].
  assert (Hranks :
    map snd
      (imap (fun i sampleSet =>
               (topicNameForSampleSetType (directoryName sampleSet) CAMERA, i))
            sampleSets) = seq 0 (length sampleSets)).
  { apply list_eq. intros i.
    rewrite list_lookup_fmap, list_lookup_imap.
    destruct (sampleSets !! i) as [s|] eqn:Hi.
    - rewrite lookup_seq_lt by (apply lookup_lt_Some in Hi; exact Hi).
      reflexivity.
    - rewrite lookup_seq_ge by (apply lookup_ge_None in Hi; exact Hi).
      reflexivity. }
  split; [|split; [exact Hranks|split; [rewrite Hranks; apply NoDup_seq|split]]].
  - apply list_eq. intros i.
    rewrite !list_lookup_fmap, list_lookup_imap.
    destruct (sampleSets !! i); reflexivity.
  - apply list_eq. intros i.
    rewrite list_lookup_fmap, list_lookup_imap.
    destruct (sampleSets !! i) as [s|] eqn:Hi.
    + rewrite lookup_seq_lt by (apply lookup_lt_Some in Hi; exact Hi).
      reflexivity.
    + rewrite lookup_seq_ge by (apply lookup_ge_None in Hi; exact Hi).
      reflexivity.
  - apply list_eq. intros i.
    rewrite !list_lookup_fmap, list_lookup_imap.
    destruct (sampleSets !! i); reflexivity.
Qed.

End PipelineTheorems.

Lemma addSampleSets_ranks_witness :
  Forall (fun sampleSet => setType sampleSet = CAMERA)
         [frontCameraSet; backCameraSet] /\
  exists st,
    addSampleSets (fun name _ => name) [frontCameraSet; backCameraSet]
      (mkSetup [] []) = Returned st /\
    map snd (typeErasedQueueList st) = seq 0 2.
Proof.
  assert (Hcam : Forall (fun sampleSet => setType sampleSet = CAMERA)
                        [frontCameraSet; backCameraSet])
    by (repeat constructor).
  split; [exact Hcam|].
  destruct (addSampleSets_ranks (fun name _ => name)
              [frontCameraSet; backCameraSet] Hcam)
    as (st & Hrun & _ & Hranks & _).
  exists st. split; [exact Hrun | exact Hranks].
Defined.

(** The value of [getSampleSetsInDirectory]: the directories whose name
    carries a marker, each with the type of its first marker. *)
Lemma getSampleSetsInDirectory_value (entries : list DirectoryEntry) :
  fst (getSampleSetsInDirectory entries) =
  omap (fun dir =>
          if entry_is_directory dir then
            (fun sampleType =>
               mkSampleSet (path_filename (entry_path dir)) sampleType
                 (entry_path dir)) <$>
            firstMarker
              (fun name => string_icontains (path_filename (entry_path dir)) name)
              pairs
          else None)
       entries.
Proof.
  unfold getSampleSetsInDirectory.
  assert (Hgen : forall sets,
    fst (forEach entries addDirectory sets) =
    sets ++
    omap (fun dir =>
            if entry_is_directory dir then
              (fun sampleType =>
                 mkSampleSet (path_filename (entry_path dir)) sampleType
                   (entry_path dir)) <$>
              firstMarker
                (fun name => string_icontains (path_filename (entry_path dir)) name)
                pairs
            else None)
         entries).
  { induction entries as [|dir rest IH]; intros sets.
    - cbn. rewrite app_nil_r. reflexivity.
    - cbn [forEach omap list_omap]. rewrite fst_bind, IH.
      unfold addDirectory. destruct (entry_is_directory dir).
      + rewrite fst_bind, extractSampleSetDescriptorInDirectory_value.
        destruct (firstMarker _ pairs); cbn [fmap option_fmap option_map ret fst].
        * rewrite <- app_assoc. reflexivity.
        * reflexivity.
      + reflexivity. }
  apply (Hgen []).
Qed.

(** X17. The sample sets that [convertDirectory] chooses in a directory
    are its sub-directories whose name contains "CAM" in any case of
    letters, in the order of the listing, each as a camera sample set
    named by the last component of its path. Plain files and the
    directories of other sensors are left out. *)
Theorem chosen_sample_sets_of_directory (entries : list DirectoryEntry) :
  filterChosenSampleSets (fst (getSampleSetsInDirectory entries)) =
  map (fun dir =>
         mkSampleSet (path_filename (entry_path dir)) CAMERA (entry_path dir))
      (List.filter
         (fun dir =>
            entry_is_directory dir &&
            string_icontains (path_filename (entry_path dir)) "CAM")
         entries).
Proof.
  rewrite filterChosenSampleSets_filter, getSampleSetsInDirectory_value.
  set (found := fun dir : DirectoryEntry =>
         if entry_is_directory dir then
           (fun sampleType =>
              mkSampleSet (path_filename (entry_path dir)) sampleType
                (entry_path dir)) <$>
           firstMarker
             (fun name => string_icontains (path_filename (entry_path dir)) name)
             pairs
         else None).
  set (camera := fun sampleSet : FileSystemSampleSet =>
         bool_decide (setType sampleSet = CAMERA)).
  set (chosen := fun dir : DirectoryEntry =>
         entry_is_directory dir &&
         string_icontains (path_filename (entry_path dir)) "CAM").
  induction entries as [|dir rest IH]; [reflexivity|].
  cbn [omap list_omap List.filter].
  assert (Hhead :
    (found dir = None /\ chosen dir = false) \/
    (exists sampleType,
       sampleType <> CAMERA /\ chosen dir = false /\
       found dir = Some (mkSampleSet (path_filename (entry_path dir)) sampleType
                           (entry_path dir))) \/
    (chosen dir = true /\
     found dir = Some (mkSampleSet (path_filename (entry_path dir)) CAMERA
                         (entry_path dir)))).
  { unfold found, chosen. destruct (entry_is_directory dir); [|auto].
    cbn [firstMarker pairs andb].
    destruct (string_icontains (path_filename (entry_path dir)) "CAM");
      [right; right; auto|].
    destruct (string_icontains (path_filename (entry_path dir)) "RADAR");
      [right; left; exists RADAR; repeat split; discriminate|].
    destruct (string_icontains (path_filename (entry_path dir)) "LIDAR");
      [right; left; exists LIDAR; repeat split; discriminate | auto]. }
  destruct Hhead as [(-> & ->) | [(sampleType & Hne & -> & ->) | (-> & ->)]].
  - exact IH.
  - cbn [List.filter]. unfold camera at 1. cbn [setType].
    rewrite bool_decide_eq_false_2 by exact Hne. exact IH.
  - cbn [List.filter map]. unfold camera at 1. cbn [setType].
    rewrite bool_decide_eq_true_2 by reflexivity. rewrite IH. reflexivity.
Qed.

(* ===================================================================== *)
(** * The drain loop: order of the messages, and queues left open *)
(* ===================================================================== *)

Lemma NoDup_map_inj {A B : Type} (f : A -> B) (l : list A) (a b : A) :
  NoDup (map f l) -> In a l -> In b l -> f a = f b -> a = b.
Proof.
  induction l as [|x l IH]; [intros _ []|].
  cbn [map]. intros Hnodup Ha Hb Hf.
  apply NoDup_cons in Hnodup as [Hfresh Hnodup].
  destruct Ha as [<-|Ha], Hb as [<-|Hb].
  - reflexivity.
  - exfalso. apply Hfresh. rewrite Hf. apply list_elem_of_In, in_map, Hb.
  - exfalso. apply Hfresh. rewrite <- Hf. apply list_elem_of_In, in_map, Ha.
  - apply IH; assumption.
Qed.

Lemma writtenOn_app {Msg : Type} (topicInfo : TopicInfo)
    (l1 l2 : list (TopicInfo * Msg)) :
  writtenOn topicInfo (l1 ++ l2) = writtenOn topicInfo l1 ++ writtenOn topicInfo l2.
Proof. unfold writtenOn. rewrite List.filter_app, map_app. reflexivity. Qed.

Lemma writtenOn_tagged {Msg : Type} (topicInfo topicInfo' : TopicInfo)
    (l : list Msg) :
  writtenOn topicInfo' (map (pair topicInfo) l) =
  if decide (topicInfo = topicInfo') then l else [].
Proof.
  unfold writtenOn. induction l as [|x l IH]; cbn [map List.filter fst].
  - destruct (decide _); reflexivity.
  - destruct (decide (topicInfo = topicInfo')) as [Heq|Hne].
    + rewrite bool_decide_eq_true_2 by exact Heq. cbn [map snd].
      rewrite IH. reflexivity.
    + rewrite bool_decide_eq_false_2 by exact Hne. exact IH.
Qed.

Section DrainOrder.

Variable Msg : Type.
Variable env : nat -> History Msg.
Hypothesis env_wellFormed : forall queue, wellFormed (env queue).
Variable queues : list (TopicInfo * nat).
Hypothesis queues_distinct : NoDup (map snd queues).
Hypothesis topics_distinct : NoDup (map fst queues).

Local Abbreviation inQueueOrder := (inQueueOrder env queues).

Lemma inQueueOrder_process topicInfo queue st :
  In (topicInfo, queue) queues ->
  drainInvariant env queues st -> inQueueOrder st ->
  inQueueOrder (process env topicInfo queue st).
Proof.
  intros Hin [Hpop _] Horder topicInfo' queue' Hin'.
  change (written (process env topicInfo queue st))
    with (written st ++
          map (pair topicInfo)
            (drop (consumedOf st queue)
               (take (pushedBy (env queue) (clock st))
                  (produced (env queue))))).
  rewrite writtenOn_app, writtenOn_tagged, (Horder _ _ Hin'),
    consumedOf_process.
  pose proof (Hpop queue) as Hle.
  destruct (decide (topicInfo = topicInfo')) as [Htopic|Htopic].
  - subst topicInfo'.
    assert (Hsame : (topicInfo, queue) = (topicInfo, queue'))
      by (apply (NoDup_map_inj fst queues); auto).
    injection Hsame as <-.
    case_decide; [|congruence].
    rewrite Nat.max_r by exact Hle.
    rewrite <- (take_drop (consumedOf st queue)
                  (take (pushedBy (env queue) (clock st))
                     (produced (env queue)))) at 2.
    rewrite take_take, Nat.min_l by exact Hle. reflexivity.
  - case_decide as Hqueue.
    + subst queue'. exfalso. apply Htopic.
      assert (Hsame : (topicInfo, queue) = (topicInfo', queue))
        by (apply (NoDup_map_inj snd queues); auto).
      congruence.
    + rewrite app_nil_r. reflexivity.
Qed.

Lemma visit_order flag st topicInfo queue :
  In (topicInfo, queue) queues ->
  drainInvariant env queues st -> inQueueOrder st ->
  inQueueOrder (snd (visit env (flag, st) (topicInfo, queue))).
Proof.
  intros Hin Hinv Horder. unfold visit.
  destruct (negb (isClosed env queue st)).
  - cbn [snd]. apply inQueueOrder_process; [assumption | |exact Horder].
    apply drainInvariant_tick; assumption.
  - destruct (0 <? queue_size env queue (tick st))%nat; cbn [snd].
    + apply inQueueOrder_process; [assumption | |exact Horder].
      apply drainInvariant_tick, drainInvariant_tick; assumption.
    + exact Horder.
Qed.

Lemma pass_order (l : list (TopicInfo * nat)) flag st :
  (forall entry, In entry l -> In entry queues) ->
  drainInvariant env queues st -> inQueueOrder st ->
  inQueueOrder (snd (fold_left (visit env) l (flag, st))).
Proof.
  revert flag st. induction l as [|[topicInfo queue] l IH];
    intros flag st Hsub Hinv Horder; [exact Horder|].
  cbn [fold_left].
  pose proof (visit_order flag st topicInfo queue
                (Hsub _ (or_introl eq_refl)) Hinv Horder) as Horder'.
  destruct (visit_invariant Msg env env_wellFormed queues queues_distinct
              flag st topicInfo queue (Hsub _ (or_introl eq_refl)) Hinv)
    as (Hinv' & _).
  destruct (visit env (flag, st) (topicInfo, queue)) as [flag' st'].
  apply IH; [intros e He; apply Hsub; right; exact He | exact Hinv' | exact Horder'].
Qed.

Lemma drainLoop_order (fuel : nat) st st' :
  drainInvariant env queues st -> inQueueOrder st ->
  drainLoop env fuel queues st = Some st' ->
  inQueueOrder st'.
Proof.
  revert st. induction fuel as [|fuel IH]; intros st Hinv Horder Hloop;
    [discriminate|].
  cbn [drainLoop] in Hloop.
  pose proof (pass_order queues false st (fun _ H => H) Hinv Horder) as Horder1.
  destruct (pass_invariant Msg env env_wellFormed queues queues_distinct
              queues false st (fun _ H => H) Hinv) as (Hinv1 & _).
  destruct (fold_left (visit env) queues (false, st)) as [flag st1].
  cbn [snd] in *.
  destruct flag; cbn [negb] in Hloop; [exact (IH st1 Hinv1 Horder1 Hloop)|].
  injection Hloop as <-. exact Horder1.
Qed.

End DrainOrder.

(** X18. When the queues have pairwise different topics, the writer gets
    the messages of each topic in the order in which the producer of the
    queue of that topic pushed them, all of them and nothing else, by the
    time the drain loop ends. *)
Theorem drainLoop_keeps_queue_order (Msg : Type) (env : nat -> History Msg)
    (queues : list (TopicInfo * nat)) (fuel : nat) (st' : DrainState Msg) :
  (forall queue, wellFormed (env queue)) ->
  NoDup (map snd queues) ->
  NoDup (map fst queues) ->
  drainLoop env fuel queues drainStart = Some st' ->
  forall topicInfo queue,
    In (topicInfo, queue) queues ->
    writtenOn topicInfo (written st') = produced (env queue).
Proof.
  intros Hwf Hqueues Htopics Hloop topicInfo queue Hin.
  pose proof (drainInvariant_start Msg env queues) as Hstart.
  assert (Horder0 : inQueueOrder env queues drainStart).
  { intros t q _. unfold consumedOf. cbn. rewrite lookup_empty. reflexivity. }
  pose proof (drainLoop_order Msg env Hwf queues Hqueues Htopics fuel drainStart
                st' Hstart Horder0 Hloop topicInfo queue Hin) as Horder.
  destruct (drainLoop_exit Msg env Hwf queues Hqueues fuel drainStart st'
              Hstart Hloop) as [_ Hall].
  destruct (Hall _ Hin) as [Hclosed Hempty]. cbn [snd] in *.
  unfold isClosed in Hclosed. unfold queue_size in Hempty.
  pose proof (closed_full (Hwf queue) (clock st') Hclosed) as Hfull.
  rewrite Horder. apply take_ge. lia.
Qed.

Lemma drainLoop_keeps_queue_order_witness :
  exists st',
    drainLoop twoProducers 3 twoQueues drainStart = Some st' /\
    writtenOn "cam_front/raw" (written st') = produced (twoProducers 0).
Proof.
  destruct (drainLoop twoProducers 3 twoQueues drainStart) as [st'|] eqn:Hloop.
  - exists st'. split; [reflexivity|].
    apply (drainLoop_keeps_queue_order nat twoProducers twoQueues 3 st').
    + intros [|[|queue]]; constructor;
        unfold twoProducers, frontHistory, backHistory, idleHistory;
        cbn [pushedBy closedBy produced length]; intros;
        repeat match goal with
               | H : Nat.leb _ _ = true |- _ => apply Nat.leb_le in H
               | |- Nat.leb _ _ = true => apply Nat.leb_le
               end; try reflexivity; lia.
    + cbn. apply NoDup_cons_2.
      * intros Hin. apply list_elem_of_In in Hin. destruct Hin as [H|[]].
        discriminate H.
      * apply NoDup_singleton.
    + cbn. apply NoDup_cons_2.
      * intros Hin. apply list_elem_of_In in Hin. destruct Hin as [H|[]].
        discriminate H.
      * apply NoDup_singleton.
    + exact Hloop.
    + left. reflexivity.
  - vm_compute in Hloop. discriminate Hloop.
Defined.

Lemma visit_flag_stays {Msg : Type} (env : nat -> History Msg)
    (l : list (TopicInfo * nat)) (st : DrainState Msg) :
  fst (fold_left (visit env) l (true, st)) = true.
Proof.
  revert st. induction l as [|[topicInfo queue] l IH]; intros st;
    [reflexivity|].
  cbn [fold_left]. unfold visit at 2.
  destruct (negb _); [apply IH|].
  destruct (0 <? _)%nat; apply IH.
Qed.

Lemma pass_sees_open_queue {Msg : Type} (env : nat -> History Msg)
    (l : list (TopicInfo * nat)) (topicInfo : TopicInfo) (queue : nat)
    (flag : bool) (st : DrainState Msg) :
  In (topicInfo, queue) l ->
  (forall n, closedBy (env queue) n = false) ->
  fst (fold_left (visit env) l (flag, st)) = true.
Proof.
  intros Hin Hopen. revert flag st.
  induction l as [|[topicInfo' queue'] l IH]; intros flag st; [destruct Hin|].
  cbn [fold_left]. destruct Hin as [Hhead|Htail].
  - injection Hhead as -> ->. unfold visit at 2. unfold isClosed.
    rewrite Hopen. cbn [negb]. apply visit_flag_stays.
  - destruct (visit env (flag, st) (topicInfo', queue')) as [flag' st'].
    apply IH, Htail.
Qed.

(** X19. The drain loop does not end while a queue of its list stays
    open: if one of the queues is never closed - as the queue of a
    converter that was never handed to the pool - no number of turns
    reaches the [break], whatever the other queues do. *)
Theorem drainLoop_waits_for_open_queue (Msg : Type) (env : nat -> History Msg)
    (queues : list (TopicInfo * nat)) (topicInfo : TopicInfo) (queue : nat) :
  In (topicInfo, queue) queues ->
  (forall n, closedBy (env queue) n = false) ->
  forall (fuel : nat) (st : DrainState Msg),
    drainLoop env fuel queues st = None.
Proof.
  intros Hin Hopen fuel. induction fuel as [|fuel IH]; intros st;
    [reflexivity|].
  cbn [drainLoop].
  pose proof (pass_sees_open_queue env queues topicInfo queue false st Hin Hopen)
    as Hflag.
  destruct (fold_left (visit env) queues (false, st)) as [flag st1].
  cbn [fst] in Hflag. subst flag. cbn [negb]. apply IH.
Qed.

Lemma drainLoop_waits_for_open_queue_witness :
  In ("cam_front/raw"%string, 0%nat) twoQueues /\
  (forall n, closedBy (lastProducerOnly 0) n = false) /\
  drainLoop lastProducerOnly 1000 twoQueues drainStart = None.
Proof.
  assert (Hin : In ("cam_front/raw"%string, 0%nat) twoQueues)
    by (left; reflexivity).
  assert (Hopen : forall n, closedBy (lastProducerOnly 0) n = false)
    by (intros n; reflexivity).
  split; [exact Hin|]. split; [exact Hopen|].
  exact (drainLoop_waits_for_open_queue nat lastProducerOnly twoQueues
           "cam_front/raw" 0 Hin Hopen 1000 drainStart).
Defined.

(* ===================================================================== *)
(** * Colours: the branches that decide *)
(* ===================================================================== *)

Lemma occurs_longer (pre sub s : string) :
  occurs (String.append pre sub) s -> occurs sub s.
Proof.
  intros (before & after & ->). exists (String.append before pre), after.
  rewrite !append_assoc3. reflexivity.
Qed.

Lemma construction_vehicle_is_vehicle (categoryName : string) :
  stringContains categoryName "vehicle" = false ->
  stringContains categoryName "construction_vehicle" = false.
Proof.
  rewrite !stringContains_absent. intros Habsent Hoccurs. apply Habsent.
  exact (occurs_longer "construction_" "vehicle" categoryName Hoccurs).
Qed.

(** X20. The test for "construction_vehicle" in [getColor] never decides
    the colour: two category names on which the other ten keyword tests
    answer alike get the same colour, whether or not "construction_vehicle"
    occurs in them - a name in which it occurs is caught by the earlier
    test for "vehicle". *)
Theorem getColor_ignores_construction_vehicle (name1 name2 : string) :
  (forall keyword,
     In keyword ["bicycle"; "motorcycle"; "vehicle"; "bus"; "car"; "trailer";
                 "truck"; "pedestrian"; "cone"; "barrier"]%string ->
     stringContains name1 keyword = stringContains name2 keyword) ->
  getColor name1 = getColor name2.
Proof.
  intros Hsame. unfold getColor.
  rewrite !(Hsame "bicycle"%string), !(Hsame "motorcycle"%string),
    !(Hsame "vehicle"%string), !(Hsame "bus"%string), !(Hsame "car"%string),
    !(Hsame "trailer"%string), !(Hsame "truck"%string),
    !(Hsame "pedestrian"%string), !(Hsame "cone"%string),
    !(Hsame "barrier"%string) by (cbn [In]; tauto).
  destruct (stringContains name2 "bicycle"); [reflexivity|].
  destruct (stringContains name2 "motorcycle"); [reflexivity|].
  pose proof (construction_vehicle_is_vehicle name2) as Hdead2.
  pose proof (construction_vehicle_is_vehicle name1) as Hdead1.
  rewrite (Hsame "vehicle"%string) in Hdead1 by (cbn [In]; tauto).
  destruct (stringContains name2 "vehicle"); [reflexivity|].
  rewrite Hdead1, Hdead2 by reflexivity. reflexivity.
Qed.

Lemma getColor_ignores_construction_vehicle_witness :
  stringContains "vehicle.construction" "construction_vehicle" = false /\
  stringContains "static.construction_vehicle" "construction_vehicle" = true /\
  getColor "vehicle.construction" = getColor "static.construction_vehicle".
Proof.
  split; [reflexivity|]. split; [reflexivity|].
  apply (getColor_ignores_construction_vehicle
           "vehicle.construction" "static.construction_vehicle").
  intros keyword Hin. cbn [In] in Hin.
  repeat (destruct Hin as [<-|Hin]; [vm_compute; reflexivity|]).
  destruct Hin.
Defined.

(** X21. [getColor] gives one of five colours whatever the category name
    is, and none of them is transparent: the alpha channel is always 1. *)
Theorem getColor_palette (categoryName : string) :
  In (getColor categoryName) [red; orange; blue; black; magenta] /\
  a (getColor categoryName) = 1%Q.
Proof.
  unfold getColor.
  repeat match goal with
         | |- context [if stringContains ?s ?k then _ else _] =>
             destruct (stringContains s k)
         end;
    (split; [cbn [In]; tauto | reflexivity]).
Qed.
